(** * Breathwork: the phase/timer state machine and its render loop

    A shallow embedding of the Python package [breathwork]
    ([models.py], [timer.py], [exercise.py], [core.py] and the constants of
    [configuration.py] they use), with the properties of its specification
    stated and proved over it.

    Conventions of the embedding.
    - Python [int] is [Z]; a list index that the code only ever sets to
      [0], [i + 1] is a [nat].
    - [time.monotonic()] returns a float.  Time is modelled by exact
      rationals [Q]: the code only subtracts and compares clock readings.
    - A method that mutates [self] and may raise is a computation in a small
      state-and-exception monad [M S A := S -> outcome A * S]: the state
      after a [raise] is the state the object is left in.
    - The clock is a state: every reading and every sleep moves it on, by
      the time asked for plus a lag that the model leaves arbitrary.
    - The calls made on the display collaborator are recorded in a log.
    - The [while] loop of [run_exercise] is run for a given number of
      iterations; running out of them is a result of its own. *)

From Stdlib Require Import ZArith QArith Qround Lqa Ascii String List Sorted.
From stdpp Require Import base tactics option list gmap pretty.

Open Scope Z_scope.

(** ** Exceptions and the state-and-exception monad *)

Inductive exn : Type :=
| RuntimeError (msg : string)
| ValueError (msg : string)
| IndexError (msg : string)
| KeyError (msg : string).

(** [str(e)] of an exception built from one message. *)
Definition exn_str (e : exn) : string :=
  match e with
  | RuntimeError m | ValueError m | IndexError m | KeyError m => m
  end.

Inductive outcome (A : Type) : Type :=
| Ret (a : A)
| Raise (e : exn).
Arguments Ret {A} a.
Arguments Raise {A} e.

Definition M (S A : Type) : Type := S -> outcome A * S.

Definition ret {S A} (a : A) : M S A := fun s => (Ret a, s).
Definition raise {S A} (e : exn) : M S A := fun s => (Raise e, s).
Definition bind {S A B} (m : M S A) (k : A -> M S B) : M S B :=
  fun s => match m s with
           | (Ret a, s') => k a s'
           | (Raise e, s') => (Raise e, s')
           end.
Definition get {S} : M S S := fun s => (Ret s, s).
Definition put {S} (s : S) : M S unit := fun _ => (Ret tt, s).
Definition gets {S A} (f : S -> A) : M S A := fun s => (Ret (f s), s).
Definition modify {S} (f : S -> S) : M S unit := fun s => (Ret tt, f s).

(** [try: m except Exception as e: h e]. *)
Definition catch {S A} (m : M S A) (h : exn -> M S A) : M S A :=
  fun s => match m s with
           | (Ret a, s') => (Ret a, s')
           | (Raise e, s') => h e s'
           end.

Declare Scope monad_scope.
Delimit Scope monad_scope with monad.
Notation "x <- m ;; k" := (bind m (fun x => k))
  (at level 100, m at next level, right associativity) : monad_scope.
Notation "m ;; k" := (bind m (fun _ => k))
  (at level 100, right associativity) : monad_scope.
Open Scope monad_scope.

(** ** models.py: enumerations *)

Inductive PhaseType : Type := BREATHING | HOLD.

Inductive PhaseState : Type := NOT_STARTED | IN_PROGRESS | COUNTDOWN | COMPLETED.

Inductive DisplayMode : Type := TUI | PLAIN.

Global Instance PhaseType_eq_dec : EqDecision PhaseType.
Proof. solve_decision. Defined.
Global Instance PhaseState_eq_dec : EqDecision PhaseState.
Proof. solve_decision. Defined.
Global Instance DisplayMode_eq_dec : EqDecision DisplayMode.
Proof. solve_decision. Defined.

(** [PhaseType.value]. *)
Definition PhaseType_value (t : PhaseType) : string :=
  match t with BREATHING => "breathing" | HOLD => "hold" end.

(** [str] of a [PhaseState] member, as an f-string prints it. *)
Definition PhaseState_str (s : PhaseState) : string :=
  match s with
  | NOT_STARTED => "PhaseState.NOT_STARTED"
  | IN_PROGRESS => "PhaseState.IN_PROGRESS"
  | COUNTDOWN => "PhaseState.COUNTDOWN"
  | COMPLETED => "PhaseState.COMPLETED"
  end.

(** ** models.py: Phase *)

Module Phase.

Record t : Type := mk {
  type : PhaseType;
  duration : Z;
  instruction : string;
  color : string;
  _state : PhaseState
}.

(** The dataclass constructor: [_state] is not an init field and starts
    as [NOT_STARTED]. *)
Definition new (ty : PhaseType) (d : Z) (instr col : string) : t :=
  mk ty d instr col NOT_STARTED.

Definition set_state (s : PhaseState) (p : t) : t :=
  mk (type p) (duration p) (instruction p) (color p) s.

Definition state (p : t) : PhaseState := _state p.

Definition start : M t unit :=
  s <- gets _state ;;
  if negb (bool_decide (s = NOT_STARTED))
  then raise (RuntimeError ("Cannot start phase in state " +:+ PhaseState_str s))
  else modify (set_state IN_PROGRESS).

Definition enter_countdown : M t unit :=
  s <- gets _state ;;
  if negb (bool_decide (s = IN_PROGRESS))
  then raise (RuntimeError ("Cannot enter countdown from state " +:+ PhaseState_str s))
  else modify (set_state COUNTDOWN).

Definition complete : M t unit :=
  s <- gets _state ;;
  if negb (bool_decide (s = IN_PROGRESS) || bool_decide (s = COUNTDOWN))
  then raise (RuntimeError ("Cannot complete phase in state " +:+ PhaseState_str s))
  else modify (set_state COMPLETED).

Definition is_not_started (p : t) : bool := bool_decide (_state p = NOT_STARTED).
Definition is_in_progress (p : t) : bool := bool_decide (_state p = IN_PROGRESS).
Definition is_in_countdown (p : t) : bool := bool_decide (_state p = COUNTDOWN).
Definition is_completed (p : t) : bool := bool_decide (_state p = COMPLETED).

(** [__eq__]: the state is not compared. *)
Definition eq (p q : t) : bool :=
  bool_decide (type p = type q)
  && bool_decide (duration p = duration q)
  && bool_decide (instruction p = instruction q)
  && bool_decide (color p = color q).

(** What the specification lists of a phase: kind, duration, label. *)
Definition summary (p : t) : PhaseType * Z * string :=
  (type p, duration p, instruction p).

(** The three mutating methods, as data, to speak about call sequences. *)
Inductive call : Type := Start | EnterCountdown | Complete.

Definition invoke (c : call) : M t unit :=
  match c with
  | Start => start
  | EnterCountdown => enter_countdown
  | Complete => complete
  end.

(** Runs the calls in order on one phase object; a call that raises is
    caught by the caller and the next call is made on the object as the
    failed call left it.  Returns the state observed after each call. *)
Fixpoint run_calls (cs : list call) (p : t) : list PhaseState :=
  match cs with
  | [] => []
  | c :: cs' =>
      let p' := snd (invoke c p) in
      _state p' :: run_calls cs' p'
  end.

(** Position of a state on the forward path. *)
Definition rank (s : PhaseState) : nat :=
  match s with
  | NOT_STARTED => 0
  | IN_PROGRESS => 1
  | COUNTDOWN => 2
  | COMPLETED => 3
  end%nat.

(** The edges of the lifecycle. *)
Inductive edge : PhaseState -> PhaseState -> Prop :=
| edge_start : edge NOT_STARTED IN_PROGRESS
| edge_countdown : edge IN_PROGRESS COUNTDOWN
| edge_complete : edge IN_PROGRESS COMPLETED
| edge_complete_cd : edge COUNTDOWN COMPLETED.

(** Removes consecutive repetitions. *)
Fixpoint squash (prev : PhaseState) (l : list PhaseState) : list PhaseState :=
  match l with
  | [] => []
  | s :: l' => if bool_decide (s = prev) then squash prev l' else s :: squash s l'
  end.

(** The distinct states a phase in state [s] can still go through. *)
Definition futures (s : PhaseState) : list (list PhaseState) :=
  match s with
  | NOT_STARTED => [[IN_PROGRESS; COUNTDOWN; COMPLETED]; [IN_PROGRESS; COMPLETED]]
  | IN_PROGRESS => [[COUNTDOWN; COMPLETED]; [COMPLETED]]
  | COUNTDOWN => [[COMPLETED]]
  | COMPLETED => [[]]
  end.

End Phase.

(** ** Python built-ins used by the code *)

(** [a < b] on floats. *)
Definition Qlt_bool (a b : Q) : bool := negb (Qle_bool b a).

(** [max(a, b)]: the first argument unless the second is greater. *)
Definition py_max (a b : Q) : Q := if Qlt_bool a b then b else a.

(** [int(x)] on a float: truncation toward zero. *)
Definition py_int (x : Q) : Z :=
  if Qle_bool 0 x then Qfloor x else Qceiling x.

(** [for i, x in enumerate(l): body i x], counting from [i]. *)
Fixpoint for_enumerate {S A} (i : Z) (l : list A) (body : Z -> A -> M S unit)
  : M S unit :=
  match l with
  | [] => ret tt
  | x :: l' => body i x ;; for_enumerate (i + 1) l' body
  end.

(** [tpl.format(duration=d)] for templates whose replacement fields are plain
    names: doubled braces are escapes, [{duration}] is replaced by [str(d)],
    any other field name is a [KeyError], an unmatched brace a [ValueError].
    [field] is [Some f] while the scanner is inside a replacement field whose
    name read so far is [f].  Conversions and format specifications
    ([!r], [:02d]) are not modelled; no template of the package uses them. *)
Fixpoint format_go (field : option string) (tpl : string) (d : Z)
  : outcome string :=
  let emit (s : string) (o : outcome string) :=
    match o with Ret r => Ret (s +:+ r) | Raise e => Raise e end in
  match field, tpl with
  | None, EmptyString => Ret EmptyString
  | None, String c r =>
      if Ascii.eqb c "{"%char then
        match r with
        | String c' r' =>
            if Ascii.eqb c' "{"%char then emit "{" (format_go None r' d)
            else format_go (Some EmptyString) r d
        | EmptyString => Raise (ValueError "Single '{' encountered in format string")
        end
      else if Ascii.eqb c "}"%char then
        match r with
        | String c' r' =>
            if Ascii.eqb c' "}"%char then emit "}" (format_go None r' d)
            else Raise (ValueError "Single '}' encountered in format string")
        | EmptyString => Raise (ValueError "Single '}' encountered in format string")
        end
      else emit (String c EmptyString) (format_go None r d)
  | Some f, EmptyString => Raise (ValueError "expected '}' before end of string")
  | Some f, String c r =>
      if Ascii.eqb c "}"%char then
        if String.eqb f "duration" then emit (pretty d) (format_go None r d)
        else Raise (KeyError f)
      else format_go (Some (f +:+ String c EmptyString)) r d
  end.

Definition str_format (tpl : string) (d : Z) : outcome string :=
  format_go None tpl d.

(** Lifts a computation that cannot touch the state. *)
Definition lift_outcome {S A} (o : outcome A) : M S A := fun s => (o, s).

(** ** configuration.py: the constants the core reads *)

Module display_config.
Definition PHASE_COLORS : gmap string string :=
  {[ "breathing" := "cyan"; "hold" := "yellow"; "countdown" := "red" ]}.
Definition PHASE_TITLES : gmap string string :=
  {[ "prepare" := "Prepare"; "hold" := "Hold breath";
     "breathe" := "Breathe {duration}s"; "final_hold" := "Final hold" ]}.
End display_config.

Module exercise_defaults.
Definition PREPARATION_INSTRUCTION : string := "Prepare".
Definition HOLD_INSTRUCTION : string := "Hold".
Definition BREATHING_INSTRUCTION : string := "Breathe".
Definition INTERRUPTION_MESSAGE : string :=
  String (Ascii.ascii_of_nat 10) "Exercise interrupted by user".
End exercise_defaults.

Module timing_config.
Definition LOOP_SLEEP_INTERVAL : Q := 1 # 10.
Definition TRANSITION_PAUSE : Q := 1.
End timing_config.

(** [d[key]] on a dict with string keys. *)
Definition dict_getitem {S} (d : gmap string string) (key : string) : M S string :=
  match d !! key with
  | Some v => ret v
  | None => raise (KeyError key)
  end.

(** ** models.py: ExerciseConfig *)

Module ExerciseConfig.

Record t : Type := mk {
  hold_duration : Z;
  step_durations : list Z;
  countdown_beep_threshold : Z;
  preparation_duration : Z;
  audio_enabled : bool;
  display_mode : DisplayMode
}.

(** The body of the loop over [enumerate(self.step_durations)]. *)
Definition validate_step (i duration : Z) : M t unit :=
  (if duration <=? 0 then
     raise (ValueError ("All step durations must be positive. Step "
                        +:+ pretty (i + 1) +:+ " has invalid duration: "
                        +:+ pretty duration))
   else ret tt) ;;
  (if duration >? 120 then
     raise (ValueError ("Step durations cannot exceed 120 seconds. Step "
                        +:+ pretty (i + 1) +:+ " has duration: "
                        +:+ pretty duration))
   else ret tt).

Definition validate : M t unit :=
  self <- get ;;
  (if hold_duration self <=? 0 then
     raise (ValueError ("Hold duration must be positive (got "
                        +:+ pretty (hold_duration self) +:+ ")"))
   else ret tt) ;;
  (if hold_duration self >? 300 then
     raise (ValueError ("Hold duration cannot exceed 300 seconds (got "
                        +:+ pretty (hold_duration self) +:+ ")"))
   else ret tt) ;;
  (match step_durations self with
   | [] => raise (ValueError
       "Step durations cannot be empty. Provide at least one breathing step duration.")
   | _ => ret tt
   end) ;;
  for_enumerate 0 (step_durations self) validate_step ;;
  (if countdown_beep_threshold self <? 0 then
     raise (ValueError ("Countdown beep threshold must be non-negative (got "
                        +:+ pretty (countdown_beep_threshold self) +:+ ")"))
   else ret tt) ;;
  (if preparation_duration self <? 0 then
     raise (ValueError ("Preparation duration must be non-negative (got "
                        +:+ pretty (preparation_duration self) +:+ ")"))
   else ret tt).

(** The dataclass constructor followed by [__post_init__]: the object
    exists only if [validate] returns. *)
Definition new (hold : Z) (steps : list Z) (countdown prep : Z)
    (audio : bool) (mode : DisplayMode) : outcome t :=
  let self := mk hold steps countdown prep audio mode in
  match fst (validate self) with
  | Ret _ => Ret self
  | Raise e => Raise e
  end.

(** [ExerciseConfig()] with the field defaults. *)
Definition default : t := mk 60 [30; 20; 10] 5 0 true TUI.

(** The bounds as the specification words them. *)
Definition in_bounds (c : t) : Prop :=
  1 <= hold_duration c <= 300
  /\ step_durations c <> []
  /\ Forall (fun d => 1 <= d <= 120) (step_durations c)
  /\ 0 <= countdown_beep_threshold c
  /\ 0 <= preparation_duration c.

End ExerciseConfig.

(** ** The monotonic clock

    [now] is the time of the latest clock event and [reads] counts the
    events so far.  [lag k] is the time that passes, beyond what the program
    asks for, at the [k]-th event: a reading of [time.monotonic()] takes
    [lag k], a [time.sleep(d)] takes [d + lag k].  Nothing is assumed of
    [lag] here; a clock that never runs backward has [0 <= lag k]. *)

Record Clock : Type := mkClock {
  now : Q;
  reads : nat;
  lag : nat -> Q
}.

Definition clock_after (d : Q) (c : Clock) : Clock :=
  mkClock (now c + d + lag c (reads c)) (S (reads c)) (lag c).

(** [time.monotonic()] for a method whose state is its object together with
    the clock. *)
Definition time_monotonic {S} : M (S * Clock) Q :=
  fun '(s, c) => let c' := clock_after 0 c in (Ret (now c'), (s, c')).

(** The reading the next call of [time.monotonic()] returns. *)
Definition next_reading (c : Clock) : Q := now (clock_after 0 c).

(** Runs a method of the object alone where the clock is in scope too. *)
Definition on_self {S A} (m : M S A) : M (S * Clock) A :=
  fun '(s, c) => let '(o, s') := m s in (o, (s', c)).

(** ** timer.py: Timer *)

Module Timer.

Record t : Type := mk {
  duration : Q;
  countdown_threshold : Q;
  _start_time : option Q;
  _is_running : bool
}.

(** [__init__]. *)
Definition new (duration countdown_threshold : Q) : outcome t :=
  if Qle_bool duration 0 then Raise (ValueError "Duration must be positive")
  else if Qlt_bool countdown_threshold 0
  then Raise (ValueError "Countdown threshold must be non-negative")
  else Ret (mk duration countdown_threshold None false).

Definition set_start (st : option Q) (running : bool) (self : t) : t :=
  mk (duration self) (countdown_threshold self) st running.

Definition start : M (t * Clock) unit :=
  self <- gets fst ;;
  if _is_running self then raise (RuntimeError "Timer is already running")
  else
    t0 <- time_monotonic ;;
    on_self (modify (set_start (Some t0) true)).

Definition reset : M (t * Clock) unit :=
  on_self (modify (set_start None false)).

Definition is_running : M (t * Clock) bool :=
  self <- gets fst ;; ret (_is_running self).

Definition elapsed : M (t * Clock) Q :=
  self <- gets fst ;;
  match _start_time self with
  | None => ret 0%Q
  | Some t0 => t1 <- time_monotonic ;; ret (t1 - t0)%Q
  end.

Definition is_expired : M (t * Clock) bool :=
  self <- gets fst ;;
  if negb (_is_running self) then ret false
  else e <- elapsed ;; ret (Qle_bool (duration self) e).

Definition is_complete : M (t * Clock) bool := is_expired.

Definition remaining_time : M (t * Clock) Q :=
  self <- gets fst ;;
  if negb (_is_running self) then ret (duration self)
  else
    e <- elapsed ;;
    let remaining := (duration self - e)%Q in
    ret (py_max 0 remaining).

Definition in_countdown : M (t * Clock) bool :=
  self <- gets fst ;;
  if negb (_is_running self) then ret false
  else if Qeq_bool (countdown_threshold self) 0 then ret false
  else
    r <- remaining_time ;;
    ret (Qlt_bool 0 r && Qle_bool r (countdown_threshold self)).

End Timer.

(** ** exercise.py: Exercise *)

Module Exercise.

Record t : Type := mk {
  config : ExerciseConfig.t;
  phases : list Phase.t;
  current_phase_index : option nat;
  timer : option Timer.t;
  _started : bool;
  _completed : bool
}.

Definition set_phases (ps : list Phase.t) (self : t) : t :=
  mk (config self) ps (current_phase_index self) (timer self)
     (_started self) (_completed self).
Definition set_current_phase_index (i : option nat) (self : t) : t :=
  mk (config self) (phases self) i (timer self) (_started self) (_completed self).
Definition set_timer (tm : option Timer.t) (self : t) : t :=
  mk (config self) (phases self) (current_phase_index self) tm
     (_started self) (_completed self).
Definition set_started (b : bool) (self : t) : t :=
  mk (config self) (phases self) (current_phase_index self) (timer self)
     b (_completed self).
Definition set_completed (b : bool) (self : t) : t :=
  mk (config self) (phases self) (current_phase_index self) (timer self)
     (_started self) b.

(** [__init__]: [config or ExerciseConfig()]. *)
Definition new (config : option ExerciseConfig.t) : t :=
  mk (default ExerciseConfig.default config) [] None None false false.

(** [self.phases[i].m()]: the method [m] runs on the phase object stored at
    position [i], which it mutates in place. *)
Definition on_phase {A} (i : nat) (m : M Phase.t A) : M t A :=
  fun self =>
    match phases self !! i with
    | None => (Raise (IndexError "list index out of range"), self)
    | Some p => let '(o, p') := m p in (o, set_phases (<[i := p']> (phases self)) self)
    end.

(** [self.timer.m()] on a timer that is not [None]. *)
Definition on_timer {A} (tm : Timer.t) (m : M (Timer.t * Clock) A)
  : M (t * Clock) A :=
  fun '(self, c) =>
    let '(o, (tm', c')) := m (tm, c) in (o, (set_timer (Some tm') self, c')).

(** The loop [for i, breathing_duration in enumerate(step_durations)] of
    [_generate_phases], appending to the local list [phases]. *)
Fixpoint _generate_steps (cfg : ExerciseConfig.t) (l : list Z)
    (phases : list Phase.t) : M t (list Phase.t) :=
  match l with
  | [] => ret phases
  | breathing_duration :: l' =>
      instruction <-
        lift_outcome (str_format exercise_defaults.BREATHING_INSTRUCTION
                                 breathing_duration) ;;
      color <- dict_getitem display_config.PHASE_COLORS "breathing" ;;
      let breathing_phase :=
        Phase.new BREATHING breathing_duration instruction color in
      let phases := phases ++ [breathing_phase] in
      color <- dict_getitem display_config.PHASE_COLORS "hold" ;;
      let hold_phase :=
        Phase.new HOLD (ExerciseConfig.hold_duration cfg)
                  exercise_defaults.HOLD_INSTRUCTION color in
      let phases := phases ++ [hold_phase] in
      _generate_steps cfg l' phases
  end.

Definition _generate_phases : M t unit :=
  self <- get ;;
  let cfg := config self in
  let phases : list Phase.t := [] in
  phases <-
    (if ExerciseConfig.preparation_duration cfg >? 0 then
       let prep_phase :=
         Phase.new BREATHING (ExerciseConfig.preparation_duration cfg)
                   exercise_defaults.PREPARATION_INSTRUCTION "blue" in
       ret (phases ++ [prep_phase])
     else ret phases) ;;
  phases <- _generate_steps cfg (ExerciseConfig.step_durations cfg) phases ;;
  let complete_phase := Phase.new BREATHING 1 "Complete" "blue" in
  let phases := phases ++ [complete_phase] in
  modify (set_phases phases).

(** The sequence the specification describes, with the label of a
    breathing step left as a parameter: a leading "Prepare" phase when the
    preparation duration is positive, a breathing phase and a hold phase
    per step, and the trailing "Complete" phase. *)
Definition described_phases (label : Z -> string) (cfg : ExerciseConfig.t)
  : list Phase.t :=
  (if ExerciseConfig.preparation_duration cfg >? 0
   then [Phase.new BREATHING (ExerciseConfig.preparation_duration cfg) "Prepare" "blue"]
   else [])
  ++ flat_map (fun d => [Phase.new BREATHING d (label d) "cyan";
                         Phase.new HOLD (ExerciseConfig.hold_duration cfg) "Hold" "yellow"])
       (ExerciseConfig.step_durations cfg)
  ++ [Phase.new BREATHING 1 "Complete" "blue"].

(** The label the specification gives a breathing step of [d] seconds. *)
Definition label_with_seconds (d : Z) : string := "Breathe " +:+ pretty d +:+ "s".

(** The label the code gives it. *)
Definition label_plain (d : Z) : string := "Breathe".

(** [self.timer = Timer(duration=p.duration, countdown_threshold=
    self.config.countdown_beep_threshold)] then [self.timer.start()], as
    both [start] and [advance_phase] do for the phase [p] they entered. *)
Definition install_timer (p : Phase.t) : M (t * Clock) unit :=
  self <- gets fst ;;
  tm <- lift_outcome
          (Timer.new (inject_Z (Phase.duration p))
             (inject_Z (ExerciseConfig.countdown_beep_threshold (config self)))) ;;
  on_self (modify (set_timer (Some tm))) ;;
  on_timer tm Timer.start.

Definition start : M (t * Clock) unit :=
  self <- gets fst ;;
  (if _started self && negb (_completed self)
   then raise (RuntimeError "Exercise already started") else ret tt) ;;
  (if _completed self
   then raise (RuntimeError "Exercise already completed. Call reset() to start again")
   else ret tt) ;;
  on_self _generate_phases ;;
  on_self (modify (set_started true)) ;;
  on_self (modify (set_completed false)) ;;
  on_self (modify (set_current_phase_index (Some 0%nat))) ;;
  self <- gets fst ;;
  match phases self !! 0%nat with
  | None => raise (IndexError "list index out of range")
  | Some current_phase =>
      on_self (on_phase 0 Phase.start) ;;
      install_timer current_phase
  end.

Definition advance_phase : M (t * Clock) bool :=
  self <- gets fst ;;
  if negb (_started self) then raise (RuntimeError "Exercise not started")
  else if _completed self then ret false
  else
    not_expired <-
      match timer self with
      | None => ret false
      | Some tm => b <- on_timer tm Timer.is_expired ;; ret (negb b)
      end ;;
    if (not_expired : bool) then raise (RuntimeError "Current phase not complete")
    else
      match current_phase_index self with
      | Some i => on_self (on_phase i Phase.complete)
      | None => ret tt
      end ;;
      self <- gets fst ;;
      match current_phase_index self with
      | Some i =>
          if (Z.of_nat i <? Z.of_nat (length (phases self)) - 1)
          then
            on_self (modify (set_current_phase_index (Some (i + 1)%nat))) ;;
            match phases self !! (i + 1)%nat with
            | None => raise (IndexError "list index out of range")
            | Some next_phase =>
                on_self (on_phase (i + 1) Phase.start) ;;
                install_timer next_phase ;;
                ret true
            end
          else
            on_self (modify (set_completed true)) ;;
            on_self (modify (set_current_phase_index None)) ;;
            ret false
      | None =>
          on_self (modify (set_completed true)) ;;
          on_self (modify (set_current_phase_index None)) ;;
          ret false
      end.

(** Returns the phase object; its position in [phases] identifies it. *)
Definition get_current_phase : M t (option Phase.t) :=
  self <- get ;;
  if negb (_started self) || _completed self then ret None
  else
    match current_phase_index self with
    | Some i =>
        match phases self !! i with
        | Some p => ret (Some p)
        | None => raise (IndexError "list index out of range")
        end
    | None => ret None
    end.

Definition is_complete : M t bool := gets _completed.

Definition reset : M t unit :=
  modify (set_phases []) ;;
  modify (set_current_phase_index None) ;;
  modify (set_timer None) ;;
  modify (set_started false) ;;
  modify (set_completed false).

Definition get_phases : M t (list Phase.t) := gets phases.

End Exercise.

(** ** core.py: run_exercise *)

(** The calls made on the [Display] object.  [EvBeep] records, besides the
    [sound_type] passed to [display.beep], the values of
    [exercise.current_phase_index] and [remaining] in the tick that made the
    call, so that cues can be counted per phase and per second. *)
Inductive Event : Type :=
| EvStartLive
| EvStopLive
| EvShowCountdown (seconds : Z) (phase : Phase.t) (phase_index : option nat)
| EvBeep (sound_type : string) (phase_index : option nat) (remaining : Z)
| EvShowPhaseTransition (from_phase to_phase : Phase.t)
| EvShowInstruction (instruction color : string)
| EvShowError (error : string)
| EvInput.

Record World : Type := mkWorld {
  exercise : Exercise.t;
  clock : Clock;
  display : list Event
}.

(** A method of the exercise, run on the exercise of the world. *)
Definition on_exercise {A} (m : M (Exercise.t * Clock) A) : M World A :=
  fun w =>
    let '(o, (e, c)) := m (exercise w, clock w) in (o, mkWorld e c (display w)).

(** A call on the display: appended to the log. *)
Definition emit (ev : Event) : M World unit :=
  modify (fun w => mkWorld (exercise w) (clock w) (display w ++ [ev])).

(** [time.sleep(d)]. *)
Definition sleep (d : Q) : M World unit :=
  modify (fun w => mkWorld (exercise w) (clock_after d (clock w)) (display w)).

(** The local variables that live across iterations of the main loop. *)
Record Locals : Type := mkLocals {
  last_second : Z;
  countdown_beeps_played : gset Z
}.

Inductive loop_ctl : Type :=
| Break
| Continue (l : Locals).

(** The three blocks of the body of [while not exercise.is_complete()], in
    the order of the source.  [phase] and [timer] alias the objects held by
    the exercise: the phase is addressed by its position [i], the timer
    through the exercise. *)

(** "Check for countdown transition". *)
Definition check_countdown (i : nat) (timer : Timer.t) : M World unit :=
  in_cd <- on_exercise (Exercise.on_timer timer Timer.in_countdown) ;;
  in_pr <- (if (in_cd : bool)
            then on_exercise (on_self (Exercise.on_phase i (gets Phase.is_in_progress)))
            else ret false) ;;
  if (in_pr : bool)
  then on_exercise (on_self (Exercise.on_phase i Phase.enter_countdown))
  else ret tt.

(** "Update display only when second changes", with the two cues. *)
Definition update_display (config : ExerciseConfig.t) (i : nat) (timer : Timer.t)
    (l : Locals) : M World Locals :=
  r <- on_exercise (Exercise.on_timer timer Timer.remaining_time) ;;
  let remaining := py_int r in
  if negb (bool_decide (remaining = last_second l)) then
    phase <- on_exercise (on_self (Exercise.on_phase i get)) ;;
    idx <- gets (fun w => Exercise.current_phase_index (exercise w)) ;;
    emit (EvShowCountdown remaining phase idx) ;;
    played <-
      (if ExerciseConfig.audio_enabled config
          && ((1 <=? remaining)
              && (remaining <=? ExerciseConfig.countdown_beep_threshold config))
          && negb (bool_decide (remaining ∈ countdown_beeps_played l))
       then emit (EvBeep "countdown" idx remaining) ;;
            ret ({[remaining]} ∪ countdown_beeps_played l)
       else ret (countdown_beeps_played l)) ;;
    let is_complete_phase := String.eqb (Phase.instruction phase) "Complete" in
    played <-
      (if ExerciseConfig.audio_enabled config
          && (remaining =? 0)
          && negb (bool_decide (0 ∈ (played : gset Z)))
          && negb is_complete_phase
       then emit (EvBeep "transition" idx remaining) ;;
            ret ({[0]} ∪ played)
       else ret played) ;;
    ret (mkLocals remaining played)
  else ret l.

(** "Check if phase is complete", then the sleep that ends the iteration. *)
Definition check_expired (config : ExerciseConfig.t) (i : nat) (timer : Timer.t)
    (l : Locals) : M World loop_ctl :=
  expired <- on_exercise (Exercise.on_timer timer Timer.is_expired) ;;
  ctl <-
    (if (expired : bool) then
       advanced <- on_exercise Exercise.advance_phase ;;
       if negb advanced then ret Break
       else
         let l := mkLocals (-1) ∅ in
         next_phase <- on_exercise (on_self Exercise.get_current_phase) ;;
         match next_phase with
         | Some next_phase =>
             phase <- on_exercise (on_self (Exercise.on_phase i get)) ;;
             emit (EvShowPhaseTransition phase next_phase) ;;
             (if bool_decide (ExerciseConfig.display_mode config = PLAIN)
              then sleep timing_config.TRANSITION_PAUSE else ret tt)
         | None => ret tt
         end ;;
         ret (Continue l)
     else ret (Continue l)) ;;
  match ctl with
  | Break => ret Break
  | Continue l => sleep timing_config.LOOP_SLEEP_INTERVAL ;; ret (Continue l)
  end.

(** One iteration. *)
Definition loop_body (config : ExerciseConfig.t) (l : Locals) : M World loop_ctl :=
  phase <- on_exercise (on_self Exercise.get_current_phase) ;;
  timer <- gets (fun w => Exercise.timer (exercise w)) ;;
  i <- gets (fun w => Exercise.current_phase_index (exercise w)) ;;
  match phase, timer, i with
  | Some _, Some timer, Some i =>
      check_countdown i timer ;;
      l <- update_display config i timer l ;;
      check_expired config i timer l
  | _, _, _ => ret Break
  end.

(** [while not exercise.is_complete(): body], run for at most [fuel]
    iterations.  [None] is returned when the fuel runs out with the loop
    still going. *)
Fixpoint main_loop (fuel : nat) (config : ExerciseConfig.t) (l : Locals)
  : M World (option unit) :=
  match fuel with
  | O => ret None
  | S fuel' =>
      complete <- on_exercise (on_self Exercise.is_complete) ;;
      if (complete : bool) then ret (Some tt)
      else
        ctl <- loop_body config l ;;
        match ctl with
        | Break => ret (Some tt)
        | Continue l' => main_loop fuel' config l'
        end
  end.

(** The body of the [try] block of [run_exercise]. *)
Definition run_exercise_try (fuel : nat) (config : ExerciseConfig.t)
  : M World (option bool) :=
  emit EvStartLive ;;
  let l := mkLocals (-1) ∅ in
  done <- main_loop fuel config l ;;
  match done with
  | None => ret None
  | Some _ =>
      complete <- on_exercise (on_self Exercise.is_complete) ;;
      (if negb complete then
         on_exercise Exercise.advance_phase ;;
         final_phase <- on_exercise (on_self Exercise.get_current_phase) ;;
         idx <- gets (fun w => Exercise.current_phase_index (exercise w)) ;;
         match final_phase, idx with
         | Some _, Some i =>
             on_exercise (on_self (Exercise.on_phase i Phase.start)) ;;
             final_phase <- on_exercise (on_self (Exercise.on_phase i get)) ;;
             emit (EvShowCountdown 0 final_phase idx) ;;
             sleep 1
         | _, _ => ret tt
         end
       else ret tt) ;;
      emit EvStopLive ;;
      emit EvInput ;;
      ret (Some true)
  end.

(** [run_exercise(config)] against a clock [c].  No interrupt signal is
    delivered: the [except KeyboardInterrupt] handler is not modelled.  The
    outcome is [Ret (Some b)] when the function returns [b], [Ret None] when
    the main loop is still running after [fuel] iterations, and [Raise e]
    when [exercise.start()], which is outside the [try], raises [e]. *)
Definition run_exercise (fuel : nat) (config : ExerciseConfig.t) (c : Clock)
  : outcome (option bool) * World :=
  let w := mkWorld (Exercise.new (Some config)) c [] in
  (on_exercise Exercise.start ;;
   catch (run_exercise_try fuel config)
         (fun e =>
            emit EvStopLive ;;
            emit (EvShowError (exn_str e)) ;;
            ret (Some false))) w.

(** ** Vocabulary for statements *)

(** The call [m] made in state [s] returns normally. *)
Definition succeeds {S A} (m : M S A) (s : S) : Prop :=
  exists a, fst (m s) = Ret a.

(** The call [m] made in state [s] raises. *)
Definition raises {S A} (m : M S A) (s : S) : Prop :=
  exists e, fst (m s) = Raise e.

(** ** States of an exercise that its interface can produce

    An exercise is built from a configuration that passed validation; its
    owner then calls [start], [advance_phase] and [reset] at arbitrary
    instants, and the render loop calls [enter_countdown] on the current
    phase.  Calls that raise are included: the exercise is then whatever the
    failed call left. *)
Inductive reachable : Exercise.t -> Prop :=
| reach_new (cfg : ExerciseConfig.t) :
    ExerciseConfig.in_bounds cfg -> reachable (Exercise.new (Some cfg))
| reach_start (e : Exercise.t) (c : Clock) :
    reachable e -> reachable (fst (snd (Exercise.start (e, c))))
| reach_advance (e : Exercise.t) (c : Clock) :
    reachable e -> reachable (fst (snd (Exercise.advance_phase (e, c))))
| reach_countdown (e : Exercise.t) (i : nat) :
    reachable e -> Exercise.current_phase_index e = Some i ->
    reachable (snd (Exercise.on_phase i Phase.enter_countdown e))
| reach_reset (e : Exercise.t) :
    reachable e -> reachable (snd (Exercise.reset e)).

(** The phases with their states put back to [NOT_STARTED]. *)
Definition erase (ps : list Phase.t) : list Phase.t :=
  map (Phase.set_state NOT_STARTED) ps.

(** The states of the phases around a cursor at [i]: completed before it,
    in progress or in countdown at it, not started after it. *)
Definition states_around (i : nat) (ps : list Phase.t) : Prop :=
  forall (j : nat) (p : Phase.t), ps !! j = Some p ->
    ((j < i)%nat -> Phase._state p = COMPLETED)
    /\ (j = i -> Phase._state p = IN_PROGRESS \/ Phase._state p = COUNTDOWN)
    /\ ((i < j)%nat -> Phase._state p = NOT_STARTED).

(** The timer the exercise installs for phase [p], started at [t0]. *)
Definition timer_for (cfg : ExerciseConfig.t) (p : Phase.t) (t0 : Q) : Timer.t :=
  Timer.mk (inject_Z (Phase.duration p))
           (inject_Z (ExerciseConfig.countdown_beep_threshold cfg))
           (Some t0) true.

(** What [is_expired()] answers at the next reading of clock [c] for the
    timer of phase [p] started at [t0]. *)
Definition expired_at (p : Phase.t) (t0 : Q) (c : Clock) : bool :=
  Qle_bool (inject_Z (Phase.duration p)) (next_reading c - t0).

Definition fresh (e : Exercise.t) : Prop :=
  Exercise._started e = false /\ Exercise._completed e = false
  /\ Exercise.phases e = [] /\ Exercise.current_phase_index e = None
  /\ Exercise.timer e = None.

(** The exercise is at phase [i], whose timer was started at [t0]. *)
Definition running_at (i : nat) (t0 : Q) (e : Exercise.t) : Prop :=
  Exercise._started e = true /\ Exercise._completed e = false
  /\ Exercise.current_phase_index e = Some i
  /\ erase (Exercise.phases e)
     = Exercise.described_phases Exercise.label_plain (Exercise.config e)
  /\ states_around i (Exercise.phases e)
  /\ exists p : Phase.t,
       Exercise.phases e !! i = Some p
       /\ Exercise.timer e = Some (timer_for (Exercise.config e) p t0).

Definition finished (e : Exercise.t) : Prop :=
  Exercise._started e = true /\ Exercise._completed e = true
  /\ Exercise.current_phase_index e = None
  /\ erase (Exercise.phases e)
     = Exercise.described_phases Exercise.label_plain (Exercise.config e)
  /\ Forall (fun p => Phase._state p = COMPLETED) (Exercise.phases e)
  /\ exists tm, Exercise.timer e = Some tm.

Definition consistent (e : Exercise.t) : Prop :=
  ExerciseConfig.in_bounds (Exercise.config e)
  /\ (fresh e \/ (exists i t0, running_at i t0 e) \/ finished e).

(** ** Vocabulary for the render loop *)

(** A clock that never runs backward. *)
Definition steady (c : Clock) : Prop := forall n : nat, (0 <= lag c n)%Q.

(** Clock [c'] is clock [c] some events later. *)
Definition later (c c' : Clock) : Prop :=
  lag c' = lag c /\ (steady c -> (now c <= now c')%Q).

(** The cues in a display log: sound type, phase index, remaining seconds. *)
Definition cue_of (ev : Event) : option (string * option nat * Z) :=
  match ev with
  | EvBeep k idx r => Some (k, idx, r)
  | _ => None
  end.

Definition cues (log : list Event) : list (string * option nat * Z) :=
  omap cue_of log.

(** What the loop requires of a cue it makes at phase [i]. *)
Definition cue_allowed (config : ExerciseConfig.t) (cue : string * option nat * Z)
  : Prop :=
  let '(k, idx, r) := cue in
  ExerciseConfig.audio_enabled config = true
  /\ exists (i : nat) (p : Phase.t),
      idx = Some i
      /\ Exercise.described_phases Exercise.label_plain config !! i = Some p
      /\ ((k = "countdown"
           /\ 1 <= r <= ExerciseConfig.countdown_beep_threshold config)
          \/ (k = "transition" /\ r = 0 /\ Phase.instruction p <> "Complete")).

(** The events [evs] of one tick at phase [i], entered with locals [l] and
    left with [l']: the cues are distinct, allowed, made for seconds not
    yet consumed, and consumed afterwards. *)
Definition tick_cues (config : ExerciseConfig.t) (i : nat) (l l' : Locals)
    (evs : list Event) : Prop :=
  NoDup (cues evs)
  /\ countdown_beeps_played l ⊆ countdown_beeps_played l'
  /\ forall k idx r, (k, idx, r) ∈ cues evs ->
       cue_allowed config (k, idx, r) /\ idx = Some i
       /\ (r ∉ countdown_beeps_played l) /\ (r ∈ countdown_beeps_played l').

(** Every cue of the log is allowed and occurs once. *)
Definition cues_once (config : ExerciseConfig.t) (log : list Event) : Prop :=
  NoDup (cues log) /\ forall cue, cue ∈ cues log -> cue_allowed config cue.

(** The same while the loop is at phase [i] with locals [l]: a cue of the
    log was made for an earlier phase, or for phase [i] and a second that
    [l] records as consumed. *)
Definition cues_upto (config : ExerciseConfig.t) (i : nat) (l : Locals)
    (log : list Event) : Prop :=
  NoDup (cues log)
  /\ forall k idx r, (k, idx, r) ∈ cues log ->
       cue_allowed config (k, idx, r)
       /\ exists j : nat,
           idx = Some j
           /\ ((j < i)%nat \/ (j = i /\ r ∈ countdown_beeps_played l)).

(** Iterations that suffice to run through the phases [ps]: ten per second
    of duration and one for the expiry. *)
Definition budget (ps : list Phase.t) : Z :=
  foldr (fun p acc => 10 * Phase.duration p + 1 + acc) 0 ps.

(** The effect of one iteration of the main loop entered at phase [i], timer
    started at [t0], locals [l], world [w], with events [evs] displayed. *)
Inductive tick_step (config : ExerciseConfig.t) (i : nat) (t0 : Q) (l : Locals)
    (w : World) (evs : list Event) : outcome loop_ctl -> World -> Prop :=
| step_same (l' : Locals) (w' : World) :
    running_at i t0 (exercise w') ->
    tick_cues config i l l' evs ->
    (steady (clock w) -> (now (clock w) + (1 # 10) <= now (clock w'))%Q) ->
    (steady (clock w) ->
     forall p, Exercise.phases (exercise w) !! i = Some p ->
               (now (clock w) - t0 < inject_Z (Phase.duration p))%Q) ->
    tick_step config i t0 l w evs (Ret (Continue l')) w'
| step_next (l1 : Locals) (t0' : Q) (w' : World) :
    running_at (i + 1) t0' (exercise w') ->
    tick_cues config i l l1 evs ->
    (steady (clock w) -> (t0' + (1 # 10) <= now (clock w'))%Q) ->
    tick_step config i t0 l w evs (Ret (Continue (mkLocals (-1) ∅))) w'
| step_finish (l1 : Locals) (w' : World) :
    finished (exercise w') ->
    tick_cues config i l l1 evs ->
    tick_step config i t0 l w evs (Ret Break) w'
| step_raise (l1 : Locals) (e : exn) (w' : World) :
    ~ steady (clock w) ->
    tick_cues config i l l1 evs ->
    tick_step config i t0 l w evs (Raise e) w'.

(** ** core.py: validate_config *)

(** [try: config.validate() ... except ValueError as e: ...]: only a
    [ValueError] is caught. *)
Definition validate_config (config : ExerciseConfig.t)
  : outcome (bool * option string) :=
  match fst (ExerciseConfig.validate config) with
  | Ret _ => Ret (true, None)
  | Raise (ValueError m) => Ret (false, Some m)
  | Raise e => Raise e
  end.

(** ** More vocabulary *)


(** The events of the main loop: frames, cues and transition notices. *)
Definition frame_event (ev : Event) : Prop :=
  match ev with
  | EvShowCountdown _ _ _ | EvBeep _ _ _ | EvShowPhaseTransition _ _ => True
  | _ => False
  end.

(** Seconds of the phases [ps] taken together. *)
Definition total_duration (ps : list Phase.t) : Z :=
  foldr (fun p acc => Phase.duration p + acc) 0 ps.


(** ** Python strings

    A Python string is modelled by a Rocq [string] whose characters stand
    for the code points below 256; text with other code points is outside
    the model. *)

Definition APOSTROPHE : ascii := Ascii.ascii_of_nat 39.
Definition QUOTATION : ascii := Ascii.ascii_of_nat 34.
Definition BACKSLASH : ascii := Ascii.ascii_of_nat 92.

(** The characters [str.strip()] removes: those with [str.isspace()]. *)
Definition py_isspace (a : ascii) : bool :=
  let n := nat_of_ascii a in
  ((9 <=? n) && (n <=? 13) || (28 <=? n) && (n <=? 32)
   || (n =? 133) || (n =? 160))%nat.

Fixpoint py_lstrip (s : string) : string :=
  match s with
  | EmptyString => EmptyString
  | String a r => if py_isspace a then py_lstrip r else s
  end.

Fixpoint py_rstrip (s : string) : string :=
  match s with
  | EmptyString => EmptyString
  | String a r =>
      match py_rstrip r with
      | EmptyString => if py_isspace a then EmptyString else String a EmptyString
      | r' => String a r'
      end
  end.

(** [s.strip()]. *)
Definition py_strip (s : string) : string := py_rstrip (py_lstrip s).

(** [s.split(",")]: the pieces between commas, at least one. *)
Fixpoint py_split_comma (s : string) : list string :=
  match s with
  | EmptyString => [EmptyString]
  | String a r =>
      if Ascii.eqb a ","%char then EmptyString :: py_split_comma r
      else match py_split_comma r with
           | part :: parts => String a part :: parts
           | [] => [String a EmptyString]
           end
  end.

(** [s.lower()]. *)
Definition py_lower_char (a : ascii) : ascii :=
  let n := nat_of_ascii a in
  if ((65 <=? n) && (n <=? 90)
      || (192 <=? n) && (n <=? 222) && negb (n =? 215))%nat
  then Ascii.ascii_of_nat (n + 32) else a.

Fixpoint py_lower (s : string) : string :=
  match s with
  | EmptyString => EmptyString
  | String a r => String (py_lower_char a) (py_lower r)
  end.

(** [hay.startswith(needle)]. *)
Fixpoint py_startswith (needle hay : string) : bool :=
  match needle, hay with
  | EmptyString, _ => true
  | String _ _, EmptyString => false
  | String a needle', String b hay' => Ascii.eqb a b && py_startswith needle' hay'
  end.

(** [needle in hay] on strings. *)
Fixpoint py_in (needle hay : string) : bool :=
  py_startswith needle hay
  || match hay with
     | EmptyString => false
     | String _ r => py_in needle r
     end.

(** [repr(s)]: single quotes unless the text has an apostrophe and no
    double quote; the quote in use and the backslash are escaped, as are
    tab, newline, carriage return and every character that is not
    printable. *)
Definition py_isprintable (a : ascii) : bool :=
  let n := nat_of_ascii a in
  ((32 <=? n) && (n <=? 126) || (161 <=? n) && negb (n =? 173))%nat.

Definition hex_digit (n : nat) : ascii :=
  Ascii.ascii_of_nat (if (n <? 10)%nat then 48 + n else 87 + n).

Definition repr_char (quote a : ascii) : string :=
  if Ascii.eqb a quote || Ascii.eqb a BACKSLASH
  then String BACKSLASH (String a EmptyString)
  else if Ascii.eqb a (Ascii.ascii_of_nat 9) then String BACKSLASH "t"
  else if Ascii.eqb a (Ascii.ascii_of_nat 10) then String BACKSLASH "n"
  else if Ascii.eqb a (Ascii.ascii_of_nat 13) then String BACKSLASH "r"
  else if py_isprintable a then String a EmptyString
  else String BACKSLASH
         (String "x" (String (hex_digit (nat_of_ascii a / 16))
                        (String (hex_digit (nat_of_ascii a mod 16)) EmptyString))).

Fixpoint repr_body (quote : ascii) (s : string) : string :=
  match s with
  | EmptyString => EmptyString
  | String a r => repr_char quote a +:+ repr_body quote r
  end.

Definition py_repr (s : string) : string :=
  let quote :=
    if py_in (String APOSTROPHE EmptyString) s
       && negb (py_in (String QUOTATION EmptyString) s)
    then QUOTATION else APOSTROPHE in
  String quote (repr_body quote s +:+ String quote EmptyString).

(** [int(s)] on a string, base 10: blanks around the literal are dropped,
    then an optional sign and decimal digits, which single underscores may
    separate.  Anything else is a [ValueError] whose message shows the first
    200 characters of [repr(s)].  The interpreter's cap on the number of
    digits of a literal (4300 by default) is not modelled. *)
Definition int_isspace (a : ascii) : bool :=
  let n := nat_of_ascii a in
  ((9 <=? n) && (n <=? 13) || (n =? 32) || (n =? 133) || (n =? 160))%nat.

Fixpoint int_lstrip (s : string) : string :=
  match s with
  | EmptyString => EmptyString
  | String a r => if int_isspace a then int_lstrip r else s
  end.

Fixpoint int_rstrip (s : string) : string :=
  match s with
  | EmptyString => EmptyString
  | String a r =>
      match int_rstrip r with
      | EmptyString => if int_isspace a then EmptyString else String a EmptyString
      | r' => String a r'
      end
  end.

Definition digit_value (a : ascii) : option Z :=
  let n := nat_of_ascii a in
  if ((48 <=? n) && (n <=? 57))%nat then Some (Z.of_nat n - 48) else None.

(** The digits of a literal; [after_digit] tells whether the character
    just read was a digit, which an underscore and the end require. *)
Fixpoint int_digits (acc : Z) (after_digit : bool) (s : string) : option Z :=
  match s with
  | EmptyString => if after_digit then Some acc else None
  | String a r =>
      match digit_value a with
      | Some v => int_digits (10 * acc + v) true r
      | None =>
          if Ascii.eqb a "_"%char && after_digit then int_digits acc false r
          else None
      end
  end.

Definition py_int_str (s : string) : outcome Z :=
  let literal := int_rstrip (int_lstrip s) in
  let parsed :=
    match literal with
    | String a r =>
        if Ascii.eqb a "-"%char then option_map Z.opp (int_digits 0 false r)
        else if Ascii.eqb a "+"%char then int_digits 0 false r
        else int_digits 0 false literal
    | EmptyString => None
    end in
  match parsed with
  | Some n => Ret n
  | None =>
      Raise (ValueError ("invalid literal for int() with base 10: "
                         +:+ String.substring 0 200 (py_repr s)))
  end.

(** ** models.py: ExerciseConfig.from_cli_args *)

Definition STEPS_EMPTY_MARK : string := "Step durations cannot be empty".
Definition STEPS_FORMAT_MARK : string := "Invalid steps format".

(** The loop over [enumerate(parts)] inside the [try], appending to
    [step_durations]. *)
Fixpoint parse_parts (steps : string) (i : Z) (parts : list string)
    (step_durations : list Z) : outcome (list Z) :=
  match parts with
  | [] => Ret step_durations
  | part :: parts' =>
      let stripped := py_strip part in
      match stripped with
      | EmptyString =>
          Raise (ValueError
            ("Invalid steps format '" +:+ steps +:+ "'. Empty value at position "
             +:+ pretty (i + 1)
             +:+ ". Must be comma-separated positive integers (e.g., '30,20,10')"))
      | _ =>
          match py_int_str stripped with
          | Ret n => parse_parts steps (i + 1) parts' (step_durations ++ [n])
          | Raise e => Raise e
          end
      end
  end.

(** The classmethod [ExerciseConfig.from_cli_args].  The handler catches
    [ValueError] (an [AttributeError] cannot arise on a string), lets the
    errors through whose text carries one of the two marks, and replaces
    the others. *)
Definition from_cli_args (hold : Z) (steps : string) (countdown preparation : Z)
    (tui : bool) (audio : string) : outcome ExerciseConfig.t :=
  match steps, py_strip steps with
  | EmptyString, _ | _, EmptyString =>
      Raise (ValueError
        "Step durations cannot be empty. Provide at least one breathing step duration (e.g., '30,20,10')")
  | _, _ =>
      match parse_parts steps 0 (py_split_comma steps) [] with
      | Raise (ValueError msg) =>
          if py_in STEPS_FORMAT_MARK msg || py_in STEPS_EMPTY_MARK msg
          then Raise (ValueError msg)
          else Raise (ValueError
                 ("Invalid steps format '" +:+ steps
                  +:+ "'. Must be comma-separated positive integers (e.g., '30,20,10')"))
      | Raise e => Raise e
      | Ret step_durations =>
          let audio_enabled := String.eqb (py_lower audio) "beep" in
          let display_mode := if tui then TUI else PLAIN in
          ExerciseConfig.new hold step_durations countdown preparation
                             audio_enabled display_mode
      end
  end.

(** Every character of [s] satisfies [f]. *)
Fixpoint str_all (f : ascii -> bool) (s : string) : bool :=
  match s with
  | EmptyString => true
  | String a r => f a && str_all f r
  end.

Definition is_digit (a : ascii) : bool :=
  match digit_value a with Some _ => true | None => false end.



(** No reading of the clock comes a full second after the previous event. *)
Definition prompt (c : Clock) : Prop := forall n : nat, (lag c n < 1)%Q.


(** What the loop computes for the frame at clock reading [t]:
    [int(timer.remaining_time())] for the timer of [p] started at [t0]. *)
Definition seconds_left (p : Phase.t) (t0 t : Q) : Z :=
  py_int (py_max 0 (inject_Z (Phase.duration p) - (t - t0))).




(** Every event of the clock lags by a tenth of a second at most, and
    never runs backward. *)
Definition quick (c : Clock) : Prop :=
  forall n : nat, (0 <= lag c n)%Q /\ (lag c n <= 1 # 10)%Q.

(** The seconds at the start of a phase for which the loop may not see the
    countdown: the second in which the phase starts and, in plain mode, the
    second of the transition pause. *)
Definition slack (cfg : ExerciseConfig.t) : Z :=
  if bool_decide (ExerciseConfig.display_mode cfg = PLAIN) then 2 else 1.

(** What the locals and the log record of the countdown of phase [i],
    whose timer of phase [q] was started at [t0]: nothing yet, early in the
    phase; or a last second shown that is at most one ahead of the clock,
    with every second consumed or cued no smaller than it, and every
    second from it up cued. *)
Definition cue_inv (cfg : ExerciseConfig.t) (i : nat) (q : Phase.t) (t0 : Q)
    (l : Locals) (w : World) : Prop :=
  (last_second l = -1 ->
   countdown_beeps_played l = ∅
   /\ Phase.duration q - slack cfg
      <= seconds_left q t0 (now (clock w) + (2 # 10)))
  /\ (last_second l <> -1 ->
      seconds_left q t0 (now (clock w)) <= last_second l
      /\ last_second l - 1 <= seconds_left q t0 (now (clock w) + (2 # 10)))
  /\ (forall x, x ∈ countdown_beeps_played l ->
                last_second l <> -1 /\ last_second l <= x)
  /\ (forall r, 1 <= r <= ExerciseConfig.countdown_beep_threshold cfg ->
                r + slack cfg <= Phase.duration q ->
                last_second l <> -1 -> last_second l <= r ->
                ("countdown"%string, Some i, r) ∈ cues (display w)).

(** ** display.py: the countdown line of the plain mode *)

(** [f"{n:02d}"]: the decimal text of [n], with zeros in front up to a
    width of two. *)
Definition format_02d (n : Z) : string :=
  let s := pretty n in
  if (String.length s <? 2)%nat then ("0" +:+ s)%string else s.

(** [Display._show_plain_countdown(seconds, phase)]: the text it writes to
    the standard output, where the carriage return takes the cursor back to
    the start of the line. *)
Definition _show_plain_countdown (seconds : Z) (phase : option Phase.t) : string :=
  let minutes := seconds / 60 in
  let secs := seconds mod 60 in
  let instruction :=
    match phase with
    | Some p => Phase.instruction p
    | None => "Breathwork Exercise"%string
    end in
  String (Ascii.ascii_of_nat 13)
    (instruction +:+ ": " +:+ format_02d minutes +:+ ":" +:+ format_02d secs
     +:+ "    ").

(** [format_02d] on [k] has width two and reads back as [k]. *)
Definition two_digits_ok (k : nat) : bool :=
  (String.length (format_02d (Z.of_nat k)) =? 2)%nat
  && match py_int_str (format_02d (Z.of_nat k)) with
     | Ret v => v =? Z.of_nat k
     | Raise _ => false
     end.

(** * Properties *)

Ltac unfold_monad :=
  cbv beta iota zeta delta
    [bind ret raise get put gets modify catch lift_outcome on_self
     time_monotonic] in *.

(** ** Phase lifecycle *)

Section PhaseLifecycle.

Import Phase.

Lemma start_spec (p : Phase.t) :
  match _state p with
  | NOT_STARTED => start p = (Ret tt, set_state IN_PROGRESS p)
  | s => start p =
         (Raise (RuntimeError ("Cannot start phase in state " +:+ PhaseState_str s)), p)
  end.
Proof. unfold start. unfold_monad. destruct (_state p); reflexivity. Qed.

Lemma enter_countdown_spec (p : Phase.t) :
  match _state p with
  | IN_PROGRESS => enter_countdown p = (Ret tt, set_state COUNTDOWN p)
  | s => enter_countdown p =
         (Raise (RuntimeError ("Cannot enter countdown from state " +:+ PhaseState_str s)), p)
  end.
Proof. unfold enter_countdown. unfold_monad. destruct (_state p); reflexivity. Qed.

Lemma complete_spec (p : Phase.t) :
  match _state p with
  | IN_PROGRESS | COUNTDOWN => complete p = (Ret tt, set_state COMPLETED p)
  | s => complete p =
         (Raise (RuntimeError ("Cannot complete phase in state " +:+ PhaseState_str s)), p)
  end.
Proof. unfold complete. unfold_monad. destruct (_state p); reflexivity. Qed.

(** A call either fails and changes nothing, or follows an edge. *)
Lemma invoke_step (c : call) (p : Phase.t) :
  (raises (invoke c) p /\ snd (invoke c p) = p)
  \/ (succeeds (invoke c) p /\ edge (_state p) (_state (snd (invoke c p)))).
Proof.
  pose proof (start_spec p) as Hs.
  pose proof (enter_countdown_spec p) as He.
  pose proof (complete_spec p) as Hc.
  unfold succeeds, raises.
  destruct c; simpl; destruct (_state p) eqn:E;
    first [ rewrite Hs | rewrite He | rewrite Hc ]; simpl;
    try (left; split; [eexists; reflexivity | reflexivity]);
    right; (split; [eexists; reflexivity | constructor]).
Qed.

Lemma edge_rank (s s' : PhaseState) : edge s s' -> (rank s < rank s')%nat.
Proof. destruct 1; simpl; lia. Qed.

Lemma invoke_rank (c : call) (p : Phase.t) :
  (rank (_state p) <= rank (_state (snd (invoke c p))))%nat.
Proof.
  destruct (invoke_step c p) as [[_ ->]|[_ H]]; [lia|].
  apply edge_rank in H. lia.
Qed.

Lemma squash_run_calls (cs : list call) (p : Phase.t) :
  exists path, path ∈ futures (_state p)
               /\ squash (_state p) (run_calls cs p) `prefix_of` path.
Proof.
  revert p. induction cs as [|c cs IH]; intros p.
  - simpl. destruct (_state p); simpl; eexists; (split; [left|apply prefix_nil]).
  - cbn [run_calls squash]. specialize (IH (snd (invoke c p))).
    destruct (invoke_step c p) as [[_ Hp]|[_ Hp]].
    + rewrite Hp in *. rewrite bool_decide_eq_true_2 by reflexivity. exact IH.
    + destruct IH as (path & Hin & Hpre).
      destruct Hp; simpl in Hin |- *; set_unfold;
        (destruct Hin as [->|Hin]; [|try destruct Hin as [->|[]]]);
        eexists; (split; [|apply prefix_cons; exact Hpre]); eauto.
Qed.

End PhaseLifecycle.

(** C3. For every phase: [start()] succeeds exactly from [NOT_STARTED] and
    leads to [IN_PROGRESS]; [enter_countdown()] succeeds exactly from
    [IN_PROGRESS] and leads to [COUNTDOWN]; [complete()] succeeds exactly from
    [IN_PROGRESS] or [COUNTDOWN] and leads to [COMPLETED]; a call that does
    not succeed raises and leaves the phase as it was.  Hence no call lowers
    the rank of the state, and along any sequence of calls on a new phase the
    distinct states visited form a prefix of
    NOT_STARTED, IN_PROGRESS, COUNTDOWN, COMPLETED or of
    NOT_STARTED, IN_PROGRESS, COMPLETED. *)
Theorem phase_lifecycle :
  (forall p : Phase.t,
      (succeeds Phase.start p <-> Phase._state p = NOT_STARTED)
      /\ (succeeds Phase.enter_countdown p <-> Phase._state p = IN_PROGRESS)
      /\ (succeeds Phase.complete p <->
          Phase._state p = IN_PROGRESS \/ Phase._state p = COUNTDOWN))
  /\ (forall p : Phase.t,
      (succeeds Phase.start p ->
       snd (Phase.start p) = Phase.set_state IN_PROGRESS p)
      /\ (succeeds Phase.enter_countdown p ->
          snd (Phase.enter_countdown p) = Phase.set_state COUNTDOWN p)
      /\ (succeeds Phase.complete p ->
          snd (Phase.complete p) = Phase.set_state COMPLETED p))
  /\ (forall (c : Phase.call) (p : Phase.t),
      ~ succeeds (Phase.invoke c) p ->
      raises (Phase.invoke c) p /\ snd (Phase.invoke c p) = p)
  /\ (forall (c : Phase.call) (p : Phase.t),
      (Phase.rank (Phase._state p)
       <= Phase.rank (Phase._state (snd (Phase.invoke c p))))%nat)
  /\ (forall (cs : list Phase.call) ty d instr col,
      let visited :=
        NOT_STARTED
        :: Phase.squash NOT_STARTED (Phase.run_calls cs (Phase.new ty d instr col)) in
      visited `prefix_of` [NOT_STARTED; IN_PROGRESS; COUNTDOWN; COMPLETED]
      \/ visited `prefix_of` [NOT_STARTED; IN_PROGRESS; COMPLETED]).
Proof.
  split; [|split; [|split; [|split]]].
  - intros p. pose proof (start_spec p) as Hs.
    pose proof (enter_countdown_spec p) as He.
    pose proof (complete_spec p) as Hc.
    unfold succeeds.
    destruct (Phase._state p); rewrite Hs, He, Hc; simpl;
      repeat split; intros; try discriminate; eauto;
        repeat match goal with
               | H : exists _, _ |- _ => destruct H
               | H : _ \/ _ |- _ => destruct H
               end; discriminate.
  - intros p. pose proof (start_spec p) as Hs.
    pose proof (enter_countdown_spec p) as He.
    pose proof (complete_spec p) as Hc.
    unfold succeeds.
    destruct (Phase._state p); rewrite Hs, He, Hc; simpl;
      repeat split; intros [a Ha]; try discriminate; reflexivity.
  - intros c p Hn. destruct (invoke_step c p) as [H|[H _]]; [exact H|contradiction].
  - apply invoke_rank.
  - intros cs ty d instr col visited. subst visited.
    destruct (squash_run_calls cs (Phase.new ty d instr col)) as (path & Hin & Hpre).
    simpl in Hin. set_unfold.
    destruct Hin as [->| [->|[]]]; [left|right]; apply prefix_cons; exact Hpre.
Qed.

(** ** Configuration validation *)

Section ConfigValidation.

Import ExerciseConfig.

Lemma validate_steps_ok (c : ExerciseConfig.t) (l : list Z) (i : Z) :
  Forall (fun d => 1 <= d <= 120) l ->
  for_enumerate i l validate_step c = (Ret tt, c).
Proof.
  intros H. revert i. induction H as [|d l Hd _ IH]; intros i; simpl.
  - reflexivity.
  - unfold bind at 1. unfold validate_step at 1. unfold_monad.
    destruct (Z.leb_spec d 0); [lia|].
    destruct (Z.gtb_spec d 120); [lia|]. apply IH.
Qed.

Lemma validate_steps_bad (c : ExerciseConfig.t) (l : list Z) (i : Z) :
  ~ Forall (fun d => 1 <= d <= 120) l ->
  exists msg, for_enumerate i l validate_step c = (Raise (ValueError msg), c).
Proof.
  revert i. induction l as [|d l IH]; intros i Hn.
  - destruct Hn. constructor.
  - simpl. unfold bind at 1. unfold validate_step at 1. unfold_monad.
    destruct (Z.leb_spec d 0); [eauto|].
    destruct (Z.gtb_spec d 120); [eauto|].
    apply IH. intros HF. apply Hn. constructor; [lia|exact HF].
Qed.

Lemma Forall_steps_dec (l : list Z) :
  Forall (fun d => 1 <= d <= 120) l \/ ~ Forall (fun d => 1 <= d <= 120) l.
Proof.
  destruct (decide (Forall (fun d => 1 <= d <= 120) l)); [left|right]; assumption.
Qed.

(** What [validate] does, bound by bound in the order the code checks. *)
Lemma validate_cases (c : ExerciseConfig.t) :
  snd (validate c) = c
  /\ (in_bounds c /\ fst (validate c) = Ret tt
      \/ ~ in_bounds c /\ exists msg, fst (validate c) = Raise (ValueError msg)).
Proof.
  unfold validate, in_bounds. unfold_monad.
  destruct (Z.leb_spec (hold_duration c) 0);
    [split; [reflexivity|right; split; [lia|eauto]]|].
  destruct (Z.gtb_spec (hold_duration c) 300);
    [split; [reflexivity|right; split; [lia|eauto]]|].
  destruct (step_durations c) as [|d l] eqn:El;
    [split; [reflexivity|right; split; [intuition congruence|eauto]]|].
  destruct (Forall_steps_dec (d :: l)) as [HF|HF].
  2:{ destruct (validate_steps_bad c (d :: l) 0 HF) as [msg ->].
      split; [reflexivity|right; split; [tauto|eauto]]. }
  rewrite (validate_steps_ok c (d :: l) 0 HF).
  destruct (Z.ltb_spec (countdown_beep_threshold c) 0);
    [split; [reflexivity|right; split; [lia|eauto]]|].
  destruct (Z.ltb_spec (preparation_duration c) 0);
    [split; [reflexivity|right; split; [lia|eauto]]|].
  split; [reflexivity|left]. repeat split; try lia; [discriminate|exact HF].
Qed.

End ConfigValidation.

(** C7. Validation, and so construction, succeeds exactly when the hold
    duration is in 1..300, the step list is non-empty with every element in
    1..120, and the countdown threshold and the preparation duration are not
    negative; otherwise a [ValueError] with a message is raised and no
    configuration object comes to exist.  With a hold duration in range, an
    empty step list is refused with the message that step durations cannot
    be empty; a hold duration of 301 is refused with the message that cites
    the bound of 300 seconds. *)
Theorem config_validation :
  (forall c : ExerciseConfig.t,
      succeeds ExerciseConfig.validate c <-> ExerciseConfig.in_bounds c)
  /\ (forall hold steps countdown prep audio mode,
      let c := ExerciseConfig.mk hold steps countdown prep audio mode in
      (ExerciseConfig.new hold steps countdown prep audio mode = Ret c
       <-> ExerciseConfig.in_bounds c)
      /\ (~ ExerciseConfig.in_bounds c ->
          exists msg, ExerciseConfig.new hold steps countdown prep audio mode
                      = Raise (ValueError msg)))
  /\ (forall c : ExerciseConfig.t,
      1 <= ExerciseConfig.hold_duration c <= 300 ->
      ExerciseConfig.step_durations c = [] ->
      fst (ExerciseConfig.validate c) =
      Raise (ValueError
        "Step durations cannot be empty. Provide at least one breathing step duration."))
  /\ (forall c : ExerciseConfig.t,
      ExerciseConfig.hold_duration c = 301 ->
      fst (ExerciseConfig.validate c) =
      Raise (ValueError "Hold duration cannot exceed 300 seconds (got 301)")).
Proof.
  split; [|split; [|split]].
  - intros c. destruct (validate_cases c) as [_ [[Hb Hv]|[Hb [msg Hv]]]];
      unfold succeeds; rewrite Hv; split; intros H; eauto;
        [destruct H; discriminate|contradiction].
  - intros hold steps countdown prep audio mode c.
    unfold ExerciseConfig.new. fold c.
    destruct (validate_cases c) as [_ [[Hb Hv]|[Hb [msg Hv]]]]; rewrite Hv.
    + split; [tauto|]. intros Hn. contradiction.
    + split; [split; [discriminate|contradiction]|]. eauto.
  - intros c Hh Hs. unfold ExerciseConfig.validate. unfold_monad.
    destruct (Z.leb_spec (ExerciseConfig.hold_duration c) 0); [lia|].
    destruct (Z.gtb_spec (ExerciseConfig.hold_duration c) 300); [lia|].
    rewrite Hs. reflexivity.
  - intros c Hh. unfold ExerciseConfig.validate. unfold_monad.
    rewrite Hh. reflexivity.
Qed.

(** ** Phase generation *)

Section PhaseGeneration.

Import Exercise.

Lemma str_format_breathing (d : Z) :
  str_format exercise_defaults.BREATHING_INSTRUCTION d = Ret "Breathe".
Proof. reflexivity. Qed.

Lemma generate_steps_spec (cfg : ExerciseConfig.t) (l : list Z)
    (acc : list Phase.t) (e : Exercise.t) :
  _generate_steps cfg l acc e =
  (Ret (acc ++ flat_map
                 (fun d => [Phase.new BREATHING d "Breathe" "cyan";
                            Phase.new HOLD (ExerciseConfig.hold_duration cfg)
                                      "Hold" "yellow"]) l), e).
Proof.
  revert acc. induction l as [|d l IH]; intros acc.
  - simpl. rewrite app_nil_r. reflexivity.
  - cbn [_generate_steps flat_map]. unfold bind at 1.
    rewrite str_format_breathing. unfold lift_outcome.
    unfold bind at 1. unfold dict_getitem at 1.
    replace (display_config.PHASE_COLORS !! "breathing") with (Some "cyan")
      by (vm_compute; reflexivity).
    unfold ret at 1. unfold bind at 1. unfold dict_getitem at 1.
    replace (display_config.PHASE_COLORS !! "hold") with (Some "yellow")
      by (vm_compute; reflexivity).
    unfold ret at 1. rewrite IH. rewrite <- !app_assoc. reflexivity.
Qed.

Lemma generate_phases_spec (e : Exercise.t) :
  _generate_phases e =
  (Ret tt, set_phases (described_phases label_plain (config e)) e).
Proof.
  unfold _generate_phases, described_phases, label_plain.
  unfold bind at 1. unfold get at 1. cbv zeta.
  destruct (ExerciseConfig.preparation_duration (config e) >? 0);
    unfold bind at 1, ret at 1; unfold bind at 1;
    rewrite generate_steps_spec; unfold modify;
    rewrite <- ?app_assoc; reflexivity.
Qed.

End PhaseGeneration.

(** C1, as the code has it.  For every configuration, phase generation
    returns and sets the phase list to exactly: a "Prepare" breathing phase
    of [preparation_duration] seconds if and only if that duration is
    positive; then, for each step duration [d] in order, a breathing phase
    of [d] seconds labelled "Breathe" followed by a hold phase of
    [hold_duration] seconds labelled "Hold"; then one breathing phase of
    one second labelled "Complete".  All phases are new ([NOT_STARTED]).
    For hold=60, steps=[30,20,10], countdown=5, prep=0 this is seven phases
    with kinds and durations Breathe 30, Hold 60, Breathe 20, Hold 60,
    Breathe 10, Hold 60, Complete 1. *)
Theorem generate_phases_sequence :
  (forall e : Exercise.t,
      Exercise._generate_phases e =
      (Ret tt,
       Exercise.set_phases
         (Exercise.described_phases Exercise.label_plain (Exercise.config e)) e))
  /\ (forall e : Exercise.t,
      Exercise.config e = ExerciseConfig.mk 60 [30; 20; 10] 5 0 true TUI ->
      map (fun p => (Phase.type p, Phase.duration p))
          (Exercise.phases (snd (Exercise._generate_phases e)))
      = [(BREATHING, 30); (HOLD, 60); (BREATHING, 20); (HOLD, 60);
         (BREATHING, 10); (HOLD, 60); (BREATHING, 1)]
      /\ map Phase.instruction (Exercise.phases (snd (Exercise._generate_phases e)))
         = ["Breathe"; "Hold"; "Breathe"; "Hold"; "Breathe"; "Hold"; "Complete"]).
Proof.
  split.
  - apply generate_phases_spec.
  - intros e He. rewrite generate_phases_spec, He. split; reflexivity.
Qed.

(** C1 as the specification words it fails: with the default configuration
    the first phase generated is labelled "Breathe", not "Breathe 30s". *)
Lemma generate_phases_label_differs :
  let e := Exercise.new (Some ExerciseConfig.default) in
  fst (Exercise._generate_phases e) = Ret tt
  /\ map Phase.summary (Exercise.phases (snd (Exercise._generate_phases e)))
     <> map Phase.summary
            (Exercise.described_phases Exercise.label_with_seconds
                                       ExerciseConfig.default)
  /\ (Phase.instruction <$> Exercise.phases (snd (Exercise._generate_phases e)) !! 0%nat)
     = Some "Breathe"
  /\ (Phase.instruction <$>
        Exercise.described_phases Exercise.label_with_seconds ExerciseConfig.default
        !! 0%nat)
     = Some "Breathe 30s".
Proof.
  cbv zeta. rewrite generate_phases_spec.
  split; [reflexivity|]. split; [|split; vm_compute; reflexivity].
  vm_compute. discriminate.
Qed.

(** ** Timer *)

Lemma Qlt_bool_iff (a b : Q) : Qlt_bool a b = true <-> (a < b)%Q.
Proof.
  unfold Qlt_bool. rewrite negb_true_iff. split.
  - intros H. apply Qnot_le_lt. intros Hle. apply Qle_bool_iff in Hle. congruence.
  - intros H. destruct (Qle_bool b a) eqn:E; [|reflexivity].
    apply Qle_bool_iff in E. apply Qlt_not_le in H. contradiction.
Qed.

Lemma Qlt_bool_false_iff (a b : Q) : Qlt_bool a b = false <-> (b <= a)%Q.
Proof.
  unfold Qlt_bool. rewrite negb_false_iff. apply Qle_bool_iff.
Qed.

Lemma Qle_bool_false_iff (a b : Q) : Qle_bool a b = false <-> (b < a)%Q.
Proof.
  rewrite <- Qlt_bool_iff. unfold Qlt_bool.
  destruct (Qle_bool a b); simpl; split; congruence.
Qed.

Section TimerFacts.

Import Timer.

Lemma elapsed_eq (tm : Timer.t) (c : Clock) :
  elapsed (tm, c) =
  match _start_time tm with
  | None => (Ret 0%Q, (tm, c))
  | Some t0 => (Ret (next_reading c - t0)%Q, (tm, clock_after 0 c))
  end.
Proof. unfold elapsed. unfold_monad. simpl. destruct (_start_time tm); reflexivity. Qed.

Lemma is_expired_eq (tm : Timer.t) (c : Clock) :
  is_expired (tm, c) =
  if _is_running tm then
    match _start_time tm with
    | None => (Ret (Qle_bool (duration tm) 0), (tm, c))
    | Some t0 => (Ret (Qle_bool (duration tm) (next_reading c - t0)), (tm, clock_after 0 c))
    end
  else (Ret false, (tm, c)).
Proof.
  unfold is_expired. unfold bind at 1. unfold gets at 1. cbn [fst].
  destruct (_is_running tm); simpl; [|reflexivity].
  unfold bind. rewrite elapsed_eq. destruct (_start_time tm); reflexivity.
Qed.

Lemma remaining_time_eq (tm : Timer.t) (c : Clock) :
  remaining_time (tm, c) =
  if _is_running tm then
    match _start_time tm with
    | None => (Ret (py_max 0 (duration tm - 0)), (tm, c))
    | Some t0 => (Ret (py_max 0 (duration tm - (next_reading c - t0))),
                  (tm, clock_after 0 c))
    end
  else (Ret (duration tm), (tm, c)).
Proof.
  unfold remaining_time. unfold bind at 1. unfold gets at 1. cbn [fst].
  destruct (_is_running tm); simpl; [|reflexivity].
  unfold bind. rewrite elapsed_eq. destruct (_start_time tm); reflexivity.
Qed.

Lemma in_countdown_eq (tm : Timer.t) (c : Clock) :
  in_countdown (tm, c) =
  if _is_running tm then
    if Qeq_bool (countdown_threshold tm) 0 then (Ret false, (tm, c))
    else
      match remaining_time (tm, c) with
      | (Ret r, s) =>
          (Ret (Qlt_bool 0 r && Qle_bool r (countdown_threshold tm)), s)
      | (Raise e, s) => (Raise e, s)
      end
  else (Ret false, (tm, c)).
Proof.
  unfold in_countdown. unfold bind at 1. unfold gets at 1. cbn [fst].
  destruct (_is_running tm); simpl; [|reflexivity].
  destruct (Qeq_bool (countdown_threshold tm) 0); reflexivity.
Qed.

Lemma start_eq (tm : Timer.t) (c : Clock) :
  start (tm, c) =
  if _is_running tm then (Raise (RuntimeError "Timer is already running"), (tm, c))
  else (Ret tt, (set_start (Some (next_reading c)) true tm, clock_after 0 c)).
Proof.
  unfold start. unfold_monad. simpl. destruct (_is_running tm); reflexivity.
Qed.

End TimerFacts.


(** C9. For every timer, running or expired or neither, [reset()] returns
    and leaves it not running, with its duration and threshold as they
    were.  At every later instant [elapsed()] then returns 0,
    [remaining_time()] the full duration, [is_expired()] and
    [in_countdown()] false, and [start()] succeeds, leaving the timer
    running from the reading taken by that call. *)
Theorem timer_reset_restarts (tm : Timer.t) (c : Clock) :
  exists tm' : Timer.t,
    Timer.reset (tm, c) = (Ret tt, (tm', c))
    /\ Timer._is_running tm' = false
    /\ Timer.duration tm' = Timer.duration tm
    /\ Timer.countdown_threshold tm' = Timer.countdown_threshold tm
    /\ forall c' : Clock,
        fst (Timer.elapsed (tm', c')) = Ret 0%Q
        /\ fst (Timer.remaining_time (tm', c')) = Ret (Timer.duration tm)
        /\ fst (Timer.is_expired (tm', c')) = Ret false
        /\ fst (Timer.in_countdown (tm', c')) = Ret false
        /\ exists tm'' c'',
            Timer.start (tm', c') = (Ret tt, (tm'', c''))
            /\ Timer._is_running tm'' = true
            /\ Timer._start_time tm'' = Some (next_reading c')
            /\ Timer.duration tm'' = Timer.duration tm
            /\ Timer.countdown_threshold tm'' = Timer.countdown_threshold tm.
Proof.
  exists (Timer.set_start None false tm).
  do 4 (split; [reflexivity|]).
  intros c'.
  rewrite elapsed_eq, remaining_time_eq, is_expired_eq, in_countdown_eq, start_eq.
  simpl. do 4 (split; [reflexivity|]).
  eexists _, _. repeat split; reflexivity.
Qed.

(** ** Exercise: start, advance, reset *)

Section ExerciseFacts.

Import Exercise.

Lemma Timer_new_ok (d thr : Z) :
  0 < d -> 0 <= thr ->
  Timer.new (inject_Z d) (inject_Z thr)
  = Ret (Timer.mk (inject_Z d) (inject_Z thr) None false).
Proof.
  intros Hd Ht. unfold Timer.new.
  destruct (Qle_bool (inject_Z d) 0) eqn:E.
  - apply Qle_bool_iff in E. unfold Qle, inject_Z in E. simpl in E. lia.
  - destruct (Qlt_bool (inject_Z thr) 0) eqn:E2; [|reflexivity].
    apply Qlt_bool_iff in E2. unfold Qlt, inject_Z in E2. simpl in E2. lia.
Qed.

Lemma install_timer_ok (p : Phase.t) (e : Exercise.t) (c : Clock) :
  0 < Phase.duration p ->
  0 <= ExerciseConfig.countdown_beep_threshold (config e) ->
  install_timer p (e, c) =
  (Ret tt, (set_timer (Some (timer_for (config e) p (next_reading c))) e,
            clock_after 0 c)).
Proof.
  intros Hd Ht. unfold install_timer. unfold_monad. simpl.
  rewrite Timer_new_ok by assumption. unfold on_timer. rewrite start_eq. simpl.
  reflexivity.
Qed.

Lemma described_phases_new (label : Z -> string) (cfg : ExerciseConfig.t) :
  ExerciseConfig.in_bounds cfg ->
  Forall (fun p => 0 < Phase.duration p /\ Phase._state p = NOT_STARTED)
         (described_phases label cfg).
Proof.
  intros (Hh & _ & Hs & _ & Hp). unfold described_phases.
  apply Forall_app. split.
  - destruct (Z.gtb_spec (ExerciseConfig.preparation_duration cfg) 0);
      repeat constructor; simpl; lia.
  - apply Forall_app. split; [|repeat constructor; simpl; lia].
    induction Hs as [|d l Hd _ IH]; simpl; [constructor|].
    repeat (constructor; [simpl; split; [lia|reflexivity]|]). exact IH.
Qed.

Lemma described_phases_cons (label : Z -> string) (cfg : ExerciseConfig.t) :
  exists p0 rest, described_phases label cfg = p0 :: rest.
Proof.
  destruct (described_phases label cfg) as [|p0 rest] eqn:E; [|eauto].
  unfold described_phases in E.
  apply app_eq_nil in E as [_ E]. apply app_eq_nil in E as [_ E]. discriminate.
Qed.

Lemma start_started (e : Exercise.t) (c : Clock) :
  _started e = true -> exists msg, start (e, c) = (Raise (RuntimeError msg), (e, c)).
Proof.
  intros Hs. unfold start. unfold_monad. simpl. rewrite Hs. simpl.
  destruct (_completed e); simpl; eauto.
Qed.

Lemma start_fresh (e : Exercise.t) (c : Clock) :
  _started e = false -> _completed e = false ->
  ExerciseConfig.in_bounds (config e) ->
  exists p0 rest,
    described_phases label_plain (config e) = p0 :: rest
    /\ start (e, c) =
       (Ret tt,
        (mk (config e) (Phase.set_state IN_PROGRESS p0 :: rest) (Some 0%nat)
            (Some (timer_for (config e) p0 (next_reading c))) true false,
         clock_after 0 c)).
Proof.
  intros Hs Hc Hb.
  destruct (described_phases_cons label_plain (config e)) as (p0 & rest & Hd).
  pose proof (described_phases_new label_plain (config e) Hb) as HF.
  rewrite Hd in HF. apply Forall_cons in HF as [[Hpos Hst] _].
  exists p0, rest. split; [exact Hd|].
  unfold start. unfold bind at 1. unfold gets at 1. cbn [fst].
  rewrite Hs, Hc. cbn [andb negb]. unfold bind at 1, ret at 1.
  unfold bind at 1, ret at 1. unfold bind at 1. unfold on_self at 1.
  rewrite generate_phases_spec, Hd.
  unfold_monad. simpl. unfold on_phase. simpl.
  pose proof (start_spec p0) as Hsp. rewrite Hst in Hsp. rewrite Hsp.
  simpl. destruct Hb as (_ & _ & _ & Hthr & _).
  rewrite install_timer_ok by (simpl; assumption).
  reflexivity.
Qed.

Lemma advance_not_started (e : Exercise.t) (c : Clock) :
  _started e = false ->
  advance_phase (e, c) = (Raise (RuntimeError "Exercise not started"), (e, c)).
Proof. intros Hs. unfold advance_phase. unfold_monad. simpl. rewrite Hs. reflexivity. Qed.

Lemma advance_completed (e : Exercise.t) (c : Clock) :
  _started e = true -> _completed e = true ->
  advance_phase (e, c) = (Ret false, (e, c)).
Proof.
  intros Hs Hc. unfold advance_phase. unfold_monad. simpl. rewrite Hs, Hc. reflexivity.
Qed.

Lemma set_timer_same (e : Exercise.t) (tm : Timer.t) :
  timer e = Some tm -> set_timer (Some tm) e = e.
Proof. destruct e; simpl; intros ->; reflexivity. Qed.

Lemma is_expired_timer_for cfg p t0 c :
  Timer.is_expired (timer_for cfg p t0, c)
  = (Ret (expired_at p t0 c), (timer_for cfg p t0, clock_after 0 c)).
Proof. rewrite is_expired_eq. reflexivity. Qed.

#[local] Arguments Phase.start : simpl never.
#[local] Arguments Phase.complete : simpl never.
#[local] Arguments install_timer : simpl never.

Section Running.
Context (e : Exercise.t) (c : Clock) (i : nat) (p : Phase.t) (t0 : Q).
Hypothesis Hs : _started e = true.
Hypothesis Hc : _completed e = false.
Hypothesis Hi : current_phase_index e = Some i.
Hypothesis Hp : phases e !! i = Some p.
Hypothesis Ht : timer e = Some (timer_for (config e) p t0).

Lemma advance_too_early :
  expired_at p t0 c = false ->
  advance_phase (e, c) =
  (Raise (RuntimeError "Current phase not complete"), (e, clock_after 0 c)).
Proof.
  intros Hex. unfold advance_phase. unfold_monad. simpl.
  rewrite Hs, Hc, Ht. simpl.
  unfold expired_at, next_reading in Hex. simpl in Hex. rewrite Hex. simpl.
  rewrite set_timer_same by assumption. reflexivity.
Qed.

Hypothesis Hst : Phase._state p = IN_PROGRESS \/ Phase._state p = COUNTDOWN.

Lemma advance_to_next (q : Phase.t) :
  expired_at p t0 c = true ->
  phases e !! (i + 1)%nat = Some q ->
  Phase._state q = NOT_STARTED ->
  0 < Phase.duration q ->
  0 <= ExerciseConfig.countdown_beep_threshold (config e) ->
  advance_phase (e, c) =
  (Ret true,
   (mk (config e)
       (<[(i + 1)%nat := Phase.set_state IN_PROGRESS q]>
          (<[i := Phase.set_state COMPLETED p]> (phases e)))
       (Some (i + 1)%nat)
       (Some (timer_for (config e) q (next_reading (clock_after 0 c))))
       true false,
    clock_after 0 (clock_after 0 c))).
Proof.
  intros Hex Hq Hqs Hqd Hthr. unfold advance_phase. unfold_monad. simpl.
  rewrite Hs, Hc, Ht. simpl.
  unfold expired_at, next_reading in Hex. simpl in Hex. rewrite Hex. simpl. rewrite Hi.
  unfold on_phase. simpl. rewrite Hp.
  pose proof (complete_spec p) as Hcs.
  assert (Hcp : Phase.complete p = (Ret tt, Phase.set_state COMPLETED p))
    by (destruct Hst as [E|E]; rewrite E in Hcs; exact Hcs).
  rewrite Hcp. simpl. rewrite Hi.
  rewrite length_insert.
  pose proof (lookup_lt_Some _ _ _ Hq) as Hlt.
  destruct (Z.ltb_spec (Z.of_nat i) (Z.of_nat (length (phases e)) - 1)); [|lia].
  simpl. rewrite list_lookup_insert_ne by lia. rewrite Hq.
  pose proof (start_spec q) as Hss. rewrite Hqs in Hss.
  unfold on_phase. simpl. rewrite list_lookup_insert_ne by lia.
  rewrite Hq, Hss. simpl.
  match goal with |- context [install_timer q (?e', ?c')] =>
    rewrite (install_timer_ok q e' c') by assumption end.
  unfold set_timer, set_phases, set_current_phase_index. simpl.
  rewrite ?Hs, ?Ht, ?Hc. reflexivity.
Qed.

Lemma advance_to_end :
  expired_at p t0 c = true ->
  phases e !! (i + 1)%nat = None ->
  advance_phase (e, c) =
  (Ret false,
   (mk (config e) (<[i := Phase.set_state COMPLETED p]> (phases e)) None
       (timer e) true true,
    clock_after 0 c)).
Proof.
  intros Hex Hq. unfold advance_phase. unfold_monad. simpl.
  rewrite Hs, Hc, Ht. simpl.
  unfold expired_at, next_reading in Hex. simpl in Hex. rewrite Hex. simpl. rewrite Hi.
  unfold on_phase. simpl. rewrite Hp.
  pose proof (complete_spec p) as Hcs.
  assert (Hcp : Phase.complete p = (Ret tt, Phase.set_state COMPLETED p))
    by (destruct Hst as [E|E]; rewrite E in Hcs; exact Hcs).
  rewrite Hcp. simpl. rewrite Hi.
  rewrite length_insert.
  apply lookup_ge_None in Hq.
  destruct (Z.ltb_spec (Z.of_nat i) (Z.of_nat (length (phases e)) - 1)); [lia|].
  unfold set_timer, set_phases, set_current_phase_index, set_completed. simpl.
  rewrite ?Hs, ?Ht, ?Hc. reflexivity.
Qed.

End Running.

Lemma erase_insert (ps : list Phase.t) (i : nat) (p : Phase.t) (s : PhaseState) :
  ps !! i = Some p -> erase (<[i := Phase.set_state s p]> ps) = erase ps.
Proof.
  intros Hp. unfold erase. rewrite list_fmap_insert. apply list_insert_id.
  rewrite list_lookup_fmap, Hp. reflexivity.
Qed.

Lemma erase_lookup (ps : list Phase.t) (i : nat) (p : Phase.t) :
  ps !! i = Some p -> erase ps !! i = Some (Phase.set_state NOT_STARTED p).
Proof. intros Hp. unfold erase. rewrite list_lookup_fmap, Hp. reflexivity. Qed.

Lemma described_erased (cfg : ExerciseConfig.t) :
  erase (described_phases label_plain cfg) = described_phases label_plain cfg.
Proof.
  unfold described_phases, erase. rewrite !map_app.
  f_equal; [destruct (_ >? 0); reflexivity|]. f_equal.
  induction (ExerciseConfig.step_durations cfg) as [|d l IH]; simpl; [reflexivity|].
  rewrite IH. reflexivity.
Qed.

(** A phase of a generated list has a positive duration. *)
Lemma generated_duration (e : Exercise.t) (j : nat) (q : Phase.t) :
  ExerciseConfig.in_bounds (config e) ->
  erase (phases e) = described_phases label_plain (config e) ->
  phases e !! j = Some q -> 0 < Phase.duration q.
Proof.
  intros Hb He Hq. apply erase_lookup in Hq. rewrite He in Hq.
  pose proof (described_phases_new label_plain (config e) Hb) as HF.
  rewrite Forall_lookup in HF. apply HF in Hq. simpl in Hq. tauto.
Qed.

Lemma consistent_new (cfg : ExerciseConfig.t) :
  ExerciseConfig.in_bounds cfg -> consistent (new (Some cfg)).
Proof. intros Hb. split; [exact Hb|]. left. repeat split. Qed.

Lemma consistent_start (e : Exercise.t) (c : Clock) :
  consistent e -> consistent (fst (snd (start (e, c)))).
Proof.
  intros [Hb Hcase].
  destruct (_started e) eqn:Hs.
  { destruct (start_started e c Hs) as [msg ->]. split; assumption. }
  destruct Hcase as [(_ & Hc & _)|[(i & t0 & Hs' & _)|(Hs' & _)]]; try congruence.
  destruct (start_fresh e c Hs Hc Hb) as (p0 & rest & Hd & ->). simpl.
  split; [exact Hb|]. right; left. exists 0%nat, (next_reading c).
  pose proof (described_phases_new label_plain (config e) Hb) as HF.
  rewrite Hd in HF. apply Forall_cons in HF as [[Hpos Hst] HF].
  unfold running_at. simpl. repeat split.
  - rewrite <- described_erased, Hd. simpl. f_equal.
  - lia.
  - intros ->. simpl in H. injection H as <-. left. reflexivity.
  - intros Hj. destruct j as [|j]; [lia|]. simpl in H.
    rewrite Forall_lookup in HF. apply HF in H. tauto.
  - exists (Phase.set_state IN_PROGRESS p0). split; reflexivity.
Qed.

Lemma running_facts (e : Exercise.t) (i : nat) (t0 : Q) :
  ExerciseConfig.in_bounds (config e) -> running_at i t0 e ->
  exists p : Phase.t,
    phases e !! i = Some p
    /\ timer e = Some (timer_for (config e) p t0)
    /\ (Phase._state p = IN_PROGRESS \/ Phase._state p = COUNTDOWN)
    /\ 0 < Phase.duration p
    /\ forall q, phases e !! (i + 1)%nat = Some q ->
                 Phase._state q = NOT_STARTED /\ 0 < Phase.duration q.
Proof.
  intros Hb (Hs & Hc & Hi & He & Hst & p & Hp & Ht).
  exists p. repeat split; try assumption.
  - apply (Hst i p Hp). reflexivity.
  - eapply generated_duration; eassumption.
  - apply (Hst _ q H). lia.
  - eapply generated_duration; eassumption.
Qed.

Lemma states_around_next (ps : list Phase.t) (i : nat) (p q : Phase.t) :
  states_around i ps -> ps !! i = Some p -> ps !! (i + 1)%nat = Some q ->
  states_around (i + 1)
    (<[(i + 1)%nat := Phase.set_state IN_PROGRESS q]>
       (<[i := Phase.set_state COMPLETED p]> ps)).
Proof.
  intros Hst Hp Hq j r Hr.
  pose proof (lookup_lt_Some _ _ _ Hp) as Hlp.
  pose proof (lookup_lt_Some _ _ _ Hq) as Hlq.
  destruct (decide (j = (i + 1)%nat)) as [->|Hne1].
  - rewrite list_lookup_insert_eq in Hr by (rewrite length_insert; lia).
    injection Hr as <-. repeat split; intros; try lia; auto.
  - rewrite list_lookup_insert_ne in Hr by lia.
    destruct (decide (j = i)) as [->|Hne2].
    + rewrite list_lookup_insert_eq in Hr by lia.
      injection Hr as <-. repeat split; intros; try lia; auto.
    + rewrite list_lookup_insert_ne in Hr by lia.
      destruct (Hst j r Hr) as (H1 & H2 & H3).
      repeat split; intros; try lia; [apply H1|apply H3]; lia.
Qed.

Lemma states_around_end (ps : list Phase.t) (i : nat) (p : Phase.t) :
  states_around i ps -> ps !! i = Some p -> ps !! (i + 1)%nat = None ->
  Forall (fun r => Phase._state r = COMPLETED)
         (<[i := Phase.set_state COMPLETED p]> ps).
Proof.
  intros Hst Hp Hq. apply Forall_lookup. intros j r Hr.
  pose proof (lookup_lt_Some _ _ _ Hp) as Hlp.
  apply lookup_ge_None in Hq.
  pose proof (lookup_lt_Some _ _ _ Hr) as Hlr. rewrite length_insert in Hlr.
  destruct (decide (j = i)) as [->|Hne].
  - rewrite list_lookup_insert_eq in Hr by lia. injection Hr as <-. reflexivity.
  - rewrite list_lookup_insert_ne in Hr by lia.
    apply (Hst j r Hr). lia.
Qed.

Lemma consistent_advance (e : Exercise.t) (c : Clock) :
  consistent e -> consistent (fst (snd (advance_phase (e, c)))).
Proof.
  intros [Hb Hcase].
  destruct Hcase as [Hf|[(i & t0 & Hr)|Hfin]].
  - destruct Hf as (Hs & Hrest). rewrite advance_not_started by assumption.
    split; [exact Hb|left; repeat split; tauto].
  - destruct (running_facts e i t0 Hb Hr) as (p & Hp & Ht & Hps & Hpd & Hnext).
    pose proof Hr as (Hs & Hc & Hi & He & Hst & _).
    destruct (expired_at p t0 c) eqn:Hex.
    + destruct (phases e !! (i + 1)%nat) as [q|] eqn:Hq.
      * destruct (Hnext q eq_refl) as [Hqs Hqd].
        rewrite (advance_to_next e c i p t0 Hs Hc Hi Hp Ht Hps q Hex Hq Hqs Hqd)
          by apply Hb.
        simpl. split; [exact Hb|right; left].
        exists (i + 1)%nat, (next_reading (clock_after 0 c)).
        unfold running_at. simpl. repeat split.
        -- rewrite erase_insert
             by (rewrite list_lookup_insert_ne by lia; exact Hq).
           rewrite erase_insert by exact Hp. exact He.
        -- eapply states_around_next; eassumption.
        -- eapply states_around_next; eassumption.
        -- eapply states_around_next; eassumption.
        -- exists (Phase.set_state IN_PROGRESS q).
           split; [|reflexivity].
           apply list_lookup_insert_eq. rewrite length_insert.
           eapply lookup_lt_Some; eassumption.
      * rewrite (advance_to_end e c i p t0 Hs Hc Hi Hp Ht Hps Hex Hq).
        simpl. split; [exact Hb|right; right].
        unfold finished. simpl. repeat split.
        -- rewrite erase_insert by exact Hp. exact He.
        -- eapply states_around_end; eassumption.
        -- eauto.
    + rewrite (advance_too_early e c p t0 Hs Hc Ht Hex). simpl.
      split; [exact Hb|right; left; eauto].
  - pose proof Hfin as (Hs & Hc & _). rewrite advance_completed by assumption.
    split; [exact Hb|right; right; exact Hfin].
Qed.

Lemma set_phases_same (e : Exercise.t) (i : nat) (p : Phase.t) :
  phases e !! i = Some p -> set_phases (<[i := p]> (phases e)) e = e.
Proof.
  intros Hp. rewrite list_insert_id by exact Hp. destruct e; reflexivity.
Qed.

(** [enter_countdown()] on the current phase of a running exercise. *)
Lemma enter_countdown_current (e : Exercise.t) (i : nat) (p : Phase.t) :
  phases e !! i = Some p ->
  on_phase i Phase.enter_countdown e =
  match Phase._state p with
  | IN_PROGRESS =>
      (Ret tt, set_phases (<[i := Phase.set_state COUNTDOWN p]> (phases e)) e)
  | s => (Raise (RuntimeError ("Cannot enter countdown from state "
                               +:+ PhaseState_str s)), e)
  end.
Proof.
  intros Hp. unfold on_phase. rewrite Hp.
  pose proof (enter_countdown_spec p) as Hsp.
  destruct (Phase._state p); rewrite Hsp; try rewrite set_phases_same by exact Hp;
    reflexivity.
Qed.

Lemma running_enter_countdown (e : Exercise.t) (i : nat) (t0 : Q) (p : Phase.t) :
  running_at i t0 e -> phases e !! i = Some p ->
  running_at i t0 (set_phases (<[i := Phase.set_state COUNTDOWN p]> (phases e)) e).
Proof.
  intros (Hs & Hc & Hi & He & Hst & p' & Hp' & Ht) Hp.
  rewrite Hp in Hp'. injection Hp' as <-.
  pose proof (lookup_lt_Some _ _ _ Hp) as Hlt.
  unfold running_at. simpl. split; [exact Hs|]. split; [exact Hc|].
  split; [exact Hi|]. split; [rewrite erase_insert by exact Hp; exact He|].
  split.
  - intros j r Hr. destruct (decide (j = i)) as [->|Hne].
    + rewrite list_lookup_insert_eq in Hr by lia. injection Hr as <-.
      repeat split; intros; try lia; auto.
    + rewrite list_lookup_insert_ne in Hr by lia. exact (Hst j r Hr).
  - exists (Phase.set_state COUNTDOWN p). split.
    + apply list_lookup_insert_eq. exact Hlt.
    + exact Ht.
Qed.

Lemma consistent_countdown (e : Exercise.t) (i : nat) :
  consistent e -> current_phase_index e = Some i ->
  consistent (snd (on_phase i Phase.enter_countdown e)).
Proof.
  intros [Hb Hcase] Hi.
  destruct Hcase as [Hf|[(i' & t0 & Hr)|Hfin]].
  - destruct Hf as (_ & _ & _ & Hn & _). congruence.
  - pose proof Hr as (_ & _ & Hi' & _ & _ & p & Hp & _).
    assert (i' = i) as -> by congruence.
    rewrite (enter_countdown_current e i p Hp).
    destruct (Phase._state p) eqn:Hst; simpl;
      (split; [exact Hb|right; left; exists i, t0]); try exact Hr.
    apply running_enter_countdown; assumption.
  - destruct Hfin as (_ & _ & Hn & _). congruence.
Qed.

Lemma reset_eq (e : Exercise.t) : reset e = (Ret tt, new (Some (config e))).
Proof. reflexivity. Qed.

Lemma reachable_consistent (e : Exercise.t) : reachable e -> consistent e.
Proof.
  induction 1.
  - apply consistent_new. assumption.
  - apply consistent_start. assumption.
  - apply consistent_advance. assumption.
  - apply consistent_countdown; assumption.
  - rewrite reset_eq. apply consistent_new. apply IHreachable.
Qed.

End ExerciseFacts.

Lemma default_in_bounds : ExerciseConfig.in_bounds ExerciseConfig.default.
Proof.
  unfold ExerciseConfig.in_bounds. simpl.
  repeat split; try lia; try discriminate. repeat constructor; lia.
Defined.

(** C4. In every state of an exercise reached through its interface (and
    so in every state reached by [start()] followed by successful
    [advance_phase()] calls, with the loop's [enter_countdown()] on the
    current phase allowed in between): while it is started and not
    completed, [current_phase_index] is some [i], the phase at [i] is in
    progress or in countdown, every phase before [i] is completed and every
    phase after [i] is not started; before [start()] and after completion
    [current_phase_index] is [None]. *)
Theorem exercise_cursor_invariant (e : Exercise.t) :
  reachable e ->
  (Exercise._started e = true -> Exercise._completed e = false ->
   exists i : nat,
     Exercise.current_phase_index e = Some i
     /\ (exists p, Exercise.phases e !! i = Some p
                   /\ (Phase._state p = IN_PROGRESS \/ Phase._state p = COUNTDOWN))
     /\ (forall j p, (j < i)%nat -> Exercise.phases e !! j = Some p ->
                     Phase._state p = COMPLETED)
     /\ (forall j p, (i < j)%nat -> Exercise.phases e !! j = Some p ->
                     Phase._state p = NOT_STARTED))
  /\ (Exercise._started e = false -> Exercise.current_phase_index e = None)
  /\ (Exercise._completed e = true -> Exercise.current_phase_index e = None).
Proof.
  intros Hr. apply reachable_consistent in Hr. destruct Hr as [Hb Hcase].
  destruct Hcase as [Hf|[(i & t0 & Hr)|Hfin]].
  - destruct Hf as (Hs & Hc & _ & Hi & _).
    repeat split; intros; try congruence.
  - destruct (running_facts e i t0 Hb Hr) as (p & Hp & _ & Hps & _).
    destruct Hr as (Hs & Hc & Hi & _ & Hst & _).
    split; [|split; intros; congruence].
    intros _ _. exists i. split; [exact Hi|]. split; [eauto|].
    split; intros j r Hj Hr; apply (Hst j r Hr); exact Hj.
  - destruct Hfin as (Hs & Hc & Hi & _).
    repeat split; intros; try congruence.
Qed.

(** An instance: the exercise of the default configuration just after
    [start()], called at time zero on a clock without lag. *)
Lemma exercise_cursor_invariant_witness :
  let e := fst (snd (Exercise.start (Exercise.new (Some ExerciseConfig.default),
                                     mkClock 0 0 (fun _ => 0%Q)))) in
  Exercise._started e = true /\ Exercise._completed e = false
  /\ Exercise.current_phase_index e = Some 0%nat
  /\ ((Exercise._started e = true -> Exercise._completed e = false ->
       exists i : nat,
         Exercise.current_phase_index e = Some i
         /\ (exists p, Exercise.phases e !! i = Some p
                       /\ (Phase._state p = IN_PROGRESS \/ Phase._state p = COUNTDOWN))
         /\ (forall j p, (j < i)%nat -> Exercise.phases e !! j = Some p ->
                         Phase._state p = COMPLETED)
         /\ (forall j p, (i < j)%nat -> Exercise.phases e !! j = Some p ->
                         Phase._state p = NOT_STARTED))
      /\ (Exercise._started e = false -> Exercise.current_phase_index e = None)
      /\ (Exercise._completed e = true -> Exercise.current_phase_index e = None)).
Proof.
  cbv zeta. split; [reflexivity|]. split; [reflexivity|]. split; [reflexivity|].
  apply exercise_cursor_invariant.
  apply reach_start. apply reach_new. exact default_in_bounds.
Defined.

(** C2. For every reachable exercise and every instant: on a never-started
    exercise [advance_phase()] raises "Exercise not started"; on a completed
    one it returns false and changes nothing; on a started, not completed
    one, whose current phase [p] at index [i] has the live timer, the call
    reads [is_expired()] once and
    - if the timer is not expired, raises "Current phase not complete" and
      leaves the exercise (index, phases, timer) as it was;
    - if it is expired and a phase [q] follows, marks [p] completed, starts
      [q], moves the index to [i + 1], installs a new running timer built
      from the duration of [q] and the configured threshold and started at
      the next clock reading, and returns true;
    - if it is expired and [p] is the last phase, marks [p] completed, sets
      the completed flag and the index to [None], and returns false. *)
Theorem advance_phase_contract (e : Exercise.t) (c : Clock) :
  reachable e ->
  (Exercise._started e = false ->
   Exercise.advance_phase (e, c)
   = (Raise (RuntimeError "Exercise not started"), (e, c)))
  /\ (Exercise._completed e = true ->
      Exercise.advance_phase (e, c) = (Ret false, (e, c)))
  /\ (Exercise._started e = true -> Exercise._completed e = false ->
      exists (i : nat) (p : Phase.t) (t0 : Q),
        Exercise.current_phase_index e = Some i
        /\ Exercise.phases e !! i = Some p
        /\ Exercise.timer e = Some (timer_for (Exercise.config e) p t0)
        /\ fst (Timer.is_expired (timer_for (Exercise.config e) p t0, c))
           = Ret (expired_at p t0 c)
        /\ (expired_at p t0 c = false ->
            Exercise.advance_phase (e, c)
            = (Raise (RuntimeError "Current phase not complete"),
               (e, clock_after 0 c)))
        /\ (expired_at p t0 c = true ->
            match Exercise.phases e !! (i + 1)%nat with
            | Some q =>
                Exercise.advance_phase (e, c)
                = (Ret true,
                   (Exercise.mk (Exercise.config e)
                      (<[(i + 1)%nat := Phase.set_state IN_PROGRESS q]>
                         (<[i := Phase.set_state COMPLETED p]> (Exercise.phases e)))
                      (Some (i + 1)%nat)
                      (Some (timer_for (Exercise.config e) q
                                       (next_reading (clock_after 0 c))))
                      true false,
                    clock_after 0 (clock_after 0 c)))
            | None =>
                Exercise.advance_phase (e, c)
                = (Ret false,
                   (Exercise.mk (Exercise.config e)
                      (<[i := Phase.set_state COMPLETED p]> (Exercise.phases e))
                      None (Exercise.timer e) true true,
                    clock_after 0 c))
            end)).
Proof.
  intros Hr. apply reachable_consistent in Hr. destruct Hr as [Hb Hcase].
  split; [apply advance_not_started|].
  split.
  { intros Hc. apply advance_completed; [|exact Hc].
    destruct Hcase as [Hf|[(i & t0 & Hr)|Hfin]].
    - destruct Hf as (_ & Hc' & _). congruence.
    - destruct Hr as (_ & Hc' & _). congruence.
    - apply Hfin. }
  intros Hs Hc.
  destruct Hcase as [Hf|[(i & t0 & Hr)|Hfin]].
  - destruct Hf as (Hs' & _). congruence.
  - destruct (running_facts e i t0 Hb Hr) as (p & Hp & Ht & Hps & Hpd & Hnext).
    pose proof Hr as (_ & _ & Hi & _).
    exists i, p, t0. do 3 (split; [assumption|]).
    split; [rewrite is_expired_timer_for; reflexivity|].
    split.
    + intros Hex. apply (advance_too_early e c p t0 Hs Hc Ht Hex).
    + intros Hex. destruct (Exercise.phases e !! (i + 1)%nat) as [q|] eqn:Hq.
      * destruct (Hnext q eq_refl) as [Hqs Hqd].
        apply (advance_to_next e c i p t0 Hs Hc Hi Hp Ht Hps q Hex Hq Hqs Hqd).
        apply Hb.
      * apply (advance_to_end e c i p t0 Hs Hc Hi Hp Ht Hps Hex Hq).
  - destruct Hfin as (_ & Hc' & _). congruence.
Qed.

(** An instance: the default exercise, started at time zero, asked to
    advance at time 100, when its first timer (30 seconds) has expired. *)
Lemma advance_phase_contract_witness :
  let e := fst (snd (Exercise.start (Exercise.new (Some ExerciseConfig.default),
                                     mkClock 0 0 (fun _ => 0%Q)))) in
  let c := mkClock 100 1 (fun _ => 0%Q) in
  fst (Exercise.advance_phase (e, c)) = Ret true
  /\ ((
  (Exercise._started e = false ->
   Exercise.advance_phase (e, c)
   = (Raise (RuntimeError "Exercise not started"), (e, c)))
  /\ (Exercise._completed e = true ->
      Exercise.advance_phase (e, c) = (Ret false, (e, c)))
  /\ (Exercise._started e = true -> Exercise._completed e = false ->
      exists (i : nat) (p : Phase.t) (t0 : Q),
        Exercise.current_phase_index e = Some i
        /\ Exercise.phases e !! i = Some p
        /\ Exercise.timer e = Some (timer_for (Exercise.config e) p t0)
        /\ fst (Timer.is_expired (timer_for (Exercise.config e) p t0, c))
           = Ret (expired_at p t0 c)
        /\ (expired_at p t0 c = false ->
            Exercise.advance_phase (e, c)
            = (Raise (RuntimeError "Current phase not complete"),
               (e, clock_after 0 c)))
        /\ (expired_at p t0 c = true ->
            match Exercise.phases e !! (i + 1)%nat with
            | Some q =>
                Exercise.advance_phase (e, c)
                = (Ret true,
                   (Exercise.mk (Exercise.config e)
                      (<[(i + 1)%nat := Phase.set_state IN_PROGRESS q]>
                         (<[i := Phase.set_state COMPLETED p]> (Exercise.phases e)))
                      (Some (i + 1)%nat)
                      (Some (timer_for (Exercise.config e) q
                                       (next_reading (clock_after 0 c))))
                      true false,
                    clock_after 0 (clock_after 0 c)))
            | None =>
                Exercise.advance_phase (e, c)
                = (Ret false,
                   (Exercise.mk (Exercise.config e)
                      (<[i := Phase.set_state COMPLETED p]> (Exercise.phases e))
                      None (Exercise.timer e) true true,
                    clock_after 0 c))
            end)))).
Proof.
  cbv zeta. split; [vm_compute; reflexivity|].
  apply advance_phase_contract.
  apply reach_start. apply reach_new. exact default_in_bounds.
Defined.

(** C10. For every exercise over a validated configuration, whatever its
    state: [reset()] returns and leaves exactly the state of a new exercise
    over the same configuration (no phases, no index, no timer, both flags
    cleared).  A completed exercise refuses [start()] with the "already
    completed" error and is unchanged by it; after [reset()], [start()]
    returns, the phase list is generated again from the stored
    configuration with the first phase in progress, the index is 0 and a
    running timer for the first phase is installed. *)
Theorem exercise_reset_restarts (e : Exercise.t) (c : Clock) :
  ExerciseConfig.in_bounds (Exercise.config e) ->
  Exercise.reset e
  = (Ret tt, Exercise.mk (Exercise.config e) [] None None false false)
  /\ (Exercise._completed e = true ->
      Exercise.start (e, c)
      = (Raise (RuntimeError "Exercise already completed. Call reset() to start again"),
         (e, c)))
  /\ exists (e' : Exercise.t) (c' : Clock) (p0 : Phase.t) (rest : list Phase.t),
      Exercise.start (snd (Exercise.reset e), c) = (Ret tt, (e', c'))
      /\ Exercise.config e' = Exercise.config e
      /\ Exercise.described_phases Exercise.label_plain (Exercise.config e)
         = p0 :: rest
      /\ Exercise.phases e' = Phase.set_state IN_PROGRESS p0 :: rest
      /\ Exercise.current_phase_index e' = Some 0%nat
      /\ Exercise.timer e' = Some (timer_for (Exercise.config e) p0 (next_reading c))
      /\ Exercise._started e' = true
      /\ Exercise._completed e' = false.
Proof.
  intros Hb. split; [reflexivity|]. split.
  - intros Hc. unfold Exercise.start. unfold_monad. simpl. rewrite Hc.
    rewrite andb_false_r. reflexivity.
  - rewrite reset_eq. cbn [snd].
    destruct (start_fresh (Exercise.new (Some (Exercise.config e))) c
                eq_refl eq_refl Hb) as (p0 & rest & Hd & Hst).
    eexists _, _, p0, rest. split; [exact Hst|]. simpl.
    repeat split. exact Hd.
Qed.

(** An instance: the started default exercise is reset and started again. *)
Lemma exercise_reset_restarts_witness :
  let e := fst (snd (Exercise.start (Exercise.new (Some ExerciseConfig.default),
                                     mkClock 0 0 (fun _ => 0%Q)))) in
  let c := mkClock 100 1 (fun _ => 0%Q) in
  ExerciseConfig.in_bounds (Exercise.config e)
  /\ Exercise.reset e
     = (Ret tt, Exercise.mk (Exercise.config e) [] None None false false)
  /\ fst (Exercise.start (snd (Exercise.reset e), c)) = Ret tt.
Proof.
  cbv zeta.
  assert (Hb : ExerciseConfig.in_bounds
                 (Exercise.config
                    (fst (snd (Exercise.start
                                 (Exercise.new (Some ExerciseConfig.default),
                                  mkClock 0 0 (fun _ => 0%Q))))))).
  { exact default_in_bounds. }
  split; [exact Hb|].
  destruct (exercise_reset_restarts _ (mkClock 100 1 (fun _ => 0%Q)) Hb)
    as (Hr & _ & e' & c' & p0 & rest & Hs & _).
  split; [exact Hr|]. rewrite Hs. reflexivity.
Defined.

(** ** The render loop *)

Lemma later_refl (c : Clock) : later c c.
Proof. split; [reflexivity|intros _; apply Qle_refl]. Qed.

Lemma later_trans (c1 c2 c3 : Clock) : later c1 c2 -> later c2 c3 -> later c1 c3.
Proof.
  intros [Hl1 Hn1] [Hl2 Hn2]. split; [congruence|].
  intros Hs. eapply Qle_trans; [apply Hn1; exact Hs|].
  apply Hn2. unfold steady in *. rewrite Hl1. exact Hs.
Qed.

Lemma steady_later (c c' : Clock) : later c c' -> steady c -> steady c'.
Proof. intros [Hl _] Hs. unfold steady. rewrite Hl. exact Hs. Qed.

Lemma clock_after_sleep (d : Q) (c : Clock) :
  steady c -> (now c + d <= now (clock_after d c))%Q.
Proof.
  intros Hs. simpl. specialize (Hs (reads c)).
  rewrite <- (Qplus_0_r (now c + d)) at 1.
  apply Qplus_le_r. exact Hs.
Qed.

Lemma later_after (d : Q) (c : Clock) : (0 <= d)%Q -> later c (clock_after d c).
Proof.
  intros Hd. split; [reflexivity|]. intros Hs.
  eapply Qle_trans; [|apply clock_after_sleep; exact Hs].
  rewrite <- (Qplus_0_r (now c)) at 1. apply Qplus_le_r. exact Hd.
Qed.

Lemma next_reading_later (c : Clock) : steady c -> (now c <= next_reading c)%Q.
Proof. intros Hs. apply (later_after 0 c); [apply Qle_refl|exact Hs]. Qed.

(** A query of the timer made through the exercise of the world. *)
Lemma on_timer_query {A} (m : M (Timer.t * Clock) A) (e : Exercise.t)
    (c c' : Clock) (d : list Event) (tm : Timer.t) (a : A) :
  Exercise.timer e = Some tm -> m (tm, c) = (Ret a, (tm, c')) ->
  on_exercise (Exercise.on_timer tm m) (mkWorld e c d) = (Ret a, mkWorld e c' d).
Proof.
  intros Ht Hm. unfold on_exercise, Exercise.on_timer. simpl. rewrite Hm.
  rewrite set_timer_same by exact Ht. reflexivity.
Qed.

Lemma on_phase_gets {A} (f : Phase.t -> A) (e : Exercise.t) (c : Clock)
    (d : list Event) (i : nat) (p : Phase.t) :
  Exercise.phases e !! i = Some p ->
  on_exercise (on_self (Exercise.on_phase i (gets f))) (mkWorld e c d)
  = (Ret (f p), mkWorld e c d).
Proof.
  intros Hp. unfold on_exercise, on_self, Exercise.on_phase, gets. simpl.
  rewrite Hp. rewrite set_phases_same by exact Hp. reflexivity.
Qed.

Lemma on_phase_get (e : Exercise.t) (c : Clock) (d : list Event) (i : nat)
    (p : Phase.t) :
  Exercise.phases e !! i = Some p ->
  on_exercise (on_self (Exercise.on_phase i get)) (mkWorld e c d)
  = (Ret p, mkWorld e c d).
Proof. apply (on_phase_gets (fun p => p)). Qed.

Lemma remaining_time_timer_for cfg p t0 c :
  Timer.remaining_time (timer_for cfg p t0, c)
  = (Ret (py_max 0 (inject_Z (Phase.duration p) - (next_reading c - t0))),
     (timer_for cfg p t0, clock_after 0 c)).
Proof. rewrite remaining_time_eq. reflexivity. Qed.

Lemma in_countdown_timer_for cfg p t0 c :
  exists (b : bool) (c' : Clock),
    Timer.in_countdown (timer_for cfg p t0, c) = (Ret b, (timer_for cfg p t0, c'))
    /\ (c' = c \/ c' = clock_after 0 c).
Proof.
  rewrite in_countdown_eq, remaining_time_eq. simpl.
  destruct (Qeq_bool _ 0); eauto.
Qed.

Lemma tick_cues_none cfg i (l l' : Locals) (evs : list Event) :
  cues evs = [] ->
  countdown_beeps_played l ⊆ countdown_beeps_played l' ->
  tick_cues cfg i l l' evs.
Proof.
  intros Hc Hsub. unfold tick_cues. rewrite Hc.
  split; [constructor|]. split; [exact Hsub|].
  intros k idx r H. inversion H.
Qed.

Lemma tick_cues_one cfg i (l l' : Locals) (evs : list Event) (k : string) (r : Z) :
  cues evs = [(k, Some i, r)] ->
  countdown_beeps_played l ⊆ countdown_beeps_played l' ->
  r ∉ countdown_beeps_played l -> r ∈ countdown_beeps_played l' ->
  cue_allowed cfg (k, Some i, r) ->
  tick_cues cfg i l l' evs.
Proof.
  intros Hc Hsub Hn Hy Hal. unfold tick_cues. rewrite Hc.
  split; [apply NoDup_singleton|]. split; [exact Hsub|].
  intros k' idx' r' H. apply list_elem_of_singleton in H.
  injection H as -> -> ->. auto.
Qed.

Lemma running_at_inj (i j : nat) (t0 t1 : Q) (e : Exercise.t) :
  running_at i t0 e -> running_at j t1 e -> i = j /\ t0 = t1.
Proof.
  intros (_ & _ & Hi & _ & _ & p & Hp & Ht) (_ & _ & Hj & _ & _ & q & Hq & Ht').
  assert (i = j) as <- by congruence. split; [reflexivity|].
  rewrite Ht in Ht'. injection Ht' as _ H. exact H.
Qed.

Lemma consistent_running (e : Exercise.t) (i : nat) :
  consistent e -> Exercise._completed e = false ->
  Exercise.current_phase_index e = Some i ->
  exists t0, running_at i t0 e.
Proof.
  intros [_ [Hf|[(j & t0 & Hr)|Hfin]]] Hc Hi.
  - destruct Hf as (_ & _ & _ & Hn & _). congruence.
  - exists t0. pose proof Hr as (_ & _ & Hj & _).
    assert (j = i) as <- by congruence. exact Hr.
  - destruct Hfin as (_ & Hc' & _). congruence.
Qed.

Lemma consistent_finished (e : Exercise.t) :
  consistent e -> Exercise._completed e = true -> finished e.
Proof.
  intros [_ [Hf|[(j & t0 & Hr)|Hfin]]] Hc.
  - destruct Hf as (_ & Hc' & _). congruence.
  - destruct Hr as (_ & Hc' & _). congruence.
  - exact Hfin.
Qed.

(** The three ways [advance_phase()] ends on a running exercise. *)
Lemma advance_running (e : Exercise.t) (c : Clock) (i : nat) (t0 : Q) (p : Phase.t) :
  ExerciseConfig.in_bounds (Exercise.config e) ->
  running_at i t0 e -> Exercise.phases e !! i = Some p ->
  (expired_at p t0 c = false
   /\ Exercise.advance_phase (e, c)
      = (Raise (RuntimeError "Current phase not complete"), (e, clock_after 0 c)))
  \/ (expired_at p t0 c = true
      /\ exists e' : Exercise.t,
          Exercise.config e' = Exercise.config e
          /\ ((Exercise.advance_phase (e, c)
               = (Ret true, (e', clock_after 0 (clock_after 0 c)))
               /\ running_at (i + 1) (next_reading (clock_after 0 c)) e'
               /\ Exercise.phases e' !! i = Some (Phase.set_state COMPLETED p)
               /\ exists q, Exercise.phases e' !! (i + 1)%nat = Some q)
              \/ (Exercise.advance_phase (e, c) = (Ret false, (e', clock_after 0 c))
                  /\ finished e'))).
Proof.
  intros Hb Hr Hp.
  pose proof (consistent_advance e c (conj Hb (or_intror (or_introl
                (ex_intro _ i (ex_intro _ t0 Hr)))))) as Hcons.
  destruct (running_facts e i t0 Hb Hr) as (p' & Hp' & Ht & Hps & Hpd & Hnext).
  rewrite Hp in Hp'. injection Hp' as <-.
  pose proof Hr as (Hs & Hc & Hi & _).
  destruct (expired_at p t0 c) eqn:Hex.
  2:{ left. split; [reflexivity|].
      apply (advance_too_early e c p t0 Hs Hc Ht Hex). }
  right. split; [reflexivity|].
  pose proof (lookup_lt_Some _ _ _ Hp) as Hlt.
  destruct (Exercise.phases e !! (i + 1)%nat) as [q|] eqn:Hq.
  - destruct (Hnext q eq_refl) as [Hqs Hqd].
    pose proof (lookup_lt_Some _ _ _ Hq) as Hlq.
    assert (Hthr : 0 <= ExerciseConfig.countdown_beep_threshold (Exercise.config e))
      by apply Hb.
    pose proof (advance_to_next e c i p t0 Hs Hc Hi Hp Ht Hps q Hex Hq Hqs Hqd Hthr)
      as Hadv.
    rewrite Hadv in Hcons. cbn [fst snd] in Hcons.
    eexists. split; [|left; split; [exact Hadv|]]; [reflexivity|].
    split; [|split].
    + destruct (consistent_running _ (i + 1) Hcons eq_refl eq_refl) as [t1 Hr1].
      pose proof Hr1 as (_ & _ & _ & _ & _ & q1 & _ & Ht1).
      cbn [Exercise.timer Exercise.config] in Ht1. injection Ht1 as _ Ht1.
      rewrite <- Ht1 in Hr1. exact Hr1.
    + cbn [Exercise.phases]. rewrite list_lookup_insert_ne by lia.
      apply list_lookup_insert_eq. exact Hlt.
    + eexists. cbn [Exercise.phases]. apply list_lookup_insert_eq.
      rewrite length_insert. exact Hlq.
  - pose proof (advance_to_end e c i p t0 Hs Hc Hi Hp Ht Hps Hex Hq) as Hadv.
    rewrite Hadv in Hcons. cbn [fst snd] in Hcons.
    eexists. split; [|right; split; [exact Hadv|]]; [reflexivity|].
    apply consistent_finished; [exact Hcons|reflexivity].
Qed.

Lemma get_current_phase_running (e : Exercise.t) (c : Clock) (d : list Event)
    (i : nat) (t0 : Q) (p : Phase.t) :
  running_at i t0 e -> Exercise.phases e !! i = Some p ->
  on_exercise (on_self Exercise.get_current_phase) (mkWorld e c d)
  = (Ret (Some p), mkWorld e c d).
Proof.
  intros (Hs & Hc & Hi & _) Hp.
  unfold on_exercise, on_self, Exercise.get_current_phase. unfold_monad.
  cbn [exercise clock display]. rewrite Hs, Hc, Hi, Hp. reflexivity.
Qed.

Lemma expired_stays (p : Phase.t) (t0 : Q) (c c' : Clock) :
  later c c' -> steady c ->
  (next_reading c <= next_reading c')%Q ->
  expired_at p t0 c = true -> expired_at p t0 c' = true.
Proof.
  intros _ _ Hle Hex. unfold expired_at in *.
  apply Qle_bool_iff in Hex. apply Qle_bool_iff.
  eapply Qle_trans; [exact Hex|].
  unfold Qminus. apply Qplus_le_l. exact Hle.
Qed.

Section LoopFacts.

Context (cfg : ExerciseConfig.t) (e : Exercise.t) (c : Clock) (d : list Event).
Context (i : nat) (t0 : Q) (p : Phase.t).
Hypothesis Hcfg : Exercise.config e = cfg.
Hypothesis Hb : ExerciseConfig.in_bounds cfg.
Hypothesis Hrun : running_at i t0 e.
Hypothesis Hp : Exercise.phases e !! i = Some p.

Lemma current_timer : Exercise.timer e = Some (timer_for cfg p t0).
Proof.
  destruct Hrun as (_ & _ & _ & _ & _ & p' & Hp' & Ht).
  rewrite Hp in Hp'. injection Hp' as <-. rewrite <- Hcfg. exact Ht.
Qed.

Lemma check_countdown_spec :
  exists (e1 : Exercise.t) (c1 : Clock) (p1 : Phase.t),
    check_countdown i (timer_for cfg p t0) (mkWorld e c d)
    = (Ret tt, mkWorld e1 c1 d)
    /\ Exercise.config e1 = cfg
    /\ running_at i t0 e1
    /\ Exercise.phases e1 !! i = Some p1
    /\ Phase.duration p1 = Phase.duration p
    /\ Phase.instruction p1 = Phase.instruction p
    /\ later c c1.
Proof.
  pose proof current_timer as Ht.
  destruct (in_countdown_timer_for cfg p t0 c) as (b & c1 & Hic & Hc1).
  assert (Hl : later c c1).
  { destruct Hc1 as [->| ->]; [apply later_refl|apply later_after, Qle_refl]. }
  unfold check_countdown. unfold bind at 1.
  rewrite (on_timer_query _ e c c1 d _ b Ht Hic).
  destruct b.
  2:{ exists e, c1, p. unfold_monad.
      repeat (split; [first [assumption|reflexivity]|]). exact Hl. }
  unfold bind at 1. rewrite (on_phase_gets _ e c1 d i p Hp).
  unfold Phase.is_in_progress. case_bool_decide as Hst.
  2:{ exists e, c1, p. unfold_monad.
      repeat (split; [first [assumption|reflexivity]|]). exact Hl. }
  unfold on_exercise, on_self. simpl.
  rewrite (enter_countdown_current e i p Hp), Hst. simpl.
  eexists _, c1, (Phase.set_state COUNTDOWN p). split; [reflexivity|].
  split; [exact Hcfg|]. split; [apply running_enter_countdown; assumption|].
  split; [|repeat (split; [reflexivity|]); exact Hl].
  simpl. apply list_lookup_insert_eq. eapply lookup_lt_Some; eassumption.
Qed.

Lemma current_index : Exercise.current_phase_index e = Some i.
Proof. apply Hrun. Qed.

Lemma current_described :
  Exercise.described_phases Exercise.label_plain cfg !! i
  = Some (Phase.set_state NOT_STARTED p).
Proof.
  destruct Hrun as (_ & _ & _ & He & _). rewrite <- Hcfg, <- He.
  apply erase_lookup. exact Hp.
Qed.

Lemma update_display_spec (l : Locals) :
  exists (l' : Locals) (evs : list Event),
    update_display cfg i (timer_for cfg p t0) l (mkWorld e c d)
    = (Ret l', mkWorld e (clock_after 0 c) (d ++ evs))
    /\ tick_cues cfg i l l' evs.
Proof.
  pose proof current_timer as Ht. pose proof current_index as Hi.
  pose proof current_described as Hd.
  unfold update_display. unfold bind at 1.
  rewrite (on_timer_query _ e c _ d _ _ Ht (remaining_time_timer_for cfg p t0 c)).
  set (remaining := py_int _).
  case_bool_decide as Hlast; cbn [negb].
  { exists l, []. rewrite app_nil_r. split; [reflexivity|].
    split; [constructor|]. split; [reflexivity|]. intros k idx r H.
    simpl in H. inversion H. }
  unfold bind at 1. rewrite (on_phase_get e _ d i p Hp).
  unfold bind at 1. unfold gets at 1. cbn [exercise]. rewrite Hi.
  unfold bind at 1. unfold emit at 1. unfold modify at 1. cbn [exercise clock display].
  assert (Hacd : ExerciseConfig.audio_enabled cfg = true ->
                 1 <= remaining <= ExerciseConfig.countdown_beep_threshold cfg ->
                 cue_allowed cfg ("countdown"%string, Some i, remaining)).
  { intros Ha Hr. split; [exact Ha|]. exists i, (Phase.set_state NOT_STARTED p).
    split; [reflexivity|]. split; [exact Hd|]. left. auto. }
  assert (Hatr : ExerciseConfig.audio_enabled cfg = true ->
                 Phase.instruction p <> "Complete"%string ->
                 cue_allowed cfg ("transition"%string, Some i, 0)).
  { intros Ha Hne. split; [exact Ha|]. exists i, (Phase.set_state NOT_STARTED p).
    split; [reflexivity|]. split; [exact Hd|]. right. auto. }
  destruct (ExerciseConfig.audio_enabled cfg
            && ((1 <=? remaining)
                && (remaining <=? ExerciseConfig.countdown_beep_threshold cfg))
            && negb (bool_decide (remaining ∈ countdown_beeps_played l))) eqn:Hcd.
  - apply andb_true_iff in Hcd as [Hcd Hin].
    apply andb_true_iff in Hcd as [Ha Hrange].
    apply andb_true_iff in Hrange as [H1 H2].
    apply Z.leb_le in H1. apply Z.leb_le in H2.
    apply negb_true_iff, bool_decide_eq_false in Hin.
    rewrite Ha. cbn [andb].
    destruct (remaining =? 0) eqn:Hz; [apply Z.eqb_eq in Hz; lia|]. cbn [andb].
    unfold emit. unfold_monad. cbn [exercise clock display].
    rewrite <- app_assoc. eexists _, _. split; [reflexivity|].
    apply (tick_cues_one cfg i _ _ _ "countdown" remaining);
      [reflexivity | apply union_subseteq_r | exact Hin
      | apply elem_of_union_l, elem_of_singleton; reflexivity
      | apply Hacd; [exact Ha|lia] ].
  - unfold bind at 1. unfold ret at 1.
    destruct (ExerciseConfig.audio_enabled cfg && (remaining =? 0)
              && negb (bool_decide (0 ∈ countdown_beeps_played l))
              && negb (Phase.instruction p =? "Complete")%string) eqn:Htr.
    + apply andb_true_iff in Htr as [Htr Hcp].
      apply andb_true_iff in Htr as [Htr Hin0].
      apply andb_true_iff in Htr as [Ha Hz].
      apply Z.eqb_eq in Hz. apply negb_true_iff in Hin0, Hcp.
      apply bool_decide_eq_false in Hin0. apply String.eqb_neq in Hcp.
      unfold emit. unfold_monad. cbn [exercise clock display].
      rewrite <- app_assoc. eexists _, _. split; [reflexivity|].
      rewrite Hz.
      apply (tick_cues_one cfg i _ _ _ "transition" 0);
        [reflexivity | apply union_subseteq_r | exact Hin0
        | apply elem_of_union_l, elem_of_singleton; reflexivity
        | apply Hatr; assumption ].
    + unfold_monad. eexists _, _. split; [reflexivity|].
      apply tick_cues_none; [reflexivity|reflexivity].
Qed.

Lemma check_expired_spec (l : Locals) :
  exists (o : outcome loop_ctl) (w' : World) (evs : list Event),
    check_expired cfg i (timer_for cfg p t0) l (mkWorld e c d) = (o, w')
    /\ display w' = d ++ evs /\ cues evs = []
    /\ Exercise.config (exercise w') = cfg
    /\ lag (clock w') = lag c
    /\ match o with
       | Ret (Continue l') =>
           (l' = l /\ running_at i t0 (exercise w')
            /\ (steady c -> (now c + (1 # 10) <= now (clock w'))%Q)
            /\ (steady c -> (now c - t0 < inject_Z (Phase.duration p))%Q))
           \/ (l' = mkLocals (-1) ∅
               /\ exists t0', running_at (i + 1) t0' (exercise w')
                              /\ (steady c -> (t0' + (1 # 10) <= now (clock w'))%Q))
       | Ret Break => finished (exercise w')
       | Raise _ => ~ steady c
       end.
Proof.
  pose proof current_timer as Ht.
  unfold check_expired. unfold bind at 1.
  rewrite (on_timer_query _ e c _ d _ _ Ht (is_expired_timer_for cfg p t0 c)).
  destruct (expired_at p t0 c) eqn:Hex1.
  2:{ unfold sleep. unfold_monad. cbn [exercise clock display].
      eexists _, _, []. rewrite app_nil_r.
      split; [reflexivity|]. split; [reflexivity|]. split; [reflexivity|].
      split; [exact Hcfg|]. split; [reflexivity|]. left.
      split; [reflexivity|]. split; [exact Hrun|]. split.
      - intros Hs. cbn [clock].
        pose proof (next_reading_later c Hs) as H1.
        pose proof (clock_after_sleep (1 # 10) (clock_after 0 c)
                      (steady_later _ _ (later_after 0 c (Qle_refl 0)) Hs)) as H2.
        eapply Qle_trans; [|exact H2]. apply Qplus_le_l. exact H1.
      - intros Hs. unfold expired_at in Hex1. apply Qle_bool_false_iff in Hex1.
        pose proof (next_reading_later c Hs) as H1.
        apply Qle_lt_trans with (next_reading c - t0)%Q; [|exact Hex1].
        unfold Qminus. apply Qplus_le_l. exact H1. }
  assert (Hb' : ExerciseConfig.in_bounds (Exercise.config e)) by (rewrite Hcfg; exact Hb).
  unfold bind at 1. unfold bind at 1. unfold on_exercise at 1.
  cbn [exercise clock display].
  destruct (advance_running e (clock_after 0 c) i t0 p Hb' Hrun Hp)
    as [[Hex2 Hadv]|[Hex2 (e' & Hcfg' & [(Hadv & Hr' & Hpi & q & Hq)|(Hadv & Hfin)])]];
    rewrite Hadv.
  - eexists _, _, []. rewrite app_nil_r.
    split; [reflexivity|]. split; [reflexivity|]. split; [reflexivity|].
    split; [exact Hcfg|]. split; [reflexivity|].
    intros Hs.
    assert (Hs1 : steady (clock_after 0 c))
      by (eapply steady_later; [apply later_after, Qle_refl|exact Hs]).
    pose proof (expired_stays p t0 c (clock_after 0 c)
                  (later_after 0 c (Qle_refl 0)) Hs
                  (next_reading_later (clock_after 0 c) Hs1) Hex1).
    congruence.
  - cbn [negb]. unfold bind at 1. unfold bind at 1.
    rewrite (get_current_phase_running e' _ d (i + 1) _ q Hr' Hq).
    unfold bind at 1. rewrite (on_phase_get e' _ d i _ Hpi).
    unfold emit, sleep. unfold_monad. cbn [exercise clock display].
    set (c3 := clock_after 0 (clock_after 0 (clock_after 0 c))).
    assert (Hs3 : steady c -> steady c3) by (intros Hs; exact Hs).
    case_bool_decide as Hmode; cbn [exercise clock display];
      eexists _, _, [_]; (split; [reflexivity|]); (split; [reflexivity|]);
      (split; [reflexivity|]); (split; [cbn [exercise]; congruence|]);
      (split; [reflexivity|]);
      right; (split; [reflexivity|]); eexists; (split; [exact Hr'|]);
      intros Hs; cbn [clock].
    + pose proof (clock_after_sleep timing_config.TRANSITION_PAUSE c3 (Hs3 Hs)) as H1.
      pose proof (clock_after_sleep timing_config.LOOP_SLEEP_INTERVAL
                    (clock_after timing_config.TRANSITION_PAUSE c3) (Hs3 Hs)) as H2.
      eapply Qle_trans; [|exact H2]. apply Qplus_le_l.
      eapply Qle_trans; [|exact H1].
      change (next_reading (clock_after 0 (clock_after 0 c))) with (now c3).
      rewrite <- (Qplus_0_r (now c3)) at 1. apply Qplus_le_r. discriminate.
    + apply (clock_after_sleep timing_config.LOOP_SLEEP_INTERVAL c3 (Hs3 Hs)).
  - cbn [negb]. unfold_monad.
    eexists _, _, []. rewrite app_nil_r.
    split; [reflexivity|]. split; [reflexivity|]. split; [reflexivity|].
    split; [cbn [exercise]; congruence|]. split; [reflexivity|]. exact Hfin.
Qed.

End LoopFacts.

Lemma tick_cues_app (cfg : ExerciseConfig.t) (i : nat) (l l' : Locals)
    (evs evs' : list Event) :
  cues evs' = [] -> tick_cues cfg i l l' evs -> tick_cues cfg i l l' (evs ++ evs').
Proof.
  intros Hn H. unfold tick_cues, cues in *. rewrite omap_app.
  unfold cues in Hn. rewrite Hn, app_nil_r. exact H.
Qed.

(** One iteration of the loop on a running exercise. *)
Lemma loop_body_tick (cfg : ExerciseConfig.t) (w : World) (i : nat) (t0 : Q)
    (l : Locals) :
  Exercise.config (exercise w) = cfg -> ExerciseConfig.in_bounds cfg ->
  running_at i t0 (exercise w) ->
  exists (o : outcome loop_ctl) (w' : World) (evs : list Event),
    loop_body cfg l w = (o, w')
    /\ display w' = display w ++ evs
    /\ Exercise.config (exercise w') = cfg
    /\ lag (clock w') = lag (clock w)
    /\ tick_step cfg i t0 l w evs o w'.
Proof.
  destruct w as [e c d]. cbn [exercise clock display].
  intros Hcfg Hb Hrun.
  pose proof Hrun as (_ & _ & Hi & _ & _ & p & Hp & _).
  pose proof (current_timer cfg e i t0 p Hcfg Hrun Hp) as Ht.
  unfold loop_body. unfold bind at 1.
  rewrite (get_current_phase_running e c d i t0 p Hrun Hp).
  unfold bind at 1, gets at 1. cbn [exercise]. rewrite Ht.
  unfold bind at 1, gets at 1. cbn [exercise]. rewrite Hi.
  destruct (check_countdown_spec cfg e c d i t0 p Hcfg Hrun Hp)
    as (e1 & c1 & p1 & Hcc & Hcfg1 & Hrun1 & Hp1 & Hdur & _ & Hl1).
  unfold bind at 1. rewrite Hcc.
  assert (Htm : timer_for cfg p t0 = timer_for cfg p1 t0)
    by (unfold timer_for; rewrite Hdur; reflexivity).
  rewrite Htm.
  destruct (update_display_spec cfg e1 c1 d i t0 p1 Hcfg1 Hrun1 Hp1 l)
    as (l2 & evs2 & Hud & Hcues).
  unfold bind at 1. rewrite Hud.
  destruct (check_expired_spec cfg e1 (clock_after 0 c1) (d ++ evs2) i t0 p1
              Hcfg1 Hb Hrun1 Hp1 l2)
    as (o & w' & evs3 & Hce & Hd3 & Hn3 & Hcfg3 & Hlag3 & Hout).
  rewrite Hce. exists o, w', (evs2 ++ evs3).
  split; [reflexivity|]. split; [rewrite Hd3, app_assoc; reflexivity|].
  split; [exact Hcfg3|].
  assert (Hl2 : later c (clock_after 0 c1)).
  { eapply later_trans; [exact Hl1|]. apply later_after, Qle_refl. }
  split; [rewrite Hlag3; apply Hl2|].
  pose proof (tick_cues_app cfg i l l2 evs2 evs3 Hn3 Hcues) as Hcues'.
  assert (Hst : steady c -> steady (clock_after 0 c1))
    by (apply steady_later; exact Hl2).
  destruct o as [[|l']|ex].
  - eapply step_finish; eassumption.
  - destruct Hout as [(-> & Hr' & Hnow & Hexp)|(-> & t0' & Hr' & Hnow)].
    + apply step_same; try assumption.
      * intros Hs. cbn [clock]. eapply Qle_trans; [|apply Hnow, Hst, Hs].
        apply Qplus_le_l. apply Hl2. exact Hs.
      * intros Hs q Hq. cbn [exercise clock] in *.
        assert (q = p) as -> by congruence. rewrite <- Hdur.
        eapply Qle_lt_trans; [|apply Hexp, Hst, Hs].
        unfold Qminus. apply Qplus_le_l. apply Hl2. exact Hs.
    + eapply step_next; try eassumption.
      intros Hs. apply Hnow, Hst, Hs.
  - eapply step_raise; [|eassumption].
    intros Hs. apply Hout, Hst, Hs.
Qed.

Lemma cues_upto_tick (cfg : ExerciseConfig.t) (i : nat) (l l' : Locals)
    (log evs : list Event) :
  cues_upto cfg i l log -> tick_cues cfg i l l' evs ->
  cues_upto cfg i l' (log ++ evs).
Proof.
  intros [Hnd Hall] (Hnd' & Hsub & Hall'). unfold cues_upto, cues.
  rewrite omap_app. fold (cues log) (cues evs). split.
  - apply NoDup_app. split; [exact Hnd|]. split; [|exact Hnd'].
    intros [[k idx] r] Hin Hin'.
    destruct (Hall k idx r Hin) as (_ & j & Hj & Hcase).
    destruct (Hall' k idx r Hin') as (_ & Hi & Hn & _).
    assert (j = i) as -> by congruence.
    destruct Hcase as [Hlt|[_ Hr]]; [lia|contradiction].
  - intros k idx r Hin. apply elem_of_app in Hin as [Hin|Hin].
    + destruct (Hall k idx r Hin) as (Hal & j & Hj & Hcase).
      split; [exact Hal|]. exists j. split; [exact Hj|].
      destruct Hcase as [Hlt|[Hji Hr]]; [left; exact Hlt|right].
      split; [exact Hji|]. apply Hsub. exact Hr.
    + destruct (Hall' k idx r Hin) as (Hal & Hi & _ & Hy).
      split; [exact Hal|]. exists i. auto.
Qed.

Lemma cues_upto_next (cfg : ExerciseConfig.t) (i : nat) (l l0 : Locals)
    (log : list Event) :
  cues_upto cfg i l log -> cues_upto cfg (i + 1) l0 log.
Proof.
  intros [Hnd Hall]. split; [exact Hnd|]. intros k idx r Hin.
  destruct (Hall k idx r Hin) as (Hal & j & Hj & Hcase).
  split; [exact Hal|]. exists j. split; [exact Hj|]. left.
  destruct Hcase as [Hlt|[-> _]]; lia.
Qed.

Lemma cues_upto_once (cfg : ExerciseConfig.t) (i : nat) (l : Locals)
    (log : list Event) :
  cues_upto cfg i l log -> cues_once cfg log.
Proof.
  intros [Hnd Hall]. split; [exact Hnd|]. intros [[k idx] r] Hin.
  apply (Hall k idx r Hin).
Qed.

Lemma is_complete_world (w : World) :
  on_exercise (on_self Exercise.is_complete) w
  = (Ret (Exercise._completed (exercise w)), w).
Proof. destruct w. reflexivity. Qed.

(** The main loop keeps the cues of the log allowed and distinct, for
    every clock and every number of iterations. *)
Lemma main_loop_cues (cfg : ExerciseConfig.t) (fuel : nat) :
  forall (l : Locals) (w : World) (i : nat) (t0 : Q),
    Exercise.config (exercise w) = cfg -> ExerciseConfig.in_bounds cfg ->
    running_at i t0 (exercise w) ->
    cues_upto cfg i l (display w) ->
    exists (o : outcome (option unit)) (w' : World),
            main_loop fuel cfg l w = (o, w')
            /\ cues_once cfg (display w')
            /\ (o = Ret (Some tt) -> finished (exercise w'))
            /\ Exercise.config (exercise w') = cfg.
Proof.
  induction fuel as [|fuel IH]; intros l w i t0 Hcfg Hb Hrun Hcues.
    - exists (Ret None), w. split; [reflexivity|].
      split; [eapply cues_upto_once; exact Hcues|].
      split; [discriminate|exact Hcfg].
  - cbn [main_loop]. unfold bind at 1. rewrite is_complete_world.
    pose proof Hrun as (_ & Hc & _). rewrite Hc.
    destruct (loop_body_tick cfg w i t0 l Hcfg Hb Hrun)
      as (o & w' & evs & Hlb & Hd & Hcfg' & Hlag & Hstep).
    unfold bind at 1. rewrite Hlb.
    destruct Hstep as [l' w' Hr' Htc _ _|l1 t0' w' Hr' Htc _|l1 w' Hfin Htc|l1 ex w' _ Htc];
      pose proof (cues_upto_tick cfg i l _ _ evs Hcues Htc) as Hcues';
      rewrite <- Hd in Hcues'.
    + apply (IH l' w' i t0 Hcfg' Hb Hr' Hcues').
    + apply (IH _ w' (i + 1)%nat t0' Hcfg' Hb Hr').
      eapply cues_upto_next. exact Hcues'.
        + exists (Ret (Some tt)), w'. split; [reflexivity|].
          split; [eapply cues_upto_once; exact Hcues'|].
          split; [intros _; exact Hfin|exact Hcfg'].
        + exists (Raise ex), w'. split; [reflexivity|].
          split; [eapply cues_upto_once; exact Hcues'|].
          split; [discriminate|exact Hcfg'].
Qed.

Lemma cues_once_app (cfg : ExerciseConfig.t) (log evs : list Event) :
  cues evs = [] -> cues_once cfg log -> cues_once cfg (log ++ evs).
Proof.
  intros Hn H. unfold cues_once, cues in *. rewrite omap_app.
  unfold cues in Hn. rewrite Hn, app_nil_r. exact H.
Qed.

(** [exercise.start()] on the new exercise of [run_exercise]. *)
Lemma start_running (cfg : ExerciseConfig.t) (c : Clock) :
  ExerciseConfig.in_bounds cfg ->
  exists e1 : Exercise.t,
    Exercise.start (Exercise.new (Some cfg), c) = (Ret tt, (e1, clock_after 0 c))
    /\ Exercise.config e1 = cfg
    /\ running_at 0 (next_reading c) e1.
Proof.
  intros Hb.
  pose proof (consistent_start _ c (consistent_new cfg Hb)) as Hcons.
  destruct (start_fresh (Exercise.new (Some cfg)) c eq_refl eq_refl Hb)
    as (p0 & rest & Hd & Hst).
  rewrite Hst in Hcons |- *. cbn [fst snd] in Hcons.
  eexists. split; [reflexivity|]. split; [reflexivity|].
  destruct (consistent_running _ 0 Hcons eq_refl eq_refl) as [t1 Hr1].
  pose proof Hr1 as (_ & _ & _ & _ & _ & q1 & _ & Ht1).
  cbn [Exercise.timer Exercise.config] in Ht1. injection Ht1 as _ Ht1.
  rewrite <- Ht1 in Hr1. exact Hr1.
Qed.

(** The whole run: what [run_exercise] returns follows what the main loop
    did, and the events after the loop carry no cue. *)
Lemma run_exercise_cases (cfg : ExerciseConfig.t) (c : Clock) (fuel : nat) :
  ExerciseConfig.in_bounds cfg ->
  exists (e1 : Exercise.t) (o : outcome (option unit)) (w2 : World)
         (evs : list Event),
    Exercise.config e1 = cfg
    /\ running_at 0 (next_reading c) e1
    /\ main_loop fuel cfg (mkLocals (-1) ∅)
                 (mkWorld e1 (clock_after 0 c) [EvStartLive]) = (o, w2)
    /\ cues evs = []
    /\ display (snd (run_exercise fuel cfg c)) = display w2 ++ evs
        /\ exercise (snd (run_exercise fuel cfg c)) = exercise w2
        /\ Exercise.config (exercise w2) = cfg
        /\ fst (run_exercise fuel cfg c)
       = match o with
         | Ret None => Ret None
         | Ret (Some _) => Ret (Some true)
         | Raise _ => Ret (Some false)
         end.
Proof.
  intros Hb. destruct (start_running cfg c Hb) as (e1 & Hst & Hcfg & Hrun).
  destruct (main_loop_cues cfg fuel (mkLocals (-1) ∅)
              (mkWorld e1 (clock_after 0 c) [EvStartLive]) 0 (next_reading c)
                            Hcfg Hb Hrun) as (o & w2 & Hml & _ & Hfin & Hcfg2).
                { split; [constructor|]. intros k idx r H. inversion H. }
                exists e1, o, w2.
  assert (Hre : run_exercise fuel cfg c =
                match o with
                | Ret (Some _) =>
                    (Ret (Some true),
                     mkWorld (exercise w2) (clock w2)
                             (display w2 ++ [EvStopLive; EvInput]))
                | Ret None => (Ret None, w2)
                | Raise ex =>
                    (Ret (Some false),
                     mkWorld (exercise w2) (clock w2)
                             (display w2 ++ [EvStopLive; EvShowError (exn_str ex)]))
                end).
  { unfold run_exercise. unfold bind at 1. unfold on_exercise at 1.
    cbn [exercise clock display]. rewrite Hst.
    unfold catch, run_exercise_try. unfold bind at 1. unfold emit at 1, modify at 1.
    cbn [exercise clock display app]. unfold bind at 1. rewrite Hml.
    destruct o as [[[]|]|ex].
    - specialize (Hfin eq_refl). destruct Hfin as (_ & Hc & _).
      unfold bind at 1. rewrite is_complete_world, Hc. cbn [negb].
      unfold emit. unfold_monad. cbn [exercise clock display fst snd].
      rewrite <- app_assoc. reflexivity.
    - reflexivity.
    - unfold emit. unfold_monad. cbn [exercise clock display fst snd].
      rewrite <- app_assoc. reflexivity. }
  rewrite Hre.
  destruct o as [[[]|]|ex]; cbn [fst snd display exercise];
    [exists [EvStopLive; EvInput]|exists []; rewrite app_nil_r
    |exists [EvStopLive; EvShowError (exn_str ex)]];
        (split; [exact Hcfg|]); (split; [exact Hrun|]); (split; [exact Hml|]);
        do 3 (split; [reflexivity|]); (split; [exact Hcfg2|]); reflexivity.
Qed.

(** C6. For every validated configuration, every clock (steady or not) and
    every number of iterations of the main loop, in the log of the calls
    made on the display: no cue (sound type, phase index, remaining seconds)
    occurs twice, so a "countdown" cue is made at most once per phase and
    per value of the remaining seconds however many ticks observe it; every
    cue is made with audio enabled; a "countdown" cue has
    [1 <= remaining <= countdown_beep_threshold]; a "transition" cue has
    [remaining = 0], hence occurs at most once per phase, and is never made
    for the phase labelled "Complete".  And a tick that continues the loop
    either stays at its phase or has advanced by one phase and then hands
    on the sentinel [-1] and an empty set of consumed seconds. *)
Theorem cues_at_most_once (cfg : ExerciseConfig.t) (c : Clock) (fuel : nat) :
  ExerciseConfig.in_bounds cfg ->
  (let log := display (snd (run_exercise fuel cfg c)) in
   NoDup (cues log)
   /\ forall k idx r, (k, idx, r) ∈ cues log ->
        ExerciseConfig.audio_enabled cfg = true
        /\ exists (i : nat) (p : Phase.t),
            idx = Some i
            /\ Exercise.described_phases Exercise.label_plain cfg !! i = Some p
            /\ ((k = "countdown"%string
                 /\ 1 <= r <= ExerciseConfig.countdown_beep_threshold cfg)
                \/ (k = "transition"%string /\ r = 0
                    /\ Phase.instruction p <> "Complete"%string)))
  /\ (forall (w : World) (l : Locals) (i : nat) (t0 : Q),
        Exercise.config (exercise w) = cfg ->
        running_at i t0 (exercise w) ->
        forall (l' : Locals) (w' : World),
          loop_body cfg l w = (Ret (Continue l'), w') ->
          Exercise.current_phase_index (exercise w') = Some i
          \/ (Exercise.current_phase_index (exercise w') = Some (i + 1)%nat
              /\ last_second l' = -1
              /\ countdown_beeps_played l' = ∅)).
Proof.
  intros Hb. split.
  - destruct (run_exercise_cases cfg c fuel Hb)
      as (e1 & o & w2 & evs & Hcfg & Hrun & Hml & Hn & Hd & _).
    destruct (main_loop_cues cfg fuel (mkLocals (-1) ∅)
                (mkWorld e1 (clock_after 0 c) [EvStartLive]) 0 (next_reading c)
                                Hcfg Hb Hrun) as (o' & w2' & Hml' & Honce & _ & _).
    { split; [constructor|]. intros k idx r H. inversion H. }
    rewrite Hml in Hml'. injection Hml' as <- <-.
    cbv zeta. rewrite Hd.
    destruct (cues_once_app cfg _ evs Hn Honce) as [Hnd Hall].
    split; [exact Hnd|]. intros k idx r Hin. apply (Hall _ Hin).
  - intros w l i t0 Hcfg Hrun l' w' Hlb.
    destruct (loop_body_tick cfg w i t0 l Hcfg Hb Hrun)
      as (o & w'' & evs & Hlb' & _ & _ & _ & Hstep).
    rewrite Hlb in Hlb'. injection Hlb' as <- <-.
    inversion Hstep as [l1 w1 Hr' _ _ _ Hl Hw|l1 t0' w1 Hr' _ _ Hl Hw| |].
    + left. apply Hr'.
    + right. split; [apply Hr'|]. split; reflexivity.
Qed.

(** An instance with cues: hold 2, one step of 1 second, threshold 5, audio
    on, plain display, on a clock without lag.  The log has one countdown
    cue (phase 0, second 1) and one transition cue for each of the two
    phases before the "Complete" marker. *)
Lemma cues_at_most_once_witness :
  let cfg := ExerciseConfig.mk 2 [1] 5 0 true PLAIN in
  let log := display (snd (run_exercise 100 cfg (mkClock 0 0 (fun _ => 0%Q)))) in
  ExerciseConfig.in_bounds cfg
  /\ cues log = [("countdown"%string, Some 0%nat, 1);
                 ("transition"%string, Some 0%nat, 0);
                 ("transition"%string, Some 1%nat, 0)]
  /\ NoDup (cues log).
Proof.
  cbv zeta.
  assert (Hb : ExerciseConfig.in_bounds (ExerciseConfig.mk 2 [1] 5 0 true PLAIN)).
  { unfold ExerciseConfig.in_bounds. cbn.
    repeat split; try lia; try discriminate. repeat constructor; lia. }
  split; [exact Hb|]. split; [vm_compute; reflexivity|].
  exact (proj1 (proj1 (cues_at_most_once _ (mkClock 0 0 (fun _ => 0%Q)) 100 Hb))).
Defined.

(** ** Termination of the render loop *)

Lemma measure_step (t0 d t t' : Q) (k : Z) :
  (10 * (t0 + d - t) <= inject_Z k)%Q -> (t + (1 # 10) <= t')%Q ->
  (10 * (t0 + d - t') <= inject_Z (k - 1))%Q.
Proof.
  intros H1 H2. unfold Z.sub. rewrite inject_Z_plus.
  change (inject_Z (- (1))) with (- (1))%Q. lra.
Qed.

Lemma measure_pos (t0 d t : Q) (k : Z) :
  (t - t0 < d)%Q -> (10 * (t0 + d - t) <= inject_Z k)%Q -> 1 <= k.
Proof.
  intros H1 H2. assert (H : (inject_Z 0 < inject_Z k)%Q).
  { change (inject_Z 0) with 0%Q. lra. }
  rewrite <- Zlt_Qlt in H. lia.
Qed.

Lemma measure_fresh (t0 t : Q) (dz : Z) :
  (t0 + (1 # 10) <= t)%Q ->
  (10 * (t0 + inject_Z dz - t) <= inject_Z (10 * dz - 1))%Q.
Proof.
  intros H. unfold Z.sub. rewrite inject_Z_plus, inject_Z_mult.
  change (inject_Z (- (1))) with (- (1))%Q. change (inject_Z 10) with 10%Q. lra.
Qed.

Lemma budget_nonneg (ps : list Phase.t) :
  Forall (fun p => 0 < Phase.duration p) ps -> 0 <= budget ps.
Proof.
  induction 1 as [|p ps Hp _ IH]; simpl; lia.
Qed.

(** With a steady clock and enough fuel the main loop runs the exercise to
    its end.  [k] bounds, in tenths of a second, the time the current timer
    still has to run. *)
Lemma main_loop_terminates (cfg : ExerciseConfig.t) (fuel : nat) :
  forall (l : Locals) (w : World) (i : nat) (t0 : Q) (p : Phase.t) (k : Z),
    Exercise.config (exercise w) = cfg -> ExerciseConfig.in_bounds cfg ->
    running_at i t0 (exercise w) -> steady (clock w) ->
    Exercise.described_phases Exercise.label_plain cfg !! i = Some p ->
    0 <= k ->
    (10 * (t0 + inject_Z (Phase.duration p) - now (clock w)) <= inject_Z k)%Q ->
    k + 1 + budget (drop (S i) (Exercise.described_phases Exercise.label_plain cfg))
    <= Z.of_nat fuel ->
    exists w' : World,
      main_loop fuel cfg l w = (Ret (Some tt), w') /\ finished (exercise w').
Proof.
  induction fuel as [|fuel IH]; intros l w i t0 p k Hcfg Hb Hrun Hs Hp Hk Hm Hfuel.
  - pose proof (described_phases_new Exercise.label_plain cfg Hb) as HF.
    assert (0 <= budget (drop (S i) (Exercise.described_phases Exercise.label_plain cfg))).
    { apply budget_nonneg. apply Forall_drop.
      eapply Forall_impl; [exact HF|]. intros q [Hq _]. exact Hq. }
    simpl in Hfuel. lia.
  - cbn [main_loop]. unfold bind at 1. rewrite is_complete_world.
    pose proof Hrun as (_ & Hc & _ & _ & _ & p' & Hp' & _). rewrite Hc.
    pose proof (current_described cfg (exercise w) i t0 p' Hcfg Hrun Hp') as Hd.
    rewrite Hp in Hd. injection Hd as ->.
    destruct (loop_body_tick cfg w i t0 l Hcfg Hb Hrun)
      as (o & w' & evs & Hlb & _ & Hcfg' & Hlag & Hstep).
    unfold bind at 1. rewrite Hlb.
    assert (Hs' : steady (clock w')) by (unfold steady; rewrite Hlag; exact Hs).
    destruct Hstep as [l' w' Hr' _ Hnow Hexp|l1 t0' w' Hr' _ Hnow|l1 w' Hfin _|l1 ex w' Hns _].
    + specialize (Hnow Hs). specialize (Hexp Hs p' Hp'). cbn [Phase.duration Phase.set_state] in Hm.
      pose proof (measure_pos _ _ _ _ Hexp Hm) as Hk1.
      apply (IH l' w' i t0 (Phase.set_state NOT_STARTED p') (k - 1));
        try assumption; try lia.
      apply measure_step with (t := now (clock w)); assumption.
    + specialize (Hnow Hs).
      pose proof Hr' as (_ & _ & _ & _ & _ & q' & Hq' & _).
      pose proof (current_described cfg (exercise w') (i + 1) t0' q' Hcfg' Hr' Hq') as Hdq.
      pose proof (described_phases_new Exercise.label_plain cfg Hb) as HF.
      rewrite Forall_lookup in HF. destruct (HF _ _ Hdq) as [Hqpos _].
      replace (S i) with (i + 1)%nat in Hfuel by lia.
      rewrite (drop_S _ _ _ Hdq) in Hfuel. cbn [budget foldr] in Hfuel.
      fold (budget (drop (S (i + 1)) (Exercise.described_phases Exercise.label_plain cfg)))
        in Hfuel.
      apply (IH _ w' (i + 1)%nat t0' (Phase.set_state NOT_STARTED q')
                (10 * Phase.duration (Phase.set_state NOT_STARTED q') - 1));
        try assumption; try lia.
      apply measure_fresh. exact Hnow.
    + exists w'. split; [reflexivity|exact Hfin].
    + contradiction.
Qed.

(** For every validated configuration: on a steady clock, [run_exercise]
    returns true once the loop has had as many iterations as the budget of
    the generated phases. *)
Lemma run_exercise_returns (cfg : ExerciseConfig.t) (c : Clock) (fuel : nat) :
  ExerciseConfig.in_bounds cfg -> steady c ->
  budget (Exercise.described_phases Exercise.label_plain cfg) <= Z.of_nat fuel ->
  fst (run_exercise fuel cfg c) = Ret (Some true)
  /\ finished (exercise (snd (run_exercise fuel cfg c))).
Proof.
  intros Hb Hs Hfuel.
  destruct (run_exercise_cases cfg c fuel Hb)
    as (e1 & o & w2 & evs & Hcfg & Hrun & Hml & _ & _ & Hex & _ & Hres).
  destruct (described_phases_cons Exercise.label_plain cfg) as (p0 & rest & Hd).
  pose proof (described_phases_new Exercise.label_plain cfg Hb) as HF.
  rewrite Hd in HF, Hfuel. apply Forall_cons in HF as [[Hpos _] _].
  cbn [budget foldr] in Hfuel. fold (budget rest) in Hfuel.
  destruct (main_loop_terminates cfg fuel (mkLocals (-1) ∅)
              (mkWorld e1 (clock_after 0 c) [EvStartLive]) 0 (next_reading c)
              p0 (10 * Phase.duration p0) Hcfg Hb Hrun)
    as (w' & Hml' & Hfin).
  - exact Hs.
  - rewrite Hd. reflexivity.
  - lia.
  - cbn [clock]. rewrite inject_Z_mult. change (inject_Z 10) with 10%Q.
    unfold next_reading.
    generalize (now (clock_after 0 c)), (inject_Z (Phase.duration p0)).
    intros x y. lra.
  - rewrite Hd. cbn [drop]. rewrite drop_0. lia.
  - rewrite Hml in Hml'. injection Hml' as -> ->.
    rewrite Hres, Hex. split; [reflexivity|exact Hfin].
Qed.

(** C8. For the configuration with one breathing step of one second, no
    preparation and audio disabled (any valid hold duration, countdown
    threshold and display mode), on a clock that never runs backward and
    with no interrupt delivered: the main loop ends within
    [10 * hold_duration + 23] iterations and [run_exercise] returns true.
    The exercise is then completed, with no current phase, and its three
    phases (the breathing step, the hold the code pairs with it, and the
    "Complete" marker) are all completed. *)
Theorem single_step_run_terminates (hold countdown : Z) (mode : DisplayMode)
    (c : Clock) (fuel : nat) :
  1 <= hold <= 300 -> 0 <= countdown -> steady c ->
  10 * hold + 23 <= Z.of_nat fuel ->
  let cfg := ExerciseConfig.mk hold [1] countdown 0 false mode in
  let r := run_exercise fuel cfg c in
  fst r = Ret (Some true)
  /\ Exercise._completed (exercise (snd r)) = true
  /\ Exercise.current_phase_index (exercise (snd r)) = None
  /\ map Phase.summary (Exercise.phases (exercise (snd r)))
     = [(BREATHING, 1, "Breathe"%string); (HOLD, hold, "Hold"%string);
        (BREATHING, 1, "Complete"%string)]
  /\ Forall (fun p => Phase._state p = COMPLETED)
            (Exercise.phases (exercise (snd r))).
Proof.
  intros Hh Hcd Hs Hfuel cfg r.
  assert (Hb : ExerciseConfig.in_bounds cfg).
  { unfold ExerciseConfig.in_bounds, cfg. cbn.
    repeat split; try lia; try discriminate. repeat constructor; lia. }
  destruct (run_exercise_returns cfg c fuel Hb Hs) as [Hres Hfin].
  { unfold cfg. cbn. lia. }
  fold r in Hres, Hfin.
  destruct Hfin as (_ & Hc & Hi & He & Hall & _).
  split; [exact Hres|]. split; [exact Hc|]. split; [exact Hi|].
  split; [|exact Hall].
  assert (Hsum : forall ps, map Phase.summary (erase ps) = map Phase.summary ps).
  { intros ps. unfold erase. rewrite map_map. apply map_ext. intros []; reflexivity. }
  rewrite <- Hsum, He.
  destruct (run_exercise_cases cfg c fuel Hb)
    as (e1 & o & w2 & evs & _ & _ & _ & _ & _ & Hex & Hcfg2 & _).
  fold r in Hex. rewrite Hex, Hcfg2. reflexivity.
Qed.

(** An instance: hold 1, threshold 0, on a clock without lag, 33 iterations. *)
Lemma single_step_run_terminates_witness :
  1 <= 1 <= 300 /\ 0 <= 0
  /\ steady (mkClock 0 0 (fun _ => 0%Q))
  /\ 10 * 1 + 23 <= Z.of_nat 33
  /\ fst (run_exercise 33 (ExerciseConfig.mk 1 [1] 0 0 false TUI)
                       (mkClock 0 0 (fun _ => 0%Q)))
     = Ret (Some true).
Proof.
  assert (H1 : 1 <= 1 <= 300) by lia.
  assert (H2 : 0 <= 0) by lia.
  assert (H3 : steady (mkClock 0 0 (fun _ => 0%Q))) by (intros n; apply Qle_refl).
  assert (H4 : 10 * 1 + 23 <= Z.of_nat 33) by (simpl; lia).
  split; [exact H1|]. split; [exact H2|]. split; [exact H3|]. split; [exact H4|].
  exact (proj1 (single_step_run_terminates 1 0 TUI _ 33 H1 H2 H3 H4)).
Defined.

(** * Further properties *)

(** ** Timer: construction, start, bounds, expiry *)






(** X2. [start()] on a timer that is not running records the clock reading
    and sets it running; a second [start()], at any time, then raises
    "Timer is already running" and overwrites nothing. *)
Theorem timer_start_once (tm : Timer.t) (c : Clock) :
  Timer._is_running tm = false ->
  exists tm1 : Timer.t,
    Timer.start (tm, c) = (Ret tt, (tm1, clock_after 0 c))
    /\ Timer._is_running tm1 = true
    /\ Timer._start_time tm1 = Some (next_reading c)
    /\ Timer.duration tm1 = Timer.duration tm
    /\ Timer.countdown_threshold tm1 = Timer.countdown_threshold tm
    /\ forall c2 : Clock,
        Timer.start (tm1, c2)
        = (Raise (RuntimeError "Timer is already running"), (tm1, c2)).
Proof.
  intros Hr. rewrite start_eq, Hr. eexists. split; [reflexivity|].
  do 4 (split; [reflexivity|]). intros c2. rewrite start_eq. reflexivity.
Qed.

(** An instance: a new 30-second timer. *)
Lemma timer_start_once_witness :
  Timer._is_running (Timer.mk 30 5 None false) = false
  /\ exists tm1 : Timer.t,
      Timer.start (Timer.mk 30 5 None false, mkClock 0 0 (fun _ => 0%Q))
      = (Ret tt, (tm1, clock_after 0 (mkClock 0 0 (fun _ => 0%Q))))
      /\ Timer._is_running tm1 = true.
Proof.
  split; [reflexivity|].
  destruct (timer_start_once (Timer.mk 30 5 None false)
              (mkClock 0 0 (fun _ => 0%Q)) eq_refl)
    as (tm1 & H1 & H2 & _).
  exists tm1. split; assumption.
Defined.





(** ** Phase equality *)

Lemma phase_eq_erased (p q : Phase.t) :
  Phase.eq p q = true
  <-> Phase.set_state NOT_STARTED p = Phase.set_state NOT_STARTED q.
Proof.
  unfold Phase.eq, Phase.set_state. rewrite !andb_true_iff, !bool_decide_eq_true.
  destruct p, q; cbn. split.
  - intros [[[-> ->] ->] ->]. reflexivity.
  - intros H. injection H as -> -> -> ->. auto.
Qed.

(** X5. [Phase.__eq__] compares type, duration, instruction and colour and
    nothing else: a phase equals itself in any other state, and two phases
    are equal exactly when they differ at most in their state.  It is
    symmetric and transitive. *)
Theorem phase_eq_ignores_state :
  (forall (p : Phase.t) (s : PhaseState), Phase.eq p (Phase.set_state s p) = true)
  /\ (forall p q : Phase.t,
        Phase.eq p q = true
        <-> (Phase.type p = Phase.type q /\ Phase.duration p = Phase.duration q
             /\ Phase.instruction p = Phase.instruction q
             /\ Phase.color p = Phase.color q))
  /\ (forall p q : Phase.t,
        Phase.eq p q = true
        <-> exists s, q = Phase.set_state s p)
  /\ (forall p q : Phase.t, Phase.eq p q = Phase.eq q p)
  /\ (forall p q r : Phase.t,
        Phase.eq p q = true -> Phase.eq q r = true -> Phase.eq p r = true).
Proof.
  split; [|split; [|split; [|split]]].
  - intros p s. apply phase_eq_erased. reflexivity.
  - intros p q. unfold Phase.eq. rewrite !andb_true_iff, !bool_decide_eq_true.
    tauto.
  - intros p q. split.
    + intros H. apply phase_eq_erased in H. exists (Phase._state q).
      destruct p, q; cbn in *. injection H as -> -> -> ->. reflexivity.
    + intros [s ->]. apply phase_eq_erased. reflexivity.
  - intros p q. apply eq_true_iff_eq. rewrite !phase_eq_erased. split; congruence.
  - intros p q r. rewrite !phase_eq_erased. congruence.
Qed.

(** ** Exercise: start, current phase, completion *)

(** X6. On an exercise reached through its interface, [start()] returns
    exactly when the exercise has not been started (it is new or was
    reset); on a started one, running or completed, it raises a
    [RuntimeError] and changes nothing, the clock included. *)
Theorem start_only_when_fresh (e : Exercise.t) (c : Clock) :
  reachable e ->
  (succeeds Exercise.start (e, c) <-> Exercise._started e = false)
  /\ (Exercise._started e = true ->
      exists msg, Exercise.start (e, c) = (Raise (RuntimeError msg), (e, c)))
  /\ (Exercise._started e = true -> Exercise._completed e = false ->
      Exercise.start (e, c)
      = (Raise (RuntimeError "Exercise already started"), (e, c))).
Proof.
  intros Hr. apply reachable_consistent in Hr. destruct Hr as [Hb Hcase].
  split; [|split].
  - destruct (Exercise._started e) eqn:Hs.
    + destruct (start_started e c Hs) as [msg Hst]. unfold succeeds. rewrite Hst.
      split; [intros [a Ha]; discriminate|discriminate].
    + split; [reflexivity|intros _].
      destruct Hcase as [(_ & Hc & _)|[(i & t0 & Hs' & _)|(Hs' & _)]];
        try congruence.
      destruct (start_fresh e c Hs Hc Hb) as (p0 & rest & _ & Hst).
      unfold succeeds. rewrite Hst. eauto.
  - apply start_started.
  - intros Hs Hc. unfold Exercise.start. unfold_monad. cbn [fst].
    rewrite Hs, Hc. reflexivity.
Qed.

Lemma start_only_when_fresh_witness :
  let e := fst (snd (Exercise.start (Exercise.new (Some ExerciseConfig.default),
                                     mkClock 0 0 (fun _ => 0%Q)))) in
  let c := mkClock 7 1 (fun _ => 0%Q) in
  Exercise._started e = true
  /\ Exercise.start (e, c)
     = (Raise (RuntimeError "Exercise already started"), (e, c)).
Proof.
  cbv zeta. split; [reflexivity|].
  assert (Hr : reachable (fst (snd (Exercise.start
                 (Exercise.new (Some ExerciseConfig.default),
                  mkClock 0 0 (fun _ => 0%Q))))))
    by (apply reach_start, reach_new; exact default_in_bounds).
  exact (proj2 (proj2 (start_only_when_fresh _ (mkClock 7 1 (fun _ => 0%Q)) Hr))
           eq_refl eq_refl).
Defined.


(** X7. On an exercise reached through its interface,
    [get_current_phase()] never raises and changes nothing.  It returns
    [None] exactly when the exercise has not been started or is completed;
    otherwise it returns the phase stored at [current_phase_index], which
    is in progress or in countdown and is, state apart, the phase generated
    for that position. *)
Theorem current_phase_of_reachable (e : Exercise.t) :
  reachable e ->
  snd (Exercise.get_current_phase e) = e
  /\ (fst (Exercise.get_current_phase e) = Ret None
      <-> Exercise._started e = false \/ Exercise._completed e = true)
  /\ (Exercise._started e = true -> Exercise._completed e = false ->
      exists (i : nat) (p : Phase.t),
        Exercise.current_phase_index e = Some i
        /\ Exercise.phases e !! i = Some p
        /\ fst (Exercise.get_current_phase e) = Ret (Some p)
        /\ (Phase._state p = IN_PROGRESS \/ Phase._state p = COUNTDOWN)
        /\ Exercise.described_phases Exercise.label_plain (Exercise.config e) !! i
           = Some (Phase.set_state NOT_STARTED p)).
Proof.
  intros Hr. apply reachable_consistent in Hr. destruct Hr as [Hb Hcase].
  destruct Hcase as [(Hs & Hc & _)|[(i & t0 & Hrun)|(Hs & Hc & _)]].
  - unfold Exercise.get_current_phase. unfold_monad. rewrite Hs. cbn.
    split; [reflexivity|]. split; [tauto|congruence].
  - pose proof Hrun as (Hs & Hc & Hi & He & Hst & p & Hp & _).
    assert (Hg : Exercise.get_current_phase e = (Ret (Some p), e)).
    { unfold Exercise.get_current_phase. unfold_monad. rewrite Hs, Hc, Hi, Hp.
      reflexivity. }
    rewrite Hg. cbn [fst snd]. split; [reflexivity|]. split.
    + split; [discriminate|]. intros [H|H]; congruence.
    + intros _ _. exists i, p. do 3 (split; [assumption || reflexivity|]).
      split; [apply (Hst i p Hp); reflexivity|].
      rewrite <- He. apply erase_lookup. exact Hp.
  - unfold Exercise.get_current_phase. unfold_monad. rewrite Hs, Hc. cbn.
    split; [reflexivity|]. split; [tauto|congruence].
Qed.

(** An instance: the default exercise just started; the current phase is
    the first breathing step, in progress. *)
Lemma current_phase_of_reachable_witness :
  let e := fst (snd (Exercise.start (Exercise.new (Some ExerciseConfig.default),
                                     mkClock 0 0 (fun _ => 0%Q)))) in
  snd (Exercise.get_current_phase e) = e
  /\ fst (Exercise.get_current_phase e)
     = Ret (Some (Phase.mk BREATHING 30 "Breathe" "cyan" IN_PROGRESS)).
Proof.
  cbv zeta.
  assert (Hr : reachable (fst (snd (Exercise.start
                 (Exercise.new (Some ExerciseConfig.default),
                  mkClock 0 0 (fun _ => 0%Q))))))
    by (apply reach_start, reach_new; exact default_in_bounds).
  split; [exact (proj1 (current_phase_of_reachable _ Hr))|reflexivity].
Defined.

(** X8. [is_complete()], documented as "True if all phases are complete",
    returns the [_completed] flag.  On a started exercise reached through
    its interface the two agree: it returns true exactly when every phase
    of the list is [COMPLETED], and exactly when there is no current
    phase. *)
Theorem is_complete_all_completed (e : Exercise.t) :
  reachable e -> Exercise._started e = true ->
  snd (Exercise.is_complete e) = e
  /\ (fst (Exercise.is_complete e) = Ret true
      <-> Forall (fun p => Phase._state p = COMPLETED) (Exercise.phases e))
  /\ (fst (Exercise.is_complete e) = Ret true
      <-> fst (Exercise.get_current_phase e) = Ret None).
Proof.
  intros Hr Hs. apply reachable_consistent in Hr. destruct Hr as [Hb Hcase].
  split; [reflexivity|].
  change (fst (Exercise.is_complete e)) with (@Ret bool (Exercise._completed e)).
  destruct Hcase as [(Hs' & _)|[(i & t0 & Hrun)|(_ & Hc & _ & _ & Hall & _)]].
  - congruence.
  - pose proof Hrun as (_ & Hc & Hi & _ & Hst & p & Hp & _). rewrite Hc. split.
    + split; [discriminate|]. intros HF. rewrite Forall_lookup in HF.
      specialize (HF i p Hp). destruct (proj1 (proj2 (Hst i p Hp)) eq_refl); congruence.
    + unfold Exercise.get_current_phase. unfold_monad. rewrite Hs, Hc, Hi, Hp.
      cbn. split; discriminate.
  - rewrite Hc. split; [tauto|].
    unfold Exercise.get_current_phase. unfold_monad. rewrite Hs, Hc. cbn. tauto.
Qed.

(** An instance: the default exercise just started is not complete, and
    its first phase is not completed. *)
Lemma is_complete_all_completed_witness :
  let e := fst (snd (Exercise.start (Exercise.new (Some ExerciseConfig.default),
                                     mkClock 0 0 (fun _ => 0%Q)))) in
  Exercise._started e = true
  /\ fst (Exercise.is_complete e) = Ret false
  /\ (fst (Exercise.is_complete e) = Ret true
      <-> Forall (fun p => Phase._state p = COMPLETED) (Exercise.phases e)).
Proof.
  cbv zeta.
  assert (Hr : reachable (fst (snd (Exercise.start
                 (Exercise.new (Some ExerciseConfig.default),
                  mkClock 0 0 (fun _ => 0%Q))))))
    by (apply reach_start, reach_new; exact default_in_bounds).
  split; [reflexivity|]. split; [reflexivity|].
  exact (proj1 (proj2 (is_complete_all_completed _ Hr eq_refl))).
Defined.

(** ** Validation: the wrapper and the messages *)

(** X9. [validate_config] never raises: it returns [(True, None)] exactly
    for a configuration within the bounds, and otherwise [(False, msg)]
    where [msg] is the message of the [ValueError] that [validate]
    raised. *)
Theorem validate_config_reports (cfg : ExerciseConfig.t) :
  (validate_config cfg = Ret (true, None) <-> ExerciseConfig.in_bounds cfg)
  /\ (validate_config cfg <> Ret (true, None) ->
      exists msg, validate_config cfg = Ret (false, Some msg)
                  /\ fst (ExerciseConfig.validate cfg) = Raise (ValueError msg))
  /\ (forall ex, validate_config cfg <> Raise ex).
Proof.
  unfold validate_config.
  destruct (validate_cases cfg) as [_ [[Hb Hv]|[Hb [msg Hv]]]]; rewrite Hv.
  - split; [tauto|]. split; [congruence|discriminate].
  - split; [split; [discriminate|contradiction]|].
    split; [intros _; exists msg; auto|discriminate].
Qed.



(** ** The whole run *)




(** [update_display] adds frames and cues to the log and nothing else, in
    whatever state it is called. *)
Lemma update_display_frames (cfg : ExerciseConfig.t) (i : nat) (tm : Timer.t)
    (l : Locals) (w : World) :
  exists evs : list Event,
    display (snd (update_display cfg i tm l w)) = display w ++ evs
    /\ Forall frame_event evs.
Proof.
  unfold update_display. unfold bind at 1. unfold on_exercise at 1.
  destruct (Exercise.on_timer tm Timer.remaining_time (exercise w, clock w))
    as [[r|ex] [e1 c1]]; cbn [snd display].
  2:{ exists []. rewrite app_nil_r. split; [reflexivity|constructor]. }
  destruct (negb (bool_decide (py_int r = last_second l))).
  2:{ exists []. rewrite app_nil_r. split; [reflexivity|constructor]. }
  unfold bind at 1. unfold on_exercise at 1, on_self at 1. cbn [exercise clock display].
  destruct (Exercise.on_phase i get e1) as [[ph|ex] e2]; cbn [snd display].
  2:{ exists []. rewrite app_nil_r. split; [reflexivity|constructor]. }
  unfold emit. unfold_monad. cbn [exercise clock display].
  destruct (ExerciseConfig.audio_enabled cfg
            && ((1 <=? py_int r)
                && (py_int r <=? ExerciseConfig.countdown_beep_threshold cfg))
            && negb (bool_decide (py_int r ∈ countdown_beeps_played l)));
    cbn [fst snd exercise clock display];
    match goal with
    | |- context [if ?b then _ else _] => destruct b
    end; cbn [fst snd exercise clock display]; rewrite <- ?app_assoc;
    eexists; (split; [reflexivity|]); repeat constructor.
Qed.

Section LoopTiming.

Context (cfg : ExerciseConfig.t) (e : Exercise.t) (c : Clock) (d : list Event).
Context (i : nat) (t0 : Q) (p : Phase.t).
Hypothesis Hcfg : Exercise.config e = cfg.
Hypothesis Hb : ExerciseConfig.in_bounds cfg.
Hypothesis Hrun : running_at i t0 e.
Hypothesis Hp : Exercise.phases e !! i = Some p.

(** The clock facts of "check if phase is complete": a phase is left only
    after a reading at or past its deadline. *)
Lemma check_expired_timing (l : Locals) :
  exists (o : outcome loop_ctl) (w' : World) (evs : list Event),
    check_expired cfg i (timer_for cfg p t0) l (mkWorld e c d) = (o, w')
    /\ display w' = d ++ evs /\ Forall frame_event evs
    /\ match o with
       | Ret (Continue l') =>
           running_at i t0 (exercise w')
           \/ exists t0', running_at (i + 1) t0' (exercise w')
                /\ (steady c -> (t0 + inject_Z (Phase.duration p) <= t0')%Q)
       | Ret Break =>
           finished (exercise w')
           /\ Exercise.phases e !! (i + 1)%nat = None
           /\ (t0 + inject_Z (Phase.duration p) <= now (clock w'))%Q
       | Raise ex => ex = RuntimeError "Current phase not complete"
       end.
Proof.
  pose proof (current_timer cfg e i t0 p Hcfg Hrun Hp) as Ht.
  unfold check_expired. unfold bind at 1.
  rewrite (on_timer_query _ e c _ d _ _ Ht (is_expired_timer_for cfg p t0 c)).
  destruct (expired_at p t0 c) eqn:Hex1.
  2:{ unfold sleep. unfold_monad. cbn [exercise clock display].
      eexists _, _, []. rewrite app_nil_r.
      split; [reflexivity|]. split; [reflexivity|]. split; [constructor|].
      left. exact Hrun. }
  assert (Hb' : ExerciseConfig.in_bounds (Exercise.config e)) by (rewrite Hcfg; exact Hb).
  unfold bind at 1. unfold bind at 1. unfold on_exercise at 1.
  cbn [exercise clock display].
  assert (Hdead : expired_at p t0 (clock_after 0 c) = true ->
                  (t0 + inject_Z (Phase.duration p)
                   <= now (clock_after 0 (clock_after 0 c)))%Q).
  { unfold expired_at, next_reading. intros H. apply Qle_bool_iff in H.
    revert H. generalize (now (clock_after 0 (clock_after 0 c))).
    generalize (inject_Z (Phase.duration p)). intros x y H. lra. }
  destruct (advance_running e (clock_after 0 c) i t0 p Hb' Hrun Hp)
    as [[Hex2 Hadv]|[Hex2 (e' & Hcfg' & [(Hadv & Hr' & Hpi & q & Hq)|(Hadv & Hfin)])]];
    rewrite Hadv.
  - eexists _, _, []. rewrite app_nil_r.
    split; [reflexivity|]. split; [reflexivity|]. split; [constructor|].
    reflexivity.
  - cbn [negb]. unfold bind at 1. unfold bind at 1.
    rewrite (get_current_phase_running e' _ d (i + 1) _ q Hr' Hq).
    unfold bind at 1. rewrite (on_phase_get e' _ d i _ Hpi).
    unfold emit, sleep. unfold_monad. cbn [exercise clock display].
    specialize (Hdead Hex2).
    case_bool_decide as Hmode; cbn [exercise clock display];
      eexists _, _, [_]; (split; [reflexivity|]); (split; [reflexivity|]);
      (split; [repeat constructor|]);
      right; eexists; (split; [exact Hr'|]);
      intros Hs; (eapply Qle_trans; [exact Hdead|]);
      apply next_reading_later; exact Hs.
  - cbn [negb]. unfold_monad.
    eexists _, _, []. rewrite app_nil_r.
    split; [reflexivity|]. split; [reflexivity|]. split; [constructor|].
    split; [exact Hfin|]. split; [|cbn [clock]; exact (Hdead Hex2)].
    destruct (Exercise.phases e !! (i + 1)%nat) as [q|] eqn:Hq; [|reflexivity].
    exfalso.
    destruct (running_facts e i t0 Hb' Hrun) as (p' & Hp' & Ht' & Hps & Hpd & Hnext).
    rewrite Hp in Hp'. injection Hp' as <-.
    destruct (Hnext q Hq) as [Hqs Hqd].
    pose proof Hrun as (Hs & Hc & Hi & _).
    assert (Hthr : 0 <= ExerciseConfig.countdown_beep_threshold (Exercise.config e))
      by apply Hb'.
    pose proof (advance_to_next e (clock_after 0 c) i p t0 Hs Hc Hi Hp Ht' Hps q
                  Hex2 Hq Hqs Hqd Hthr) as Hadv'.
    rewrite Hadv in Hadv'. discriminate.
Qed.

End LoopTiming.

(** One iteration on a running exercise: what it shows, and when it leaves
    the phase. *)
Lemma loop_body_timing (cfg : ExerciseConfig.t) (w : World) (i : nat) (t0 : Q)
    (p : Phase.t) (l : Locals) :
  Exercise.config (exercise w) = cfg -> ExerciseConfig.in_bounds cfg ->
  running_at i t0 (exercise w) ->
  Exercise.phases (exercise w) !! i = Some p ->
  exists (o : outcome loop_ctl) (w' : World) (evs : list Event),
    loop_body cfg l w = (o, w')
    /\ display w' = display w ++ evs /\ Forall frame_event evs
    /\ Exercise.config (exercise w') = cfg
    /\ lag (clock w') = lag (clock w)
    /\ match o with
       | Ret (Continue l') =>
           running_at i t0 (exercise w')
           \/ exists t0', running_at (i + 1) t0' (exercise w')
                /\ (steady (clock w) -> (t0 + inject_Z (Phase.duration p) <= t0')%Q)
       | Ret Break =>
           finished (exercise w')
           /\ (length (Exercise.phases (exercise w)) <= i + 1)%nat
           /\ (t0 + inject_Z (Phase.duration p) <= now (clock w'))%Q
       | Raise ex =>
           ex = RuntimeError "Current phase not complete" /\ ~ steady (clock w)
       end.
Proof.
  destruct w as [e c d]. cbn [exercise clock display].
  intros Hcfg Hb Hrun Hp.
  destruct (loop_body_tick cfg (mkWorld e c d) i t0 l Hcfg Hb Hrun)
    as (o & w' & evs & Hlb & Hd & Hcfg' & Hlag & Hstep).
  exists o, w', evs. cbn [exercise clock display] in *.
  split; [exact Hlb|]. split; [exact Hd|].
  pose proof Hrun as (_ & _ & Hi & _).
  pose proof (current_timer cfg e i t0 p Hcfg Hrun Hp) as Ht.
  revert Hlb. unfold loop_body. unfold bind at 1.
  rewrite (get_current_phase_running e c d i t0 p Hrun Hp).
  unfold bind at 1, gets at 1. cbn [exercise]. rewrite Ht.
  unfold bind at 1, gets at 1. cbn [exercise]. rewrite Hi.
  destruct (check_countdown_spec cfg e c d i t0 p Hcfg Hrun Hp)
    as (e1 & c1 & p1 & Hcc & Hcfg1 & Hrun1 & Hp1 & Hdur & _ & Hl1).
  unfold bind at 1. rewrite Hcc.
  assert (Htm : timer_for cfg p t0 = timer_for cfg p1 t0)
    by (unfold timer_for; rewrite Hdur; reflexivity).
  rewrite Htm.
  destruct (update_display_spec cfg e1 c1 d i t0 p1 Hcfg1 Hrun1 Hp1 l)
    as (l2 & evs2 & Hud & _).
  destruct (update_display_frames cfg i (timer_for cfg p1 t0) l (mkWorld e1 c1 d))
    as (evs2' & Hd2 & Hf2).
  rewrite Hud in Hd2. cbn [snd display] in Hd2. apply app_inv_head in Hd2 as <-.
  unfold bind at 1. rewrite Hud.
  destruct (check_expired_timing cfg e1 (clock_after 0 c1) (d ++ evs2) i t0 p1
              Hcfg1 Hb Hrun1 Hp1 l2)
    as (o3 & w3 & evs3 & Hce & Hd3 & Hf3 & Hout).
  rewrite Hce. intros Heq. injection Heq as <- <-.
  assert (Hevs : evs = evs2 ++ evs3).
  { rewrite Hd3, <- app_assoc in Hd. apply app_inv_head in Hd. symmetry. exact Hd. }
  split; [rewrite Hevs; apply Forall_app; split; assumption|].
  split; [exact Hcfg'|]. split; [exact Hlag|].
  assert (Hl2 : later c (clock_after 0 c1)).
  { eapply later_trans; [exact Hl1|]. apply later_after, Qle_refl. }
  destruct o3 as [[|l']|ex].
  - destruct Hout as (Hfin & Hnone & Hdead). split; [exact Hfin|].
    split; [|rewrite <- Hdur; exact Hdead].
    apply lookup_ge_None in Hnone.
    assert (Hlen : length (Exercise.phases e1) = length (Exercise.phases e)).
    { destruct Hrun as (_ & _ & _ & He & _), Hrun1 as (_ & _ & _ & He1 & _).
      rewrite <- (length_map (Phase.set_state NOT_STARTED) (Exercise.phases e1)).
      rewrite <- (length_map (Phase.set_state NOT_STARTED) (Exercise.phases e)).
      fold (erase (Exercise.phases e1)) (erase (Exercise.phases e)).
      rewrite He, He1, Hcfg, Hcfg1. reflexivity. }
    lia.
  - destruct Hout as [Hr'|(t0' & Hr' & Hdead)]; [left; exact Hr'|right].
    exists t0'. split; [exact Hr'|]. intros Hs. rewrite <- Hdur. apply Hdead.
    eapply steady_later; [exact Hl2|exact Hs].
  - split; [exact Hout|].
    inversion Hstep as [| | |l1 ex' w1 Hns _]. exact Hns.
Qed.

(** The main loop on a running exercise: the events it shows, and the time
    at which it ends. *)
Lemma main_loop_run (cfg : ExerciseConfig.t) (fuel : nat) :
  forall (l : Locals) (w : World) (i : nat) (t0 : Q),
    Exercise.config (exercise w) = cfg -> ExerciseConfig.in_bounds cfg ->
    running_at i t0 (exercise w) ->
    exists (o : outcome (option unit)) (w' : World) (evs : list Event),
      main_loop fuel cfg l w = (o, w')
      /\ display w' = display w ++ evs /\ Forall frame_event evs
      /\ match o with
         | Ret (Some _) =>
             finished (exercise w')
             /\ (steady (clock w) ->
                 (t0 + inject_Z (total_duration
                         (drop i (Exercise.described_phases Exercise.label_plain cfg)))
                  <= now (clock w'))%Q)
         | Ret None => True
         | Raise ex =>
             ex = RuntimeError "Current phase not complete" /\ ~ steady (clock w)
         end.
Proof.
  induction fuel as [|fuel IH]; intros l w i t0 Hcfg Hb Hrun.
  - exists (Ret None), w, []. rewrite app_nil_r.
    split; [reflexivity|]. split; [reflexivity|]. split; [constructor|exact I].
  - cbn [main_loop]. unfold bind at 1. rewrite is_complete_world.
    pose proof Hrun as (_ & Hc & _ & _ & _ & p & Hp & _). rewrite Hc.
    pose proof (current_described cfg (exercise w) i t0 p Hcfg Hrun Hp) as Hdesc.
    destruct (loop_body_timing cfg w i t0 p l Hcfg Hb Hrun Hp)
      as (o & w' & evs & Hlb & Hd & Hf & Hcfg' & Hlag & Hout).
    unfold bind at 1. rewrite Hlb.
    assert (Hst : steady (clock w) <-> steady (clock w'))
      by (unfold steady; rewrite Hlag; reflexivity).
    assert (Hdrop : total_duration
                      (drop i (Exercise.described_phases Exercise.label_plain cfg))
                    = Phase.duration p
                      + total_duration
                          (drop (S i)
                             (Exercise.described_phases Exercise.label_plain cfg))).
    { rewrite (drop_S _ _ _ Hdesc). reflexivity. }
    destruct o as [[|l']|ex].
    + exists (Ret (Some tt)), w', evs.
      split; [reflexivity|]. split; [exact Hd|]. split; [exact Hf|].
      destruct Hout as (Hfin & Hlen & Hdead). split; [exact Hfin|]. intros _.
      rewrite Hdrop, drop_ge, Z.add_0_r; [exact Hdead|].
      destruct Hrun as (_ & _ & _ & He & _). rewrite <- Hcfg, <- He.
      unfold erase. rewrite length_map. lia.
    + destruct Hout as [Hr'|(t0' & Hr' & Hdead)].
      * destruct (IH l' w' i t0 Hcfg' Hb Hr') as (o2 & w2 & evs2 & Hml & Hd2 & Hf2 & Hout2).
        exists o2, w2, (evs ++ evs2). split; [exact Hml|].
        split; [rewrite Hd2, Hd, app_assoc; reflexivity|].
        split; [apply Forall_app; split; assumption|].
        destruct o2 as [[[]|]|ex2]; [|exact I|].
        -- destruct Hout2 as [Hfin Ht]. split; [exact Hfin|].
           intros Hs. apply Ht, Hst, Hs.
        -- destruct Hout2 as [Hex Hns]. split; [exact Hex|]. tauto.
      * destruct (IH l' w' (i + 1)%nat t0' Hcfg' Hb Hr')
          as (o2 & w2 & evs2 & Hml & Hd2 & Hf2 & Hout2).
        exists o2, w2, (evs ++ evs2). split; [exact Hml|].
        split; [rewrite Hd2, Hd, app_assoc; reflexivity|].
        split; [apply Forall_app; split; assumption|].
        destruct o2 as [[[]|]|ex2]; [|exact I|].
        -- destruct Hout2 as [Hfin Ht]. split; [exact Hfin|].
           intros Hs. specialize (Hdead Hs). specialize (Ht (proj1 Hst Hs)).
           rewrite Hdrop, inject_Z_plus.
           replace (S i) with (i + 1)%nat by lia.
           revert Hdead Ht.
           generalize (inject_Z (total_duration
                         (drop (i + 1)
                            (Exercise.described_phases Exercise.label_plain cfg)))).
           generalize (inject_Z (Phase.duration p)), (now (clock w2)).
           intros x y z H1 H2. lra.
        -- destruct Hout2 as [Hex Hns]. split; [exact Hex|]. tauto.
    + exists (Raise ex), w', evs.
      split; [reflexivity|]. split; [exact Hd|]. split; [exact Hf|exact Hout].
Qed.










(** X15. However the clock behaves, the main loop entered on a running
    exercise ends normally only with the exercise completed: the [break] on
    a missing phase or timer is never taken, and the block after the loop
    that would advance to the final phase, show it and sleep one second
    never runs. *)
Theorem main_loop_ends_completed (cfg : ExerciseConfig.t) (fuel : nat)
    (l : Locals) (w w' : World) (i : nat) (t0 : Q) :
  Exercise.config (exercise w) = cfg -> ExerciseConfig.in_bounds cfg ->
  running_at i t0 (exercise w) ->
  main_loop fuel cfg l w = (Ret (Some tt), w') ->
  Exercise._completed (exercise w') = true
  /\ Exercise.current_phase_index (exercise w') = None
  /\ Forall (fun p => Phase._state p = COMPLETED) (Exercise.phases (exercise w'))
  /\ exists evs, display w' = display w ++ evs /\ Forall frame_event evs.
Proof.
  intros Hcfg Hb Hrun Hml.
  destruct (main_loop_run cfg fuel l w i t0 Hcfg Hb Hrun)
    as (o & w2 & evs & Hml' & Hd & Hf & Hout).
  rewrite Hml in Hml'. injection Hml' as <- <-.
  destruct Hout as [(_ & Hc & Hi & _ & Hall & _) _].
  split; [exact Hc|]. split; [exact Hi|]. split; [exact Hall|]. eauto.
Qed.

(** An instance: the run of hold 1, one step of 1 second, from the exercise
    just started, on a clock without lag. *)
Lemma main_loop_ends_completed_witness :
  let cfg := ExerciseConfig.mk 1 [1] 0 0 false PLAIN in
  let c := mkClock 0 0 (fun _ => 0%Q) in
  let w := mkWorld (fst (snd (Exercise.start (Exercise.new (Some cfg), c))))
                   (clock_after 0 c) [EvStartLive] in
  fst (main_loop 50 cfg (mkLocals (-1) ∅) w) = Ret (Some tt)
  /\ Exercise._completed
       (exercise (snd (main_loop 50 cfg (mkLocals (-1) ∅) w))) = true.
Proof.
  cbv zeta. split; [vm_compute; reflexivity|].
  assert (Hb : ExerciseConfig.in_bounds (ExerciseConfig.mk 1 [1] 0 0 false PLAIN)).
  { unfold ExerciseConfig.in_bounds. cbn.
    repeat split; try lia; try discriminate. repeat constructor; lia. }
  assert (Hrun : running_at 0 (next_reading (mkClock 0 0 (fun _ => 0%Q)))
                   (fst (snd (Exercise.start
                      (Exercise.new (Some (ExerciseConfig.mk 1 [1] 0 0 false PLAIN)),
                       mkClock 0 0 (fun _ => 0%Q)))))).
  { destruct (start_running _ (mkClock 0 0 (fun _ => 0%Q)) Hb)
      as (e1 & Hst & _ & Hrun). rewrite Hst. exact Hrun. }
  refine (proj1 (main_loop_ends_completed _ 50 (mkLocals (-1) ∅)
                   (mkWorld _ _ [EvStartLive]) _ 0 _ _ Hb Hrun _)).
  - reflexivity.
  - rewrite (surjective_pairing (main_loop _ _ _ _)) at 1. f_equal.
    vm_compute. reflexivity.
Defined.

(** ** Parsing the steps argument *)

Lemma str_all_impl (f g : ascii -> bool) (s : string) :
  (forall a, f a = true -> g a = true) -> str_all f s = true -> str_all g s = true.
Proof.
  intros Hfg. induction s as [|a s IH]; [reflexivity|]. cbn.
  intros H. apply andb_true_iff in H as [Ha Hs].
  rewrite (Hfg a Ha), (IH Hs). reflexivity.
Qed.

Lemma int_rstrip_nospace (s : string) :
  str_all (fun a => negb (int_isspace a)) s = true -> int_rstrip s = s.
Proof.
  induction s as [|a s IH]; [reflexivity|]. cbn [str_all int_rstrip].
  intros H. apply andb_true_iff in H as [Ha Hs]. rewrite (IH Hs).
  apply negb_true_iff in Ha. rewrite Ha. destruct s; reflexivity.
Qed.

Lemma int_strip_nospace (s : string) :
  str_all (fun a => negb (int_isspace a)) s = true ->
  int_rstrip (int_lstrip s) = s.
Proof.
  intros H. assert (Hl : int_lstrip s = s).
  { destruct s as [|a s]; [reflexivity|]. cbn in *.
    apply andb_true_iff in H as [Ha _]. apply negb_true_iff in Ha.
    rewrite Ha. reflexivity. }
  rewrite Hl. apply int_rstrip_nospace. exact H.
Qed.

Lemma digit_not_space (a : ascii) :
  is_digit a = true -> negb (int_isspace a) = true.
Proof.
  destruct a as [[] [] [] [] [] [] [] []]; vm_compute; congruence.
Qed.

Lemma pretty_N_char_value (m : N) :
  (m < 10)%N -> digit_value (pretty_N_char m) = Some (Z.of_N m).
Proof.
  intros H.
  assert (m = 0 \/ m = 1 \/ m = 2 \/ m = 3 \/ m = 4 \/ m = 5 \/ m = 6 \/ m = 7
          \/ m = 8 \/ m = 9)%N as Hm by lia.
  repeat (destruct Hm as [->|Hm]; [reflexivity|]). subst. reflexivity.
Qed.

Lemma pretty_N_go_digits (x : N) :
  forall s, str_all is_digit s = true -> str_all is_digit (pretty_N_go x s) = true.
Proof.
  induction (N.lt_wf_0 x) as [x _ IH]. intros s Hs.
  destruct (N.eq_dec x 0%N) as [->|Hx]; [rewrite pretty_N_go_0; exact Hs|].
  rewrite pretty_N_go_step by lia.
  apply IH; [apply N.div_lt; lia|]. cbn [str_all]. rewrite Hs, andb_true_r.
  unfold is_digit. rewrite pretty_N_char_value; [reflexivity|].
  apply N.mod_lt. lia.
Qed.

Lemma int_digits_pretty_N_go (x : N) :
  forall s, (0 < x)%N ->
    int_digits 0 false (pretty_N_go x s) = int_digits (Z.of_N x) true s.
Proof.
  induction (N.lt_wf_0 x) as [x _ IH]. intros s Hx.
  rewrite pretty_N_go_step by exact Hx.
  assert (Hc : digit_value (pretty_N_char (x `mod` 10)%N) = Some (Z.of_N (x `mod` 10)%N))
    by (apply pretty_N_char_value, N.mod_lt; lia).
  assert (Hdm : x = (10 * (x `div` 10) + x `mod` 10)%N) by (apply N.div_mod; lia).
  destruct (N.eq_dec (x `div` 10)%N 0%N) as [H0|H0].
  - rewrite H0, pretty_N_go_0. cbn [int_digits]. rewrite Hc.
    f_equal. rewrite H0 in Hdm. rewrite Hdm at 2. rewrite N.mul_0_r. reflexivity.
  - rewrite IH; [|apply N.div_lt; lia|apply N.neq_0_lt_0; exact H0].
    cbn [int_digits]. rewrite Hc. f_equal.
    rewrite Hdm at 3. rewrite N2Z.inj_add, N2Z.inj_mul. reflexivity.
Qed.

Lemma py_int_str_digits (s : string) (n : Z) :
  str_all is_digit s = true -> int_digits 0 false s = Some n ->
  py_int_str s = Ret n /\ py_int_str (String "-" s) = Ret (- n).
Proof.
  intros Hd Hn.
  assert (Hsp : str_all (fun a => negb (int_isspace a)) s = true)
    by (eapply str_all_impl; [apply digit_not_space|exact Hd]).
  split.
  - unfold py_int_str. rewrite (int_strip_nospace s Hsp).
    destruct s as [|a r]; [discriminate|].
    cbn [str_all] in Hd. apply andb_true_iff in Hd as [Ha _].
    assert (Ascii.eqb a "-" = false /\ Ascii.eqb a "+" = false) as [-> ->].
    { revert Ha. clear. destruct a as [[] [] [] [] [] [] [] []]; vm_compute;
        intros; split; congruence. }
    rewrite Hn. reflexivity.
  - unfold py_int_str.
    rewrite (int_strip_nospace (String "-" s))
      by (cbn [str_all]; rewrite Hsp; reflexivity).
    cbn [Ascii.eqb Bool.eqb]. rewrite Hn. reflexivity.
Qed.

(** [int(str(d))] is [d]. *)
Lemma py_int_str_pretty (d : Z) : py_int_str (pretty d) = Ret d.
Proof.
  assert (Hpos : forall p : positive,
    str_all is_digit (pretty (N.pos p)) = true
    /\ int_digits 0 false (pretty (N.pos p)) = Some (Z.pos p)).
  { intros p. unfold pretty, pretty_N. case_decide; [discriminate|]. split.
    - apply pretty_N_go_digits. reflexivity.
    - rewrite int_digits_pretty_N_go by lia. reflexivity. }
  destruct d as [|p|p].
  - reflexivity.
  - destruct (Hpos p) as [H1 H2]. apply (py_int_str_digits _ _ H1 H2).
  - destruct (Hpos p) as [H1 H2].
    change (pretty (Z.neg p)) with (String "-" (pretty (N.pos p))).
    apply (py_int_str_digits _ _ H1 H2).
Qed.

Lemma pretty_Z_nonempty (d : Z) : pretty d <> EmptyString.
Proof.
  intros H. pose proof (py_int_str_pretty d) as Hp. rewrite H in Hp. discriminate.
Qed.

Lemma py_lstrip_blank (s : string) :
  py_lstrip s = EmptyString -> py_split_comma s = [s].
Proof.
  induction s as [|a s IH]; [reflexivity|]. cbn [py_lstrip py_split_comma].
  destruct (py_isspace a) eqn:Ha; [|discriminate]. intros H.
  assert (Ascii.eqb a "," = false) as ->.
  { revert Ha. clear. destruct a as [[] [] [] [] [] [] [] []]; vm_compute; congruence. }
  rewrite (IH H). reflexivity.
Qed.

Lemma py_rstrip_nonblank (a : ascii) (r : string) :
  py_isspace a = false -> py_rstrip (String a r) <> EmptyString.
Proof.
  intros Ha. cbn [py_rstrip]. rewrite Ha. destruct (py_rstrip r); discriminate.
Qed.

Lemma py_strip_blank (s : string) :
  py_strip s = EmptyString -> py_split_comma s = [s].
Proof.
  intros H. apply py_lstrip_blank. unfold py_strip in H.
  destruct s as [|a s]; [reflexivity|]. cbn [py_lstrip] in *.
  destruct (py_isspace a) eqn:Ha.
  - destruct (py_lstrip s) as [|b t] eqn:E; [reflexivity|]. exfalso.
    assert (Hb : py_isspace b = false).
    { clear H. revert E. clear. induction s as [|c s IH]; [discriminate|].
      cbn [py_lstrip]. destruct (py_isspace c) eqn:Hc; [exact IH|].
      intros [= -> _]. exact Hc. }
    apply (py_rstrip_nonblank b t Hb H).
  - exfalso. apply (py_rstrip_nonblank a s Ha H).
Qed.

(** The loop over the parts, when every part is an integer literal. *)
Lemma parse_parts_ok (steps : string) (parts : list string) (ds : list Z) :
  Forall2 (fun part d => py_strip part = pretty d) parts ds ->
  forall (i : Z) (acc : list Z),
    parse_parts steps i parts acc = Ret (acc ++ ds).
Proof.
  induction 1 as [|part d parts ds Hp _ IH]; intros i acc.
  - cbn. rewrite app_nil_r. reflexivity.
  - cbn [parse_parts]. rewrite Hp.
    destruct (pretty d) eqn:E; [destruct (pretty_Z_nonempty d E)|].
    rewrite <- E, py_int_str_pretty, IH, <- app_assoc. reflexivity.
Qed.


Lemma steps_not_blank (steps : string) (parts : list string) (part : string) :
  py_split_comma steps = parts -> part ∈ parts -> py_strip part <> EmptyString ->
  steps <> EmptyString /\ py_strip steps <> EmptyString.
Proof.
  intros Hs Hin Hne. split.
  - intros ->. cbn in Hs. subst parts. apply list_elem_of_singleton in Hin.
    subst part. apply Hne. reflexivity.
  - intros Hb. rewrite (py_strip_blank steps Hb) in Hs. subst parts.
    apply list_elem_of_singleton in Hin. subst part. contradiction.
Qed.

Lemma from_cli_args_not_blank (hold : Z) (steps : string) (countdown preparation : Z)
    (tui : bool) (audio : string) :
  steps <> EmptyString -> py_strip steps <> EmptyString ->
  from_cli_args hold steps countdown preparation tui audio
  = match parse_parts steps 0 (py_split_comma steps) [] with
    | Raise (ValueError msg) =>
        if py_in STEPS_FORMAT_MARK msg || py_in STEPS_EMPTY_MARK msg
        then Raise (ValueError msg)
        else Raise (ValueError
               ("Invalid steps format '" +:+ steps
                +:+ "'. Must be comma-separated positive integers (e.g., '30,20,10')"))
    | Raise e => Raise e
    | Ret step_durations =>
        ExerciseConfig.new hold step_durations countdown preparation
          (String.eqb (py_lower audio) "beep") (if tui then TUI else PLAIN)
    end.
Proof.
  intros H1 H2. unfold from_cli_args.
  destruct steps as [|a r]; [contradiction|].
  destruct (py_strip (String a r)); [contradiction|reflexivity].
Qed.

(** X16. Parsing inverts printing: when the [steps] text splits at its
    commas into parts that, blanks around them apart, are the decimal
    renderings of the integers [ds], [from_cli_args] builds exactly
    [ExerciseConfig(hold, ds, countdown, preparation, audio_enabled,
    display_mode)], validation included, with audio enabled exactly when
    [audio] is "beep" in any letter case, and the TUI mode exactly when
    [tui] is set.  The text is kept below the interpreter's cap on the digits
    of an integer literal. *)
Theorem from_cli_args_parses (hold : Z) (steps : string)
    (countdown preparation : Z) (tui : bool) (audio : string) (ds : list Z) :
  Forall2 (fun part d => py_strip part = pretty d) (py_split_comma steps) ds ->
  (String.length steps <= 4300)%nat ->
  from_cli_args hold steps countdown preparation tui audio
  = ExerciseConfig.new hold ds countdown preparation
      (String.eqb (py_lower audio) "beep") (if tui then TUI else PLAIN).
Proof.
  intros HF _.
  assert (Hne : steps <> EmptyString /\ py_strip steps <> EmptyString).
  { destruct (py_split_comma steps) as [|part parts] eqn:Es.
    - destruct steps as [|a r]; [discriminate|]. cbn in Es.
      destruct (Ascii.eqb a ","); [discriminate|].
      destruct (py_split_comma r); discriminate.
    - inversion HF as [|? d ? ds' Hp _]; subst.
      apply (steps_not_blank steps _ part Es); [left|].
      rewrite Hp. apply pretty_Z_nonempty. }
  destruct Hne as [H1 H2].
  rewrite (from_cli_args_not_blank _ _ _ _ _ _ H1 H2).
  rewrite (parse_parts_ok steps _ ds HF 0 []). reflexivity.
Qed.

(** An instance: padded parts and an upper-case audio word. *)
Lemma from_cli_args_parses_witness :
  from_cli_args 60 " 30, 20 ,10" 5 0 false "BEEP"
  = Ret (ExerciseConfig.mk 60 [30; 20; 10] 5 0 true PLAIN).
Proof.
  apply (from_cli_args_parses 60 " 30, 20 ,10" 5 0 false "BEEP" [30; 20; 10]).
  - repeat constructor.
  - vm_compute. lia.
Defined.

Lemma validate_config_in_bounds (cfg : ExerciseConfig.t) :
  ExerciseConfig.in_bounds cfg -> validate_config cfg = Ret (true, None).
Proof.
  intros Hb. unfold validate_config.
  destruct (validate_cases cfg) as [_ [[_ ->]|[Hn _]]]; [reflexivity|contradiction].
Qed.

Lemma parse_parts_cases (steps : string) (parts : list string) :
  forall (i : Z) (acc : list Z),
    (exists ds, parse_parts steps i parts acc = Ret (acc ++ ds)
                /\ Forall2 (fun part d => py_int_str (py_strip part) = Ret d) parts ds)
    \/ (exists msg, parse_parts steps i parts acc = Raise (ValueError msg)).
Proof.
  induction parts as [|part parts IH]; intros i acc.
  - left. exists []. rewrite app_nil_r. split; [reflexivity|constructor].
  - cbn [parse_parts]. destruct (py_strip part) as [|a r] eqn:Ep; [right; eauto|].
    destruct (py_int_str (String a r)) as [n|e] eqn:En.
    + destruct (IH (i + 1) (acc ++ [n])) as [(ds & Hp & HF)|[msg Hp]].
      * left. exists (n :: ds). rewrite Hp, <- app_assoc. split; [reflexivity|].
        constructor; [rewrite Ep; exact En|exact HF].
      * right. eauto.
    + right. unfold py_int_str in En.
      destruct (match int_rstrip (int_lstrip (String a r)) with
                | EmptyString => None
                | String a0 r0 =>
                    if Ascii.eqb a0 "-" then option_map Z.opp (int_digits 0 false r0)
                    else if Ascii.eqb a0 "+" then int_digits 0 false r0
                    else int_digits 0 false (int_rstrip (int_lstrip (String a r)))
                end); [discriminate|].
      injection En as <-. eauto.
Qed.

(** X17. Whatever its arguments, [from_cli_args] either raises a
    [ValueError] or returns a configuration that is within the bounds, so
    that [validate_config] answers [(True, None)] on it.  The configuration
    has the given hold, countdown and preparation values, the TUI mode
    exactly when [tui] is set, audio enabled exactly when [audio] is "beep"
    in any letter case, and one step per comma-separated part of [steps]:
    the integer that the part, blanks apart, denotes. *)
Theorem from_cli_args_validated (hold : Z) (steps : string)
    (countdown preparation : Z) (tui : bool) (audio : string) :
  (forall cfg : ExerciseConfig.t,
      from_cli_args hold steps countdown preparation tui audio = Ret cfg ->
      ExerciseConfig.in_bounds cfg
      /\ validate_config cfg = Ret (true, None)
      /\ ExerciseConfig.hold_duration cfg = hold
      /\ ExerciseConfig.countdown_beep_threshold cfg = countdown
      /\ ExerciseConfig.preparation_duration cfg = preparation
      /\ ExerciseConfig.display_mode cfg = (if tui then TUI else PLAIN)
      /\ (ExerciseConfig.audio_enabled cfg = true <-> py_lower audio = "beep"%string)
      /\ Forall2 (fun part d => py_int_str (py_strip part) = Ret d)
                 (py_split_comma steps) (ExerciseConfig.step_durations cfg))
  /\ (forall e : exn,
      from_cli_args hold steps countdown preparation tui audio = Raise e ->
      exists msg, e = ValueError msg).
Proof.
  assert (Hnew : forall ds,
    match ExerciseConfig.new hold ds countdown preparation
            (String.eqb (py_lower audio) "beep") (if tui then TUI else PLAIN) with
    | Ret cfg =>
        cfg = ExerciseConfig.mk hold ds countdown preparation
                (String.eqb (py_lower audio) "beep") (if tui then TUI else PLAIN)
        /\ ExerciseConfig.in_bounds cfg
    | Raise e => exists msg, e = ValueError msg
    end).
  { intros ds. unfold ExerciseConfig.new.
    destruct (validate_cases (ExerciseConfig.mk hold ds countdown preparation
                (String.eqb (py_lower audio) "beep") (if tui then TUI else PLAIN)))
      as [_ [[Hb ->]|[_ [msg ->]]]]; eauto. }
  unfold from_cli_args.
  destruct steps as [|a r]; [split; [discriminate|intros e [= <-]; eauto]|].
  destruct (py_strip (String a r)) as [|b t];
    [split; [discriminate|intros e [= <-]; eauto]|].
  destruct (parse_parts_cases (String a r) (py_split_comma (String a r)) 0 [])
    as [(ds & -> & HF)|[msg ->]].
  - cbn [app]. specialize (Hnew ds).
    destruct (ExerciseConfig.new _ _ _ _ _ _) as [cfg|e].
    + destruct Hnew as [-> Hb]. split; [|discriminate].
      intros cfg [= <-]. split; [exact Hb|].
      split; [apply validate_config_in_bounds; exact Hb|].
      do 4 (split; [reflexivity|]). split; [|exact HF].
      cbn [ExerciseConfig.audio_enabled]. apply String.eqb_eq.
    + split; [discriminate|]. intros e' [= <-]. exact Hnew.
  - destruct (py_in STEPS_FORMAT_MARK msg || py_in STEPS_EMPTY_MARK msg);
      (split; [discriminate|intros e [= <-]; eauto]).
Qed.















(** ** Every phase change is announced *)

Lemma py_int_below_one (x : Q) : (x < 1)%Q -> py_int (py_max 0 x) = 0.
Proof.
  intros Hx. unfold py_max. destruct (Qlt_bool 0 x) eqn:E.
  - apply Qlt_bool_iff in E. unfold py_int.
    assert (H0 : Qle_bool 0 x = true) by (apply Qle_bool_iff; lra).
    rewrite H0.
    pose proof (Qfloor_le x) as H1. pose proof (Qlt_floor x) as H2.
    pose proof (Qfloor_resp_le 0 x ltac:(lra)) as H3.
    change (Qfloor 0) with 0 in H3.
    assert (H4 : (inject_Z (Qfloor x) < inject_Z 1)%Q).
    { change (inject_Z 1) with 1%Q. lra. }
    rewrite <- Zlt_Qlt in H4. lia.
  - reflexivity.
Qed.

Section LoopCues.

Context (cfg : ExerciseConfig.t) (e : Exercise.t) (c : Clock) (d : list Event).
Context (i : nat) (t0 : Q) (p : Phase.t).
Hypothesis Hcfg : Exercise.config e = cfg.
Hypothesis Hb : ExerciseConfig.in_bounds cfg.
Hypothesis Hrun : running_at i t0 e.
Hypothesis Hp : Exercise.phases e !! i = Some p.
Hypothesis Haudio : ExerciseConfig.audio_enabled cfg = true.
Hypothesis Hnc : Phase.instruction p <> "Complete"%string.


End LoopCues.

Lemma expired_means_zero (p : Phase.t) (t0 : Q) (c : Clock) :
  prompt c -> expired_at p t0 (clock_after 0 c) = true ->
  py_int (py_max 0 (inject_Z (Phase.duration p) - (next_reading c - t0))) = 0.
Proof.
  intros Hpr Hex. apply py_int_below_one.
  unfold expired_at in Hex. apply Qle_bool_iff in Hex.
  unfold next_reading, clock_after in *. cbn [now reads lag] in *.
  specialize (Hpr (S (reads c))).
  revert Hex Hpr. generalize (inject_Z (Phase.duration p)), (now c), (lag c (reads c)),
    (lag c (S (reads c))).
  intros x y z u H1 H2. lra.
Qed.

Lemma cues_app (evs evs' : list Event) : cues (evs ++ evs') = cues evs ++ cues evs'.
Proof. unfold cues. apply omap_app. Qed.






(** ** The countdown shown for a phase *)

Section EmitsOnly.

Context (P : Event -> Prop).






End EmitsOnly.





Lemma seconds_left_floor (p : Phase.t) (t0 t : Q) :
  seconds_left p t0 t = Qfloor (py_max 0 (inject_Z (Phase.duration p) - (t - t0)))
  /\ (0 <= py_max 0 (inject_Z (Phase.duration p) - (t - t0)))%Q.
Proof.
  unfold seconds_left, py_int.
  set (x := (inject_Z (Phase.duration p) - (t - t0))%Q).
  assert (H : (0 <= py_max 0 x)%Q).
  { unfold py_max. destruct (Qlt_bool 0 x) eqn:E; [|apply Qle_refl].
    apply Qlt_bool_iff in E. apply Qlt_le_weak. exact E. }
  split; [|exact H]. apply Qle_bool_iff in H. rewrite H. reflexivity.
Qed.

Lemma py_max_mono (x y : Q) : (x <= y)%Q -> (py_max 0 x <= py_max 0 y)%Q.
Proof.
  intros H. unfold py_max.
  destruct (Qlt_bool 0 x) eqn:Ex, (Qlt_bool 0 y) eqn:Ey.
  - exact H.
  - apply Qlt_bool_iff in Ex. apply Qlt_bool_false_iff in Ey. lra.
  - apply Qlt_bool_iff in Ey. lra.
  - apply Qle_refl.
Qed.

Lemma seconds_left_mono (p : Phase.t) (t0 t t' : Q) :
  (t <= t')%Q -> seconds_left p t0 t' <= seconds_left p t0 t.
Proof.
  intros H. rewrite (proj1 (seconds_left_floor p t0 t)),
    (proj1 (seconds_left_floor p t0 t')).
  apply Qfloor_resp_le, py_max_mono.
  revert H. generalize (inject_Z (Phase.duration p)). intros x H. lra.
Qed.


Section LoopShows.

Context (cfg : ExerciseConfig.t) (e : Exercise.t) (c : Clock) (d : list Event).
Context (i : nat) (t0 : Q) (p : Phase.t).
Hypothesis Hcfg : Exercise.config e = cfg.
Hypothesis Hb : ExerciseConfig.in_bounds cfg.
Hypothesis Hrun : running_at i t0 e.
Hypothesis Hp : Exercise.phases e !! i = Some p.


End LoopShows.

Lemma seconds_left_same (p q : Phase.t) (t0 t : Q) :
  Phase.duration p = Phase.duration q -> seconds_left p t0 t = seconds_left q t0 t.
Proof. intros H. unfold seconds_left. rewrite H. reflexivity. Qed.







(** ** Every second of the countdown is cued *)

Lemma quick_steady (c : Clock) : quick c -> steady c.
Proof. intros H n. apply H. Qed.

Lemma quick_prompt (c : Clock) : quick c -> prompt c.
Proof. intros H n. destruct (H n) as [_ Hn]. lra. Qed.

Lemma quick_after (d : Q) (c : Clock) :
  quick c ->
  quick (clock_after d c)
  /\ (now c + d <= now (clock_after d c))%Q
  /\ (now (clock_after d c) <= now c + d + (1 # 10))%Q.
Proof.
  intros H. split; [exact H|]. destruct (H (reads c)) as [H1 H2].
  cbn [clock_after now]. split; lra.
Qed.

Lemma Qfloor_lower (k : Z) (x : Q) : (inject_Z k <= x)%Q -> k <= Qfloor x.
Proof. intros H. rewrite <- (Qfloor_Z k). apply Qfloor_resp_le. exact H. Qed.

Lemma seconds_left_start (q : Phase.t) (t0 t : Q) (k : Z) :
  (t - t0 <= inject_Z k)%Q -> Phase.duration q - k <= seconds_left q t0 t.
Proof.
  intros H. destruct (seconds_left_floor q t0 t) as [-> _].
  apply Qfloor_lower. unfold Z.sub. rewrite inject_Z_plus, inject_Z_opp.
  set (x := (inject_Z (Phase.duration q) - (t - t0))%Q).
  assert (Hx : (inject_Z (Phase.duration q) + - inject_Z k <= x)%Q).
  { unfold x. revert H. generalize (inject_Z (Phase.duration q)), (inject_Z k).
    intros u v H. lra. }
  eapply Qle_trans; [exact Hx|]. unfold py_max.
  destruct (Qlt_bool 0 x) eqn:E; [apply Qle_refl|].
  apply Qlt_bool_false_iff in E. exact E.
Qed.

Lemma seconds_left_step (q : Phase.t) (t0 t t' : Q) :
  (t' <= t + 1)%Q -> seconds_left q t0 t - 1 <= seconds_left q t0 t'.
Proof.
  intros H. destruct (seconds_left_floor q t0 t) as [-> H0].
  destruct (seconds_left_floor q t0 t') as [-> H0'].
  apply Qfloor_lower. unfold Z.sub. rewrite inject_Z_plus.
  change (inject_Z (- (1))) with (- (1))%Q.
  set (x := (inject_Z (Phase.duration q) - (t - t0))%Q) in *.
  set (x' := (inject_Z (Phase.duration q) - (t' - t0))%Q) in *.
  assert (Hx : (x - 1 <= x')%Q).
  { unfold x, x'. revert H. generalize (inject_Z (Phase.duration q)). intros u H. lra. }
  pose proof (Qfloor_le (py_max 0 x)) as Hf.
  assert (Hm : (py_max 0 x - 1 <= py_max 0 x')%Q).
  { unfold py_max. destruct (Qlt_bool 0 x) eqn:E, (Qlt_bool 0 x') eqn:E'.
    - exact Hx.
    - apply Qlt_bool_false_iff in E'. lra.
    - apply Qlt_bool_iff in E'. lra.
    - lra. }
  revert Hf Hm. generalize (inject_Z (Qfloor (py_max 0 x))), (py_max 0 x), (py_max 0 x').
  intros a b c' H1 H2. lra.
Qed.

Section LoopClock.

Context (cfg : ExerciseConfig.t) (e : Exercise.t) (c : Clock) (d : list Event).
Context (i : nat) (t0 : Q) (p : Phase.t).
Hypothesis Hcfg : Exercise.config e = cfg.
Hypothesis Hb : ExerciseConfig.in_bounds cfg.
Hypothesis Hrun : running_at i t0 e.
Hypothesis Hp : Exercise.phases e !! i = Some p.

(** "Check for countdown transition" reads the clock once at most. *)
Lemma check_countdown_clock :
  exists (e1 : Exercise.t) (c1 : Clock) (p1 : Phase.t),
    check_countdown i (timer_for cfg p t0) (mkWorld e c d)
    = (Ret tt, mkWorld e1 c1 d)
    /\ Exercise.config e1 = cfg
    /\ running_at i t0 e1
    /\ Exercise.phases e1 !! i = Some p1
    /\ Phase.duration p1 = Phase.duration p
    /\ (c1 = c \/ c1 = clock_after 0 c).
Proof.
  pose proof (current_timer cfg e i t0 p Hcfg Hrun Hp) as Ht.
  destruct (in_countdown_timer_for cfg p t0 c) as (b & c1 & Hic & Hc1).
  unfold check_countdown. unfold bind at 1.
  rewrite (on_timer_query _ e c c1 d _ b Ht Hic).
  destruct b.
  2:{ exists e, c1, p. unfold_monad.
      repeat (split; [first [assumption|reflexivity]|]). exact Hc1. }
  unfold bind at 1. rewrite (on_phase_gets _ e c1 d i p Hp).
  unfold Phase.is_in_progress. case_bool_decide as Hst.
  2:{ exists e, c1, p. unfold_monad.
      repeat (split; [first [assumption|reflexivity]|]). exact Hc1. }
  unfold on_exercise, on_self. simpl.
  rewrite (enter_countdown_current e i p Hp), Hst. simpl.
  eexists _, c1, (Phase.set_state COUNTDOWN p). split; [reflexivity|].
  split; [exact Hcfg|]. split; [apply running_enter_countdown; assumption|].
  split; [|split; [reflexivity|exact Hc1]].
  simpl. apply list_lookup_insert_eq. eapply lookup_lt_Some; eassumption.
Qed.

(** "Check if phase is complete" with its clock: an iteration that stays
    in the phase reads once and sleeps a tenth; one that moves on has
    started the next timer two tenths ago at most, the pause of the plain
    mode apart. *)
Lemma check_expired_clock (l : Locals) :
  exists (o : outcome loop_ctl) (w' : World) (evs : list Event),
    check_expired cfg i (timer_for cfg p t0) l (mkWorld e c d) = (o, w')
    /\ display w' = d ++ evs /\ cues evs = []
    /\ match o with
       | Ret (Continue l') =>
           (l' = l /\ exercise w' = e
            /\ clock w' = clock_after (1 # 10) (clock_after 0 c))
           \/ (l' = mkLocals (-1) ∅
               /\ expired_at p t0 c = true
               /\ exists t0',
                   running_at (i + 1) t0' (exercise w')
                   /\ (quick c ->
                       (t0' <= now (clock w'))%Q
                       /\ (now (clock w') + (2 # 10)
                           <= t0' + inject_Z (slack cfg))%Q))
       | Ret Break => expired_at p t0 c = true
       | Raise _ => True
       end.
Proof.
  pose proof (current_timer cfg e i t0 p Hcfg Hrun Hp) as Ht.
  unfold check_expired. unfold bind at 1.
  rewrite (on_timer_query _ e c _ d _ _ Ht (is_expired_timer_for cfg p t0 c)).
  destruct (expired_at p t0 c) eqn:Hex1.
  2:{ unfold sleep. unfold_monad. cbn [exercise clock display].
      eexists _, _, []. rewrite app_nil_r.
      split; [reflexivity|]. split; [reflexivity|]. split; [reflexivity|].
      left. split; [reflexivity|]. split; reflexivity. }
  assert (Hb' : ExerciseConfig.in_bounds (Exercise.config e)) by (rewrite Hcfg; exact Hb).
  unfold bind at 1. unfold bind at 1. unfold on_exercise at 1.
  cbn [exercise clock display].
  destruct (advance_running e (clock_after 0 c) i t0 p Hb' Hrun Hp)
    as [[Hex2 Hadv]|[Hex2 (e' & Hcfg' & [(Hadv & Hr' & Hpi & q & Hq)|(Hadv & Hfin)])]];
    rewrite Hadv.
  - eexists _, _, []. rewrite app_nil_r.
    split; [reflexivity|]. split; [reflexivity|]. split; [reflexivity|exact I].
  - cbn [negb]. unfold bind at 1. unfold bind at 1.
    rewrite (get_current_phase_running e' _ d (i + 1) _ q Hr' Hq).
    unfold bind at 1. rewrite (on_phase_get e' _ d i _ Hpi).
    unfold emit, sleep. unfold_monad. cbn [exercise clock display].
    set (c3 := clock_after 0 (clock_after 0 (clock_after 0 c))).
    assert (Ht3 : next_reading (clock_after 0 (clock_after 0 c)) = now c3)
      by reflexivity.
    assert (Hq3 : quick c -> quick c3) by (intros H; exact H).
    unfold slack.
    case_bool_decide as Hmode; cbn [exercise clock display];
      eexists _, _, [_]; (split; [reflexivity|]); (split; [reflexivity|]);
      (split; [reflexivity|]);
      right; (split; [reflexivity|]); (split; [reflexivity|]);
      eexists; (split; [exact Hr'|]); rewrite Ht3; intros Hqk; cbn [clock].
    + destruct (quick_after timing_config.TRANSITION_PAUSE c3 (Hq3 Hqk))
        as (Hq4 & Hlo4 & Hhi4).
      destruct (quick_after timing_config.LOOP_SLEEP_INTERVAL _ Hq4)
        as (_ & Hlo5 & Hhi5).
      unfold timing_config.TRANSITION_PAUSE, timing_config.LOOP_SLEEP_INTERVAL in *.
      change (inject_Z 2) with 2%Q.
      revert Hlo4 Hhi4 Hlo5 Hhi5.
      generalize (now (clock_after (1 # 10) (clock_after 1 c3))),
        (now (clock_after 1 c3)), (now c3).
      intros x y z H1 H2 H3 H4. split; lra.
    + destruct (quick_after timing_config.LOOP_SLEEP_INTERVAL c3 (Hq3 Hqk))
        as (_ & Hlo5 & Hhi5).
      unfold timing_config.LOOP_SLEEP_INTERVAL in *.
      change (inject_Z 1) with 1%Q.
      revert Hlo5 Hhi5.
      generalize (now (clock_after (1 # 10) c3)), (now c3).
      intros x z H3 H4. split; lra.
  - cbn [negb]. unfold_monad.
    eexists _, _, []. rewrite app_nil_r.
    split; [reflexivity|]. split; [reflexivity|]. split; [reflexivity|reflexivity].
Qed.

Hypothesis Haudio : ExerciseConfig.audio_enabled cfg = true.

(** "Update display" with audio on: a second shown for the first time,
    within the threshold and not yet consumed, gets its cue; what the
    iteration consumes is that second. *)
Lemma update_display_cues (l : Locals) :
  exists (l' : Locals) (evs : list Event),
    update_display cfg i (timer_for cfg p t0) l (mkWorld e c d)
    = (Ret l', mkWorld e (clock_after 0 c) (d ++ evs))
    /\ last_second l' = seconds_left p t0 (next_reading c)
    /\ (seconds_left p t0 (next_reading c) = last_second l -> l' = l)
    /\ (forall x, x ∈ countdown_beeps_played l' ->
                  x ∈ countdown_beeps_played l
                  \/ x = seconds_left p t0 (next_reading c))
    /\ (seconds_left p t0 (next_reading c) <> last_second l ->
        1 <= seconds_left p t0 (next_reading c)
          <= ExerciseConfig.countdown_beep_threshold cfg ->
        seconds_left p t0 (next_reading c) ∉ countdown_beeps_played l ->
        ("countdown"%string, Some i, seconds_left p t0 (next_reading c)) ∈ cues evs).
Proof.
  pose proof (current_timer cfg e i t0 p Hcfg Hrun Hp) as Ht.
  pose proof (current_index e i t0 Hrun) as Hi.
  unfold update_display. unfold bind at 1.
  rewrite (on_timer_query _ e c _ d _ _ Ht (remaining_time_timer_for cfg p t0 c)).
  fold (seconds_left p t0 (next_reading c)).
  set (remaining := seconds_left p t0 (next_reading c)).
  case_bool_decide as Hlast; cbn [negb].
  { exists l, []. rewrite app_nil_r. split; [reflexivity|].
    split; [symmetry; exact Hlast|]. split; [reflexivity|].
    split; [auto|]. intros Hne. contradiction. }
  unfold bind at 1. rewrite (on_phase_get e _ d i p Hp).
  unfold bind at 1. unfold gets at 1. cbn [exercise]. rewrite Hi.
  unfold bind at 1. unfold emit at 1. unfold modify at 1. cbn [exercise clock display].
  rewrite Haudio. cbn [andb].
  destruct ((1 <=? remaining)
            && (remaining <=? ExerciseConfig.countdown_beep_threshold cfg)
            && negb (bool_decide (remaining ∈ countdown_beeps_played l))) eqn:Hcd.
  - apply andb_true_iff in Hcd as [Hrange _].
    apply andb_true_iff in Hrange as [H1 _]. apply Z.leb_le in H1.
    destruct (remaining =? 0) eqn:Hz0; [apply Z.eqb_eq in Hz0; lia|]. cbn [andb].
    unfold emit. unfold_monad. cbn [exercise clock display].
    rewrite <- app_assoc. eexists _, _. split; [reflexivity|].
    cbn [last_second countdown_beeps_played].
    split; [reflexivity|]. split; [intros; contradiction|]. split.
    + intros x Hx. apply elem_of_union in Hx as [Hx|Hx]; [right|left; exact Hx].
      apply elem_of_singleton in Hx. exact Hx.
    + intros _ _ _. cbn. apply list_elem_of_here.
  - assert (Hno : 1 <= remaining <= ExerciseConfig.countdown_beep_threshold cfg ->
                  remaining ∉ countdown_beeps_played l -> False).
    { intros [H1 H2] Hnin. apply andb_false_iff in Hcd as [Hcd|Hcd].
      - apply andb_false_iff in Hcd as [Hcd|Hcd].
        + apply Z.leb_gt in Hcd. lia.
        + apply Z.leb_gt in Hcd. lia.
      - apply negb_false_iff, bool_decide_eq_true in Hcd. contradiction. }
    unfold bind at 1. unfold ret at 1.
    destruct ((remaining =? 0)
              && negb (bool_decide (0 ∈ countdown_beeps_played l))
              && negb (Phase.instruction p =? "Complete")%string) eqn:Htr.
    + apply andb_true_iff in Htr as [Htr _].
      apply andb_true_iff in Htr as [Hz0 _]. apply Z.eqb_eq in Hz0.
      unfold emit. unfold_monad. cbn [exercise clock display].
      rewrite <- app_assoc. eexists _, _. split; [reflexivity|].
      cbn [last_second countdown_beeps_played].
      split; [reflexivity|]. split; [intros; contradiction|]. split.
      * intros x Hx. apply elem_of_union in Hx as [Hx|Hx]; [right|left; exact Hx].
        apply elem_of_singleton in Hx. lia.
      * intros _ H1 H2. destruct (Hno H1 H2).
    + unfold_monad. cbn [exercise clock display].
      eexists _, _. split; [reflexivity|].
      cbn [last_second countdown_beeps_played].
      split; [reflexivity|]. split; [intros; contradiction|]. split; [auto|].
      intros _ H1 H2. destruct (Hno H1 H2).
Qed.

End LoopClock.

Lemma seconds_left_nonneg (q : Phase.t) (t0 t : Q) : 0 <= seconds_left q t0 t.
Proof.
  destruct (seconds_left_floor q t0 t) as [-> H0].
  change 0 with (Qfloor 0). apply Qfloor_resp_le. exact H0.
Qed.

Lemma slack_pos (cfg : ExerciseConfig.t) : 1 <= slack cfg <= 2.
Proof. unfold slack. case_bool_decide; lia. Qed.

(** One iteration with audio on and a quick clock: the record of the
    countdown is kept, and the phase is left only with every second of its
    countdown cued. *)
Lemma loop_body_countdown (cfg : ExerciseConfig.t) (w : World) (i : nat) (t0 : Q)
    (p q : Phase.t) (l : Locals) :
  Exercise.config (exercise w) = cfg -> ExerciseConfig.in_bounds cfg ->
  running_at i t0 (exercise w) ->
  Exercise.phases (exercise w) !! i = Some p ->
  Phase.duration p = Phase.duration q ->
  ExerciseConfig.audio_enabled cfg = true ->
  quick (clock w) -> cue_inv cfg i q t0 l w ->
  forall (o : outcome loop_ctl) (w' : World),
    loop_body cfg l w = (o, w') ->
    let done :=
      forall r, 1 <= r <= ExerciseConfig.countdown_beep_threshold cfg ->
                r + slack cfg <= Phase.duration q ->
                ("countdown"%string, Some i, r) ∈ cues (display w') in
    match o with
    | Ret (Continue l') =>
        (running_at i t0 (exercise w') /\ cue_inv cfg i q t0 l' w')
        \/ (exists t0',
              running_at (i + 1) t0' (exercise w') /\ l' = mkLocals (-1) ∅
              /\ (t0' <= now (clock w'))%Q
              /\ (now (clock w') + (2 # 10) <= t0' + inject_Z (slack cfg))%Q
              /\ done)
    | Ret Break => done
    | Raise _ => True
    end.
Proof.
  destruct w as [e c d]. cbn [exercise clock display].
  intros Hcfg Hb Hrun Hp Hpq Haudio Hqk Hinv o w'.
  pose proof Hrun as (_ & _ & Hi & _).
  pose proof (current_timer cfg e i t0 p Hcfg Hrun Hp) as Ht.
  unfold loop_body. unfold bind at 1.
  rewrite (get_current_phase_running e c d i t0 p Hrun Hp).
  unfold bind at 1, gets at 1. cbn [exercise]. rewrite Ht.
  unfold bind at 1, gets at 1. cbn [exercise]. rewrite Hi.
  destruct (check_countdown_clock cfg e c d i t0 p Hcfg Hrun Hp)
    as (e1 & c1 & p1 & Hcc & Hcfg1 & Hrun1 & Hp1 & Hdur & Hc1).
  unfold bind at 1. rewrite Hcc.
  assert (Htm : timer_for cfg p t0 = timer_for cfg p1 t0)
    by (unfold timer_for; rewrite Hdur; reflexivity).
  rewrite Htm.
  destruct (update_display_cues cfg e1 c1 d i t0 p1 Hcfg1 Hrun1 Hp1 Haudio l)
    as (l2 & evs2 & Hud & Hlast2 & Hsame & Hplayed & Hcue).
  unfold bind at 1. rewrite Hud.
  destruct (check_expired_clock cfg e1 (clock_after 0 c1) (d ++ evs2) i t0 p1
              Hcfg1 Hb Hrun1 Hp1 l2)
    as (o3 & w3 & evs3 & Hce & Hd3 & Hn3 & Hout).
  rewrite Hce. intros [= <- <-].
  (* the clock at the reading *)
  assert (Hqk1 : quick c1) by (destruct Hc1 as [->| ->]; exact Hqk).
  assert (Ha : (now c <= next_reading c1)%Q /\ (next_reading c1 <= now c + (2 # 10))%Q).
  { unfold next_reading. destruct Hc1 as [->| ->].
    - destruct (quick_after 0 c Hqk) as (_ & H1 & H2). split; lra.
    - destruct (quick_after 0 c Hqk) as (Hq' & H1 & H2).
      destruct (quick_after 0 _ Hq') as (_ & H3 & H4).
      revert H1 H2 H3 H4.
      generalize (now (clock_after 0 (clock_after 0 c))), (now (clock_after 0 c)).
      intros x y H1 H2 H3 H4. split; lra. }
  destruct Ha as [Halo Hahi].
  rewrite (seconds_left_same p1 q t0 _ (eq_trans Hdur Hpq)) in *.
  set (a := next_reading c1) in *.
  set (R := seconds_left q t0 a) in *.
  pose proof (seconds_left_nonneg q t0 a) as HR0. fold R in HR0.
  destruct Hinv as (HF & HBL & HP & HC).
  assert (Hup : last_second l <> -1 -> R <= last_second l).
  { intros Hne. destruct (HBL Hne) as [H1 _]. etransitivity; [|exact H1].
    apply seconds_left_mono. exact Halo. }
  assert (Hlow : last_second l <> -1 -> last_second l - 1 <= R).
  { intros Hne. destruct (HBL Hne) as [_ H1]. etransitivity; [exact H1|].
    apply seconds_left_mono. exact Hahi. }
  assert (Hfirst : last_second l = -1 -> Phase.duration q - slack cfg <= R).
  { intros He. destruct (HF He) as [_ H1]. etransitivity; [exact H1|].
    apply seconds_left_mono. exact Hahi. }
  assert (Hnew : R <> last_second l -> R ∉ countdown_beeps_played l).
  { intros Hne Hin. destruct (HP R Hin) as [Hm Hle]. specialize (Hup Hm). lia. }
  assert (HP2 : forall x, x ∈ countdown_beeps_played l2 ->
                          last_second l2 <> -1 /\ last_second l2 <= x).
  { intros x Hx. rewrite Hlast2. split; [lia|].
    destruct (Hplayed x Hx) as [Hin| ->]; [|lia].
    destruct (HP x Hin) as [Hm Hle]. specialize (Hup Hm). lia. }
  assert (Hlog : forall cue, cue ∈ cues (d ++ evs2) -> cue ∈ cues (display w3)).
  { intros cue H. rewrite Hd3, cues_app. apply elem_of_app. left. exact H. }
  assert (HC2 : forall r, 1 <= r <= ExerciseConfig.countdown_beep_threshold cfg ->
                          r + slack cfg <= Phase.duration q -> R <= r ->
                          ("countdown"%string, Some i, r) ∈ cues (display w3)).
  { intros r Hr Hrd HRr. apply Hlog. rewrite cues_app. apply elem_of_app.
    destruct (decide (R = last_second l)) as [Heq|Hne].
    - left. apply HC; try assumption; lia.
    - destruct (decide (r = R)) as [->|Hrne].
      + right. apply Hcue; [exact Hne|exact Hr|apply Hnew, Hne].
      + left. destruct (decide (last_second l = -1)) as [Hm|Hm].
        * specialize (Hfirst Hm). lia.
        * specialize (Hup Hm). specialize (Hlow Hm). apply HC; try assumption. lia. }
  assert (Hleft : expired_at p1 t0 (clock_after 0 c1) = true ->
                  forall r, 1 <= r <= ExerciseConfig.countdown_beep_threshold cfg ->
                            r + slack cfg <= Phase.duration q ->
                            ("countdown"%string, Some i, r) ∈ cues (display w3)).
  { intros Hex r Hr Hrd. apply HC2; try assumption.
    pose proof (expired_means_zero p1 t0 c1 (quick_prompt _ Hqk1) Hex) as Hz.
    fold (seconds_left p1 t0 (next_reading c1)) in Hz.
    rewrite (seconds_left_same p1 q t0 _ (eq_trans Hdur Hpq)) in Hz.
    fold a in Hz. fold R in Hz. lia. }
  cbv zeta. destruct o3 as [[|l']|ex]; [apply Hleft, Hout| |exact I].
  destruct Hout as [(-> & Hw3 & Hc3)|(-> & Hex & t0' & Hr' & Hnow)].
  - left. rewrite Hw3. split; [exact Hrun1|].
    assert (Hnow3 : (a <= now (clock w3))%Q /\ (now (clock w3) + (2 # 10) <= a + 1)%Q).
    { rewrite Hc3.
      destruct (quick_after 0 c1 Hqk1) as (Hq2 & _ & _).
      destruct (quick_after 0 _ Hq2) as (Hq3 & H1 & H2).
      destruct (quick_after (1 # 10) _ Hq3) as (_ & H3 & H4).
      change (now (clock_after 0 c1)) with a in H1, H2.
      revert H1 H2 H3 H4.
      generalize (now (clock_after (1 # 10) (clock_after 0 (clock_after 0 c1)))),
        (now (clock_after 0 (clock_after 0 c1))).
      intros x y H1 H2 H3 H4. split; lra. }
    destruct Hnow3 as [Hlo3 Hhi3].
    split; [intros Hm; rewrite Hlast2 in Hm; lia|].
    split.
    { intros _. rewrite Hlast2. split.
      - apply seconds_left_mono. exact Hlo3.
      - apply seconds_left_step. exact Hhi3. }
    split; [exact HP2|].
    intros r Hr Hrd _ Hle. rewrite Hlast2 in Hle. apply HC2; assumption.
  - right. exists t0'. split; [exact Hr'|]. split; [reflexivity|].
    assert (Hq2 : quick (clock_after 0 c1)) by exact Hqk1.
    destruct (Hnow Hq2) as [H1 H2]. split; [exact H1|]. split; [exact H2|].
    apply Hleft, Hex.
Qed.

Lemma cue_inv_fresh (cfg : ExerciseConfig.t) (i : nat) (q : Phase.t) (t0 : Q)
    (w : World) :
  (now (clock w) + (2 # 10) <= t0 + inject_Z (slack cfg))%Q ->
  cue_inv cfg i q t0 (mkLocals (-1) ∅) w.
Proof.
  intros H. unfold cue_inv. cbn [last_second countdown_beeps_played].
  split; [|split; [intros Hm; contradiction|split]].
  - intros _. split; [reflexivity|]. apply seconds_left_start.
    revert H. generalize (now (clock w)), (inject_Z (slack cfg)). intros x y H. lra.
  - intros x Hx. apply elem_of_empty in Hx. destruct Hx.
  - intros r _ _ Hm. contradiction.
Qed.

(** The main loop with audio on and a quick clock: when it ends, every
    phase from the current one on has had the cues of its countdown. *)
Lemma main_loop_countdown (cfg : ExerciseConfig.t) (fuel : nat) :
  forall (l : Locals) (w : World) (i : nat) (t0 : Q) (q : Phase.t),
    Exercise.config (exercise w) = cfg -> ExerciseConfig.in_bounds cfg ->
    ExerciseConfig.audio_enabled cfg = true ->
    running_at i t0 (exercise w) -> quick (clock w) ->
    Exercise.described_phases Exercise.label_plain cfg !! i = Some q ->
    cue_inv cfg i q t0 l w ->
    forall w' : World,
      main_loop fuel cfg l w = (Ret (Some tt), w') ->
      (exists evs, display w' = display w ++ evs)
      /\ forall (j : nat) (q' : Phase.t) (r : Z),
          (i <= j)%nat ->
          Exercise.described_phases Exercise.label_plain cfg !! j = Some q' ->
          1 <= r <= ExerciseConfig.countdown_beep_threshold cfg ->
          r + slack cfg <= Phase.duration q' ->
          ("countdown"%string, Some j, r) ∈ cues (display w').
Proof.
  induction fuel as [|fuel IH];
    intros l w i t0 q Hcfg Hb Haudio Hrun Hqk Hq Hinv w' Hml.
  - discriminate.
  - revert Hml. cbn [main_loop]. unfold bind at 1. rewrite is_complete_world.
    pose proof Hrun as (_ & Hc & _ & _ & _ & p & Hp & _). rewrite Hc.
    pose proof (current_described cfg (exercise w) i t0 p Hcfg Hrun Hp) as Hdesc.
    rewrite Hq in Hdesc. injection Hdesc as Hqp.
    assert (Hdur : Phase.duration p = Phase.duration q) by (rewrite Hqp; reflexivity).
    clear Hqp.
    destruct (loop_body_timing cfg w i t0 p l Hcfg Hb Hrun Hp)
      as (o & w1 & evs & Hlb & Hd & _ & Hcfg1 & Hlag & Hout).
    pose proof (loop_body_countdown cfg w i t0 p q l Hcfg Hb Hrun Hp Hdur Haudio
                  Hqk Hinv o w1 Hlb) as Htick.
    cbv zeta in Htick.
    unfold bind at 1. rewrite Hlb.
    assert (Hqk1 : quick (clock w1)) by (unfold quick; rewrite Hlag; exact Hqk).
    assert (Hgrow : forall w2 : World,
              (exists evs2, display w2 = display w1 ++ evs2) ->
              (exists evs2, display w2 = display w ++ evs2)
              /\ forall cue, cue ∈ cues (display w1) -> cue ∈ cues (display w2)).
    { intros w2 [evs2 H2]. split.
      - exists (evs ++ evs2). rewrite H2, Hd, app_assoc. reflexivity.
      - intros cue H. rewrite H2, cues_app. apply elem_of_app. left. exact H. }
    destruct o as [[|l']|ex]; [| |discriminate].
    + intros [= <-]. split; [eauto|]. intros j q' r Hij Hq' Hr Hrd.
      destruct Hout as (_ & Hlen & _).
      assert (Hlen' : (length (Exercise.described_phases Exercise.label_plain cfg)
                       <= i + 1)%nat).
      { destruct Hrun as (_ & _ & _ & He & _). rewrite <- Hcfg, <- He.
        unfold erase. rewrite length_map. exact Hlen. }
      pose proof (lookup_lt_Some _ _ _ Hq') as Hlt.
      assert (j = i) as -> by lia.
      rewrite Hq in Hq'. injection Hq' as <-. apply Htick; assumption.
    + intros Hml.
      destruct Htick as [[Hr' Hinv']|(t0' & Hr' & -> & Hlo & Hhi & Hdone)].
      * destruct (IH l' w1 i t0 q Hcfg1 Hb Haudio Hr' Hqk1 Hq Hinv' w' Hml)
          as [Hevs Hall].
        destruct (Hgrow w' Hevs) as [Hevs' _]. split; [exact Hevs'|]. exact Hall.
      * pose proof Hr' as (_ & _ & _ & _ & _ & p' & Hp' & _).
        pose proof (current_described _ (exercise w1) (i + 1) t0' p' Hcfg1 Hr' Hp')
          as Hq1.
        destruct (IH (mkLocals (-1) ∅) w1 (i + 1)%nat t0' _ Hcfg1 Hb Haudio Hr' Hqk1
                    Hq1 (cue_inv_fresh cfg _ _ t0' w1 Hhi) w' Hml) as [Hevs Hall].
        destruct (Hgrow w' Hevs) as [Hevs' Hmono]. split; [exact Hevs'|].
        intros j q' r Hij Hq' Hr Hrd.
        destruct (decide (j = i)) as [->|Hne].
        -- apply Hmono. rewrite Hq in Hq'. injection Hq' as <-.
           apply Hdone; assumption.
        -- apply (Hall j q' r); [lia|assumption..].
Qed.

(** X22. With audio enabled, on a clock whose every event lags by a tenth
    of a second at most, a run that returns true has made the countdown
    cue for every phase and every second [r] from 1 to the threshold that
    leaves room for the start of the phase: [r <= duration - 1] in TUI
    mode, [r <= duration - 2] in plain mode, where the pause after a
    transition takes the first second. *)
Theorem countdown_cues_made (cfg : ExerciseConfig.t) (c : Clock) (fuel : nat) :
  ExerciseConfig.in_bounds cfg ->
  ExerciseConfig.audio_enabled cfg = true ->
  quick c ->
  fst (run_exercise fuel cfg c) = Ret (Some true) ->
  forall (j : nat) (q : Phase.t) (r : Z),
    Exercise.described_phases Exercise.label_plain cfg !! j = Some q ->
    1 <= r <= ExerciseConfig.countdown_beep_threshold cfg ->
    r + slack cfg <= Phase.duration q ->
    ("countdown"%string, Some j, r)
      ∈ cues (display (snd (run_exercise fuel cfg c))).
Proof.
  intros Hb Haudio Hqk Hres j q r Hq Hr Hrd.
  destruct (run_exercise_cases cfg c fuel Hb)
    as (e1 & o & w2 & evs & Hcfg & Hrun & Hml & Hn & Hd & _ & _ & Hfst).
  rewrite Hfst in Hres. destruct o as [[[]|]|ex]; try discriminate.
  destruct (described_phases_cons Exercise.label_plain cfg) as (q0 & rest & Hq0).
  assert (Hlook : Exercise.described_phases Exercise.label_plain cfg !! 0%nat = Some q0)
    by (rewrite Hq0; reflexivity).
  destruct (main_loop_countdown cfg fuel (mkLocals (-1) ∅)
              (mkWorld e1 (clock_after 0 c) [EvStartLive]) 0 (next_reading c) q0
              Hcfg Hb Haudio Hrun Hqk Hlook) with (w' := w2) as [_ Hall].
  - apply cue_inv_fresh. cbn [clock]. unfold next_reading.
    pose proof (slack_pos cfg) as [Hs _].
    assert (H1 : (inject_Z 1 <= inject_Z (slack cfg))%Q) by (rewrite <- Zle_Qle; exact Hs).
    change (inject_Z 1) with 1%Q in H1. revert H1.
    generalize (now (clock_after 0 c)), (inject_Z (slack cfg)). intros x y H. lra.
  - exact Hml.
  - rewrite Hd, cues_app. apply elem_of_app. left.
    apply (Hall j q r); [lia|assumption..].
Qed.

(** An instance: hold 3, one step of 2 seconds, threshold 5, TUI display,
    on a clock without lag: second 1 of the step and seconds 2 and 1 of the
    hold are cued. *)
Lemma countdown_cues_made_witness :
  let cfg := ExerciseConfig.mk 3 [2] 5 0 true TUI in
  let log := display (snd (run_exercise 100 cfg (mkClock 0 0 (fun _ => 0%Q)))) in
  ("countdown"%string, Some 0%nat, 1) ∈ cues log
  /\ ("countdown"%string, Some 1%nat, 2) ∈ cues log
  /\ ("countdown"%string, Some 1%nat, 1) ∈ cues log.
Proof.
  cbv zeta.
  assert (Hb : ExerciseConfig.in_bounds (ExerciseConfig.mk 3 [2] 5 0 true TUI)).
  { unfold ExerciseConfig.in_bounds. cbn.
    repeat split; try lia; try discriminate. repeat constructor; lia. }
  assert (Hqk : quick (mkClock 0 0 (fun _ => 0%Q))).
  { intros n. cbn. split; [apply Qle_refl|discriminate]. }
  assert (Hres : fst (run_exercise 100 (ExerciseConfig.mk 3 [2] 5 0 true TUI)
                        (mkClock 0 0 (fun _ => 0%Q))) = Ret (Some true))
    by (vm_compute; reflexivity).
  pose proof (countdown_cues_made _ _ 100 Hb eq_refl Hqk Hres) as H.
  split; [|split].
  - apply (H 0%nat (Phase.new BREATHING 2 "Breathe" "cyan") 1);
      [reflexivity|cbn; lia|vm_compute; discriminate].
  - apply (H 1%nat (Phase.new HOLD 3 "Hold" "yellow") 2);
      [reflexivity|cbn; lia|vm_compute; discriminate].
  - apply (H 1%nat (Phase.new HOLD 3 "Hold" "yellow") 1);
      [reflexivity|cbn; lia|vm_compute; discriminate].
Defined.

(** ** The configuration and the phase list of an exercise *)

Lemma described_phases_length (label : Z -> string) (cfg : ExerciseConfig.t) :
  length (Exercise.described_phases label cfg)
  = ((if ExerciseConfig.preparation_duration cfg >? 0 then 1 else 0)
     + 2 * length (ExerciseConfig.step_durations cfg) + 1)%nat.
Proof.
  unfold Exercise.described_phases. rewrite !length_app.
  assert (H : forall l : list Z,
    length (flat_map (fun d =>
        [Phase.new BREATHING d (label d) "cyan";
         Phase.new HOLD (ExerciseConfig.hold_duration cfg) "Hold" "yellow"]) l)
    = (2 * length l)%nat).
  { induction l as [|x l IH]; [reflexivity|]. cbn [flat_map app length].
    rewrite IH. lia. }
  rewrite H. destruct (ExerciseConfig.preparation_duration cfg >? 0);
    cbn [length]; lia.
Qed.

(** X23. No call of the interface changes the configuration of an
    exercise, which stays within the bounds; and once the exercise is
    started its phase list is, states apart, the list generated from that
    configuration: calls neither add, drop nor reorder phases, nor change a
    type, duration, label or colour.  Before the start the list is
    empty. *)
Theorem phases_fixed_by_config (e : Exercise.t) (c : Clock) :
  reachable e ->
  ExerciseConfig.in_bounds (Exercise.config e)
  /\ Exercise.config (fst (snd (Exercise.start (e, c)))) = Exercise.config e
  /\ Exercise.config (fst (snd (Exercise.advance_phase (e, c)))) = Exercise.config e
  /\ Exercise.config (snd (Exercise.reset e)) = Exercise.config e
  /\ (Exercise._started e = false -> Exercise.phases e = [])
  /\ (Exercise._started e = true ->
      erase (Exercise.phases e)
      = Exercise.described_phases Exercise.label_plain (Exercise.config e)
      /\ length (Exercise.phases e)
         = ((if ExerciseConfig.preparation_duration (Exercise.config e) >? 0
             then 1 else 0)
            + 2 * length (ExerciseConfig.step_durations (Exercise.config e)) + 1)%nat).
Proof.
  intros Hr. apply reachable_consistent in Hr. destruct Hr as [Hb Hcase].
  split; [exact Hb|].
  assert (Hlen : erase (Exercise.phases e)
                 = Exercise.described_phases Exercise.label_plain (Exercise.config e) ->
                 length (Exercise.phases e)
                 = ((if ExerciseConfig.preparation_duration (Exercise.config e) >? 0
                     then 1 else 0)
                    + 2 * length (ExerciseConfig.step_durations (Exercise.config e))
                    + 1)%nat).
  { intros He. rewrite <- (described_phases_length Exercise.label_plain), <- He.
    unfold erase. rewrite length_map. reflexivity. }
  split; [|split; [|split; [rewrite reset_eq; reflexivity|]]].
  - destruct Hcase as [(Hs & Hc & _)|[(i & t0 & Hs & _)|(Hs & _)]].
    + destruct (start_fresh e c Hs Hc Hb) as (p0 & rest & _ & ->). reflexivity.
    + destruct (start_started e c Hs) as [msg ->]. reflexivity.
    + destruct (start_started e c Hs) as [msg ->]. reflexivity.
  - destruct Hcase as [(Hs & _)|[(i & t0 & Hrun)|(Hs & Hc & _)]].
    + rewrite (advance_not_started e c Hs). reflexivity.
    + pose proof Hrun as (_ & _ & _ & _ & _ & p & Hp & _).
      destruct (advance_running e c i t0 p Hb Hrun Hp)
        as [[_ ->]|[_ (e' & Hcfg' & [(-> & _)|(-> & _)])]];
        [reflexivity|exact Hcfg'|exact Hcfg'].
    + rewrite (advance_completed e c Hs Hc). reflexivity.
  - destruct Hcase as [(Hs & _ & Hph & _)|[(i & t0 & Hs & _ & _ & He & _)|(Hs & _ & _ & He & _)]].
    + split; [intros _; exact Hph|congruence].
    + split; [congruence|]. intros _. split; [exact He|apply Hlen, He].
    + split; [congruence|]. intros _. split; [exact He|apply Hlen, He].
Qed.

(** An instance: the default exercise, started and advanced after its
    first 30 seconds, still has the seven phases of its configuration. *)
Lemma phases_fixed_by_config_witness :
  let c0 := mkClock 0 0 (fun _ => 0%Q) in
  let e1 := fst (snd (Exercise.start (Exercise.new (Some ExerciseConfig.default), c0))) in
  let e2 := fst (snd (Exercise.advance_phase (e1, mkClock 100 1 (fun _ => 0%Q)))) in
  Exercise.current_phase_index e2 = Some 1%nat
  /\ Exercise.config e2 = ExerciseConfig.default
  /\ length (Exercise.phases e2) = 7%nat.
Proof.
  cbv zeta. split; [vm_compute; reflexivity|].
  set (e2 := fst (snd (Exercise.advance_phase _))).
  assert (Hr : reachable e2)
    by (apply reach_advance, reach_start, reach_new; exact default_in_bounds).
  destruct (phases_fixed_by_config e2 (mkClock 0 0 (fun _ => 0%Q)) Hr)
    as (_ & _ & _ & _ & _ & Hst).
  split; [vm_compute; reflexivity|].
  destruct (Hst eq_refl) as [_ Hlen]. rewrite Hlen. reflexivity.
Defined.

(** ** The countdown line of the plain mode *)

Lemma str_length_app (s t : string) :
  String.length (s +:+ t) = (String.length s + String.length t)%nat.
Proof. induction s as [|a s IH]; [reflexivity|]. simpl. rewrite IH. reflexivity. Qed.

Lemma format_02d_small (n : Z) :
  0 <= n < 100 ->
  String.length (format_02d n) = 2%nat /\ py_int_str (format_02d n) = Ret n.
Proof.
  intros Hn.
  assert (Hall : forallb two_digits_ok (seq 0 100) = true) by (vm_compute; reflexivity).
  rewrite forallb_forall in Hall.
  specialize (Hall (Z.to_nat n)).
  assert (Hin : In (Z.to_nat n) (seq 0 100)) by (apply in_seq; lia).
  specialize (Hall Hin). unfold two_digits_ok in Hall.
  rewrite Z2Nat.id in Hall by lia.
  apply andb_true_iff in Hall as [H1 H2]. apply Nat.eqb_eq in H1.
  split; [exact H1|].
  destruct (py_int_str (format_02d n)) as [v|ex]; [|discriminate].
  apply Z.eqb_eq in H2. rewrite H2. reflexivity.
Qed.

(** X24. For a count below 100 minutes, the line the plain mode writes is
    a carriage return, the instruction of the phase, and the time as two
    digits of minutes and two of seconds that read back as the count, the
    seconds below 60.  The line of a phase so keeps one length, that of the
    instruction plus 12: each frame overwrites the one before it
    completely. *)
Theorem plain_countdown_line (seconds : Z) (phase : option Phase.t) :
  0 <= seconds < 6000 ->
  exists (mm ss : string) (m s : Z),
    _show_plain_countdown seconds phase
    = String (Ascii.ascii_of_nat 13)
        (match phase with
         | Some p => Phase.instruction p
         | None => "Breathwork Exercise"%string
         end +:+ ": " +:+ mm +:+ ":" +:+ ss +:+ "    ")
    /\ String.length mm = 2%nat /\ String.length ss = 2%nat
    /\ py_int_str mm = Ret m /\ py_int_str ss = Ret s
    /\ 0 <= s < 60 /\ 60 * m + s = seconds
    /\ String.length (_show_plain_countdown seconds phase)
       = (String.length (match phase with
                         | Some p => Phase.instruction p
                         | None => "Breathwork Exercise"%string
                         end) + 12)%nat.
Proof.
  intros Hs.
  pose proof (Z.mod_pos_bound seconds 60 ltac:(lia)) as Hmod.
  pose proof (Z.div_mod seconds 60 ltac:(lia)) as Hdm.
  assert (Hdiv : 0 <= seconds / 60 < 100).
  { split; [apply Z.div_pos; lia|apply Z.div_lt_upper_bound; lia]. }
  destruct (format_02d_small (seconds / 60) Hdiv) as [Hl1 Hp1].
  destruct (format_02d_small (seconds mod 60) ltac:(lia)) as [Hl2 Hp2].
  exists (format_02d (seconds / 60)), (format_02d (seconds mod 60)),
    (seconds / 60), (seconds mod 60).
  split; [reflexivity|]. do 4 (split; [assumption|]).
  split; [lia|]. split; [lia|].
  unfold _show_plain_countdown. cbn [String.length].
  rewrite !str_length_app, Hl1, Hl2. cbn [String.length]. lia.
Qed.

(** An instance: 75 seconds left of a hold phase. *)
Lemma plain_countdown_line_witness :
  _show_plain_countdown 75 (Some (Phase.new HOLD 60 "Hold" "yellow"))
  = String (Ascii.ascii_of_nat 13) "Hold: 01:15    "
  /\ exists (mm ss : string) (m s : Z),
      String.length mm = 2%nat /\ String.length ss = 2%nat
      /\ py_int_str mm = Ret m /\ py_int_str ss = Ret s
      /\ 60 * m + s = 75.
Proof.
  split; [vm_compute; reflexivity|].
  destruct (plain_countdown_line 75 (Some (Phase.new HOLD 60 "Hold" "yellow"))
              ltac:(lia))
    as (mm & ss & m & s & _ & H1 & H2 & H3 & H4 & _ & H5 & _).
  exists mm, ss, m, s. auto.
Defined.
